(** * The IMAP mail driver of Zero: a shallow embedding and its properties

    This development embeds [apps/server/src/lib/driver/imap.ts] (class
    [ImapMailManager]) and the part of the tRPC route
    [apps/server/src/trpc/routes/connections/imap.ts] that builds the
    driver.  The driver talks to three external libraries ([imap],
    [nodemailer], [mailparser]); their calls are the commands of a small
    free monad, so that every public operation is a finite program tree
    whose nodes are library calls and whose continuations receive either the
    error or the value the library hands back. *)

From Stdlib Require Import ZArith Ascii String List Lia Bool.
From Stdlib Require Import Decimal DecimalString DecimalZ DecimalPos Sorted Permutation.
From stdpp Require Import base gmap strings list.

Open Scope Z_scope.

(** ** JavaScript values and string primitives *)

Module JS.

(** A JavaScript number that is either an integer or [NaN].  Message UIDs
    and sequence numbers are 32-bit unsigned integers, which a double
    represents exactly, so integers are modelled by [Z]. *)
Definition num := option Z.

Definition NaN : num := None.

(** [x - y] on numbers. *)
Definition sub (x y : num) : num :=
  match x, y with
  | Some a, Some b => Some (a - b)
  | _, _ => NaN
  end.

(** Truthiness of a possibly [undefined] string. *)
Definition truthy (s : option string) : bool :=
  match s with
  | Some (String _ _) => true
  | _ => false
  end.

(** [a || b] where [a] is a possibly [undefined] string. *)
Definition or_else (a : option string) (b : string) : string :=
  match a with
  | Some (String c s) => String c s
  | _ => b
  end.

(** [a || b] where both sides may be [undefined]. *)
Definition or_opt (a b : option string) : option string :=
  if truthy a then a else b.

(** [s.split(sep)] for a one-character separator. *)
Fixpoint split (sep : ascii) (s : string) : list string :=
  match s with
  | EmptyString => [EmptyString]
  | String c s' =>
      if Ascii.eqb c sep then EmptyString :: split sep s'
      else match split sep s' with
           | [] => [String c EmptyString]
           | p :: ps => String c p :: ps
           end
  end.

(** [s.startsWith(p)] *)
Definition startsWith (s p : string) : bool := String.prefix p s.

(** [s.includes(t)]: [t] occurs in [s] as a contiguous substring. *)
Fixpoint includes (s t : string) : bool :=
  if String.prefix t s then true
  else match s with
       | EmptyString => false
       | String _ s' => includes s' t
       end.

(** [arr.includes(x)] on an array of strings, for a possibly [undefined]
    [x]: [undefined] is never a member of an array of strings. *)
Definition arr_includes (arr : list string) (x : option string) : bool :=
  match x with
  | Some v => existsb (String.eqb v) arr
  | None => false
  end.

(** [s.toLowerCase()], on the ASCII letters. *)
Definition lower_char (c : ascii) : ascii :=
  let n := nat_of_ascii c in
  if ((65 <=? n) && (n <=? 90))%nat then ascii_of_nat (n + 32) else c.

Fixpoint toLowerCase (s : string) : string :=
  match s with
  | EmptyString => EmptyString
  | String c s' => String (lower_char c) (toLowerCase s')
  end.

(** The white space [parseInt] skips (the ASCII part of it). *)
Definition is_space (c : ascii) : bool :=
  let n := nat_of_ascii c in
  ((n =? 32) || ((9 <=? n) && (n <=? 13)))%nat.

Fixpoint skip_space (s : string) : string :=
  match s with
  | String c s' => if is_space c then skip_space s' else s
  | EmptyString => EmptyString
  end.

Definition digit_of (c : ascii) : option Z :=
  let n := Z.of_nat (nat_of_ascii c) in
  if (48 <=? n) && (n <=? 57) then Some (n - 48) else None.

(** The value of the longest prefix of decimal digits of [s], continuing
    from [acc]; [seen] records whether a digit has been read. *)
Fixpoint digits (s : string) (seen : bool) (acc : Z) : num :=
  match s with
  | String c s' =>
      match digit_of c with
      | Some d => digits s' true (10 * acc + d)
      | None => if seen then Some acc else NaN
      end
  | EmptyString => if seen then Some acc else NaN
  end.

(** [parseInt(s, 10)]: leading white space, an optional sign, then the
    longest run of digits; [NaN] when there is no digit. *)
Definition parseInt10 (s : string) : num :=
  match skip_space s with
  | String "-"%char s' => option_map Z.opp (digits s' false 0)
  | String "+"%char s' => digits s' false 0
  | s' => digits s' false 0
  end.

(** [parseInt(x, 10)] where [x] may be [undefined] (an array index out of
    range): [String(undefined)] has no digit. *)
Definition parseInt (x : option string) : num :=
  match x with
  | Some s => parseInt10 s
  | None => NaN
  end.

(** The decimal rendering of an integer inside a template literal. *)
Definition string_of_Z (z : Z) : string :=
  NilZero.string_of_int (Z.to_int z).

Definition toString (n : num) : string :=
  match n with
  | Some z => string_of_Z z
  | None => "NaN"
  end.

(** [arr.slice(0, end)] for an integer [end]: a negative [end] counts from
    the back of the array. *)
Definition slice0 {A : Type} (arr : list A) (e : Z) : list A :=
  let len := Z.of_nat (length arr) in
  let k := if e <? 0 then Z.max (len + e) 0 else Z.min e len in
  firstn (Z.to_nat k) arr.

(** [arr[arr.length - 1]], [undefined] on the empty array. *)
Definition last_elem (arr : list Z) : num := last arr.

(** [[...arr].sort((a, b) => b - a)]: the array in descending order. *)
Fixpoint insert_desc (x : Z) (l : list Z) : list Z :=
  match l with
  | [] => [x]
  | y :: l' => if y <=? x then x :: l else y :: insert_desc x l'
  end.

Fixpoint sort_desc (l : list Z) : list Z :=
  match l with
  | [] => []
  | x :: l' => insert_desc x (sort_desc l')
  end.

End JS.

(** ** Errors

    Anything can be thrown in JavaScript.  The driver only ever reads
    [error.code], [error.message] and [error?.response?.status] of what it
    catches, and renders the value itself when the message is empty. *)

Record RawError := mkRawError {
  code : option string;
  message : option string;
  response_status : option string;
  (** [String(error)] *)
  rendering : string
}.

(** The object handed to [sanitizeContext]: the caller's context entries
    spread together with the caught error. *)
Record Context := mkContext {
  entries : list (string * string);
  error : RawError
}.

(** [StandardizedError] of [./utils], as the mock of [imap.test.ts] has it:
    the details object the driver passes to the constructor becomes the own
    properties of the error. *)
Record StandardizedError := mkStandardizedError {
  std_code : string;
  status : Z;
  operation : string;
  std_message : string;
  context : Context;
  fatal : bool
}.

Inductive thrown :=
| Raw (e : RawError)
| Std (e : StandardizedError).

(** What a [catch] block sees of a thrown value.  A [StandardizedError]
    carries its details as own properties and has no [response]. *)
Definition view (t : thrown) : RawError :=
  match t with
  | Raw e => e
  | Std e => {| code := Some (std_code e); message := Some (std_message e);
                response_status := None;
                rendering := "Error: " +:+ std_message e |}
  end.

(** [new Error(msg)] *)
Definition Error (msg : string) : thrown :=
  Raw {| code := None; message := Some msg; response_status := None;
         rendering := "Error: " +:+ msg |}.

(** The [TypeError] of a property read or a method call on [undefined]. *)
Definition TypeError (msg : string) : thrown :=
  Raw {| code := None; message := Some msg; response_status := None;
         rendering := "TypeError: " +:+ msg |}.

(** ** The data the libraries exchange with the driver *)

(** Options of [imap.fetch]. *)
Record FetchOptions := mkFetchOptions {
  bodies : string;
  struct : bool;
  markSeen : bool
}.

(** One ['message'] event of a fetch: the sequence number the event is
    emitted with, the chunks of its body stream, and the attributes
    (['attributes'] event) that carry the UID and the flags. *)
Record FetchEvent := mkFetchEvent {
  seqno : Z;
  chunks : list string;
  attrs_uid : Z;
  attrs_flags : list string
}.

Inductive Criterion :=
| ALL
| SUBJECT (q : string).

(** The tree [imap.getBoxes] yields: an object whose own properties, in
    insertion order, map a name to a box with a possibly [null] [children]
    object of the same shape.  A node carries its property name. *)
#[warnings="-register-all"] Inductive Box :=
| MkBox (name : string) (children : option (list Box)).

Record Address := mkAddress {
  addr_name : option string;
  addr_address : option string
}.

Module Attachment.
(** An attachment of a parsed mail; the [content] buffer is represented by
    its base64 rendering, the only way the driver reads it. *)
Record t := mk {
  filename : option string;
  contentType : option string;
  size : Z;
  contentId : option string;
  content_base64 : string
}.
End Attachment.

Module ParsedMail.
(** The fields of a [mailparser] result the driver reads ([email: any]). *)
Record t := mk {
  from : option (list Address);
  to : option (list Address);
  cc : option (list Address);
  messageId : option string;
  subject : option string;
  html : option string;
  textAsHtml : option string;
  text : option string;
  references : option string;
  inReplyTo : option string;
  (** [email.date?.toString()] *)
  date : option string;
  flags : option (list string);
  attachments : option (list Attachment.t)
}.
End ParsedMail.

Module File.
Record t := mk {
  name : string;
  type : string;
  (** the bytes [arrayBuffer()] resolves to *)
  bytes : string
}.
End File.

Module MailAttachment.
Record t := mk {
  filename : string;
  content : string;
  contentType : string
}.
End MailAttachment.

Module SendMailOptions.
Record envelope_t := mkEnvelope {
  env_from : string;
  env_to : list string
}.

(** [nodemailer.SendMailOptions] *)
Record t := mk {
  from : string;
  to : list string;
  cc : option (list string);
  bcc : option (list string);
  subject : string;
  html : string;
  attachments : list MailAttachment.t;
  headers : option (list (string * string));
  envelope : option envelope_t
}.
End SendMailOptions.

Record Recipient := mkRecipient {
  rcpt_name : option string;
  rcpt_email : string
}.

Module IOutgoingMessage.
Record t := mk {
  to : list Recipient;
  cc : option (list Recipient);
  bcc : option (list Recipient);
  subject : string;
  message : string;
  attachments : option (list File.t);
  headers : option (list (string * option string));
  fromEmail : option string
}.
End IOutgoingMessage.

Module CreateDraftData.
Record t := mk {
  to : string;
  cc : option string;
  bcc : option string;
  subject : string;
  message : option string;
  attachments : option (list File.t)
}.
End CreateDraftData.

(** What [smtp.sendMail] resolves to (only [messageId] is read). *)
Record SentMessageInfo := mkSentMessageInfo {
  sent_messageId : option string
}.

(** ** Library calls

    A command of type [cmd R] is one call into a library; it settles with an
    error (callback [err], promise rejection, ['error'] event) or with a
    value of type [R]. *)

Inductive cmd : Type -> Type :=
(** [imap.connect()], settled by the next ['ready'] or ['error'] event *)
| ImapConnect : cmd unit
| ImapOpenBox (mailbox : string) (readOnly : bool) : cmd unit
| ImapSearch (criteria : list Criterion) : cmd (list Z)
(** the UID-based [imap.fetch]; settles on the fetch's ['end'] or ['error'] *)
| ImapFetch (uids : list JS.num) (options : FetchOptions) : cmd (list FetchEvent)
(** [imap.move]: the error of the call is what it throws synchronously,
    before anything is sent (the library validates the UID list and the
    session first); its value is the [err] the callback receives, absent
    when the move went through.  [delete] treats the two differently. *)
| ImapMove (uids : list JS.num) (box : string) : cmd (option thrown)
| ImapAddFlags (uids : list JS.num) (flag : string) : cmd unit
| ImapDelFlags (uids : list JS.num) (flag : string) : cmd unit
(** [imap.append]: part of the library, never called by the driver *)
| ImapAppend (raw : string) (box : string) : cmd unit
| ImapGetBoxes : cmd (list Box)
| ImapAddBox (name : string) : cmd unit
| ImapRenameBox (old new : string) : cmd unit
| ImapDelBox (name : string) : cmd unit
(** the read of [imap._box]: [messages.total] of the selected box, if any *)
| ImapBox : cmd (option Z)
| SmtpSendMail (mail : SendMailOptions.t) : cmd SentMessageInfo
| SimpleParser (raw : string) : cmd ParsedMail.t
| SanitizeTipTapHtml (html : string) : cmd string
| DeleteActiveConnection (userId : string) : cmd unit
(** [Date.now()] *)
| DateNow : cmd Z
(** [Math.random().toString(36).substring(2, 11)] *)
| MathRandom : cmd string.

(** Commands that go to the IMAP connection. *)
Definition is_imap {R} (c : cmd R) : bool :=
  match c with
  | ImapConnect | ImapOpenBox _ _ | ImapSearch _ | ImapFetch _ _
  | ImapMove _ _ | ImapAddFlags _ _ | ImapDelFlags _ _ | ImapAppend _ _
  | ImapGetBoxes | ImapAddBox _ | ImapRenameBox _ _ | ImapDelBox _
  | ImapBox => true
  | _ => false
  end.

Definition is_connect {R} (c : cmd R) : bool :=
  match c with ImapConnect => true | _ => false end.

(** ** Programs

    An asynchronous function of the driver is a tree: it returns, throws, or
    calls a library and continues with what the call settles with. *)

Inductive prog (A : Type) : Type :=
| Ret (a : A)
| Throw (e : thrown)
| Call (R : Type) (c : cmd R) (k : thrown + R -> prog A).

Arguments Ret {A} a.
Arguments Throw {A} e.
Arguments Call {A R} c k.

Fixpoint bind {A B} (p : prog A) (f : A -> prog B) : prog B :=
  match p with
  | Ret a => f a
  | Throw e => Throw e
  | Call c k => Call c (fun r => bind (k r) f)
  end.

(** [try { p } catch (error) { h error }] *)
Fixpoint try_catch {A} (p : prog A) (h : thrown -> prog A) : prog A :=
  match p with
  | Ret a => Ret a
  | Throw e => h e
  | Call c k => Call c (fun r => try_catch (k r) h)
  end.

(** [await] of a promise that wraps one library call: a rejection throws. *)
Definition await {R} (c : cmd R) : prog R :=
  Call c (fun r => match r with inl e => Throw e | inr v => Ret v end).

(** [await new Promise((resolve, reject) => call(..., (err) => { if (err)
    reject(err); else resolve(); }))] around a call whose callback receives
    its error: a throw inside the executor and an [err] both reject. *)
Definition awaitCallback (c : cmd (option thrown)) : prog unit :=
  Call c (fun r =>
    match r with
    | inl e => Throw e
    | inr (Some err) => Throw err
    | inr None => Ret tt
    end).

Declare Scope prog_scope.
Delimit Scope prog_scope with prog.
Bind Scope prog_scope with prog.

Notation "'let*' x := p 'in' q" := (bind p (fun x => q))
  (at level 10, x name, p at level 100, q at level 200, only parsing) : prog_scope.
Notation "p ;; q" := (bind p (fun _ => q))
  (at level 100, q at level 200, right associativity, only parsing) : prog_scope.

(** [for (const x of xs) { await body x }] *)
Fixpoint for_of {A} (xs : list A) (body : A -> prog unit) : prog unit :=
  match xs with
  | [] => Ret tt
  | x :: xs' => bind (body x) (fun _ => for_of xs' body)
  end.

(** [await Promise.all(xs.map(async x => body x))], the bodies taken one
    after the other: the result is the list of their values, or the first
    rejection. *)
Fixpoint all_map {A B} (xs : list A) (body : A -> prog B) : prog (list B) :=
  match xs with
  | [] => Ret []
  | x :: xs' =>
      bind (body x) (fun y => bind (all_map xs' body) (fun ys => Ret (y :: ys)))
  end.

(** ** The driver's configuration and result types *)

(** [ManagerConfig['auth']] of [./types], as the route and the test build it. *)
Record Auth := mkAuth {
  userId : string;
  accessToken : string;
  refreshToken : string;
  email : string
}.

Record ManagerConfig := mkManagerConfig {
  auth : Auth
}.

(** The options the constructor passes to [new ImapClient]. *)
Record ImapClientOptions := mkImapClientOptions {
  imap_user : string;
  imap_password : string;
  imap_host : string;
  imap_port : Z;
  imap_tls : bool;
  imap_rejectUnauthorized : bool;
  imap_authTimeout : option Z
}.

(** The options the constructor passes to [nodemailer.createTransport]. *)
Record SmtpTransportOptions := mkSmtpTransportOptions {
  smtp_host : string;
  smtp_port : Z;
  smtp_secure : bool;
  smtp_user : string;
  smtp_pass : string
}.

Record Label := mkLabel {
  label_id : string;
  label_name : string;
  label_type : string
}.

Record Sender := mkSender {
  sender_name : string;
  sender_email : string
}.

Module AppAttachment.
Record t := mk {
  filename : option string;
  mimeType : option string;
  size : Z;
  attachmentId : option string;
  headers : list (string * string);
  body : string
}.
End AppAttachment.

(** [ParsedMessage] of [../../types], with the fields [convertToAppMessage]
    fills. *)
Module ParsedMessage.
Record t := mk {
  id : string;
  threadId : string;
  title : string;
  body : string;
  decodedBody : string;
  processedHtml : string;
  blobUrl : string;
  messageId : string;
  tls : bool;
  references : string;
  inReplyTo : string;
  sender : Sender;
  unread : bool;
  to : list Sender;
  cc : option (list Sender);
  receivedOn : string;
  subject : string;
  attachments : list AppAttachment.t;
  totalReplies : Z;
  tags : list Label
}.
End ParsedMessage.

Module IGetThreadResponse.
Record t := mk {
  messages : list ParsedMessage.t;
  latest : ParsedMessage.t;
  hasUnread : bool;
  totalReplies : Z;
  labels : list Label
}.
End IGetThreadResponse.

(** An element of the array [fetchMessages] resolves to. *)
Record FetchedMessage := mkFetchedMessage {
  uid : Z;
  raw : string
}.

Record Thread := mkThread {
  thread_id : string;
  thread_raw : ParsedMail.t
}.

Record ListResult := mkListResult {
  threads : list Thread;
  nextPageToken : option string
}.

(** [pageToken?: string | number] *)
Inductive PageToken :=
| TokenString (s : string)
| TokenNumber (n : Z).

Module ListParams.
Record t := mk {
  folder : string;
  query : option string;
  maxResults : option Z;
  labelIds : option (list string);
  pageToken : option PageToken
}.
End ListParams.

Module ListDraftsParams.
Record t := mk {
  q : option string;
  maxResults : option Z;
  pageToken : option string
}.
End ListDraftsParams.

Module ParsedDraft.
Record t := mk {
  id : string;
  to : list (option string);
  subject : string;
  content : string;
  rawMessage : ParsedMail.t
}.
End ParsedDraft.

Record CreateDraftResult := mkCreateDraftResult {
  draft_id : string;
  draft_success : bool
}.

Record FolderCount := mkFolderCount {
  count_label : string;
  count_count : Z
}.

Record Tokens := mkTokens {
  access_token : string;
  refresh_token : string;
  expiry_date : Z
}.

Record UserInfo := mkUserInfo {
  info_address : string;
  info_name : string;
  info_photo : string
}.

Record EmailAlias := mkEmailAlias {
  alias_email : string;
  alias_primary : bool
}.

Record ModifyLabelsOptions := mkModifyLabelsOptions {
  addLabels : list string;
  removeLabels : list string
}.

(** ** The route that creates the connection
    ([trpc/routes/connections/imap.ts]) *)

Module Route.

(** An input accepted by [imapLoginSchema]. *)
Record imapLogin := mkImapLogin {
  email : string;
  password : string;
  imapServer : option string;
  smtpServer : option string;
  imapPort : option Z;
  smtpPort : option Z
}.

(** [x || d] on an optional port: [0] and [undefined] are falsy. *)
Definition port_or (x : option Z) (d : Z) : Z :=
  match x with
  | Some p => if p =? 0 then d else p
  | None => d
  end.

(** [`${service}.${input.email.split('@')[1]}`] *)
Definition default_server (service : string) (email : string) : string :=
  service +:+ "." +:+
  match JS.split "@" email !! 1%nat with
  | Some d => d
  | None => "undefined"
  end.

(** The options of the client the route tests the credentials with. *)
Definition testClientOptions (input : imapLogin) : ImapClientOptions :=
  {| imap_user := email input;
     imap_password := password input;
     imap_host := JS.or_else (imapServer input) (default_server "imap" (email input));
     imap_port := port_or (imapPort input) 993;
     imap_tls := true;
     imap_rejectUnauthorized := false;
     imap_authTimeout := None |}.

(** The server columns of the row the route inserts into
    [mail0_imap_connection]. *)
Record storedServers := mkStoredServers {
  row_imapServer : string;
  row_smtpServer : string;
  row_imapPort : Z;
  row_smtpPort : Z
}.

Definition insertedRow (input : imapLogin) : storedServers :=
  {| row_imapServer := JS.or_else (imapServer input) (default_server "imap" (email input));
     row_smtpServer := JS.or_else (smtpServer input) (default_server "smtp" (email input));
     row_imapPort := port_or (imapPort input) 993;
     row_smtpPort := port_or (smtpPort input) 465 |}.

(** The configuration the route hands to [createDriver('imap', ...)]. *)
Definition driverConfig (user_id : string) (input : imapLogin) : ManagerConfig :=
  mkManagerConfig (mkAuth user_id (password input) "" (email input)).

End Route.

(** ** The driver ([class ImapMailManager]) *)

Module ImapMailManager.

Section Driver.

(** [this.config] *)
Variable config : ManagerConfig.

(** [FatalErrors] and [sanitizeContext] of [./utils]; the sources do not
    contain that module, the test mocks it. *)
Variable FatalErrors : list string.
Variable sanitizeContext : Context -> Context.

(** [new Date().toString()] at the time of the call. *)
Variable now : string.

Local Open Scope prog_scope.

(** [email.split('@')[1].toLowerCase()] *)
Definition domainOf (email : string) : thrown + string :=
  match JS.split "@" email !! 1%nat with
  | Some d => inr (JS.toLowerCase d)
  | None => inl (TypeError "Cannot read properties of undefined (reading 'toLowerCase')")
  end.

Definition imapHostOfDomain (domain : string) : string :=
  if String.eqb domain "gmail.com" then "imap.gmail.com"
  else if String.eqb domain "outlook.com" || String.eqb domain "hotmail.com"
          || String.eqb domain "live.com" then "outlook.office365.com"
  else if String.eqb domain "yahoo.com" then "imap.mail.yahoo.com"
  else if String.eqb domain "aol.com" then "imap.aol.com"
  else if String.eqb domain "icloud.com" then "imap.mail.me.com"
  else "imap." +:+ domain.

Definition smtpHostOfDomain (domain : string) : string :=
  if String.eqb domain "gmail.com" then "smtp.gmail.com"
  else if String.eqb domain "outlook.com" || String.eqb domain "hotmail.com"
          || String.eqb domain "live.com" then "smtp.office365.com"
  else if String.eqb domain "yahoo.com" then "smtp.mail.yahoo.com"
  else if String.eqb domain "aol.com" then "smtp.aol.com"
  else if String.eqb domain "icloud.com" then "smtp.mail.me.com"
  else "smtp." +:+ domain.

Definition getImapHost (email : string) : thrown + string :=
  match domainOf email with
  | inr domain => inr (imapHostOfDomain domain)
  | inl e => inl e
  end.

Definition getSmtpHost (email : string) : thrown + string :=
  match domainOf email with
  | inr domain => inr (smtpHostOfDomain domain)
  | inl e => inl e
  end.

(** The constructor: the options of the two clients it creates, or the
    error thrown while it computes them. *)
Definition constructor : thrown + (ImapClientOptions * SmtpTransportOptions) :=
  match getImapHost (email (auth config)) with
  | inl e => inl e
  | inr ihost =>
      match getSmtpHost (email (auth config)) with
      | inl e => inl e
      | inr shost =>
          inr ({| imap_user := email (auth config);
                  imap_password := accessToken (auth config);
                  imap_host := ihost;
                  imap_port := 993;
                  imap_tls := true;
                  imap_rejectUnauthorized := false;
                  imap_authTimeout := Some 30000 |},
               {| smtp_host := shost;
                  smtp_port := 465;
                  smtp_secure := true;
                  smtp_user := email (auth config);
                  smtp_pass := accessToken (auth config) |})
      end
  end.

Definition getScope : string := "imap smtp".

(** [`${x}`] for a possibly [undefined] string. *)
Definition interpolate (x : option string) : string :=
  match x with
  | Some s => s
  | None => "undefined"
  end.

Definition code_is (e : RawError) (c : string) : bool :=
  match code e with
  | Some v => String.eqb v c
  | None => false
  end.

(** [error.message?.includes(t)], as a condition *)
Definition message_includes (e : RawError) (t : string) : bool :=
  match message e with
  | Some m => JS.includes m t
  | None => false
  end.

(** [error.code?.startsWith(p)], as a condition *)
Definition code_startsWith (e : RawError) (p : string) : bool :=
  match code e with
  | Some v => JS.startsWith v p
  | None => false
  end.

(** The [catch] block of [withErrorHandler]. *)
Definition handleError {T} (operation : string) (ctx : list (string * string))
    (caught : thrown) : prog T :=
  let error := view caught in
  let context := sanitizeContext {| entries := ctx; error := error |} in
  (* Connection errors *)
  if code_is error "ECONNREFUSED" || code_is error "ETIMEDOUT"
     || code_is error "ENOTFOUND" then
    Throw (Std {| std_code := "CONNECTION_REFUSED";
                  status := 503;
                  operation := operation;
                  std_message := "Connection to IMAP server failed: "
                                 +:+ interpolate (message error);
                  context := context;
                  fatal := true |})
  (* Authentication errors *)
  else if code_is error "AUTHENTICATIONFAILED" || code_is error "INVALIDCREDENTIALS" then
    let err := Std {| std_code := "AUTHENTICATION_ERROR";
                      status := 401;
                      operation := operation;
                      std_message := "IMAP authentication failed. Please check your credentials.";
                      context := context;
                      fatal := true |} in
    (* Delete the connection since credentials are invalid *)
    (if JS.truthy (Some (userId (auth config)))
     then await (DeleteActiveConnection (userId (auth config)))
     else Ret tt) ;;
    Throw err
  (* TLS/SSL errors *)
  else if code_is error "ETLSNOTCAPABLE" || code_is error "ESSLNOTCAPABLE" then
    Throw (Std {| std_code := "TLS_ERROR";
                  status := 502;
                  operation := operation;
                  std_message := "The IMAP server does not support secure connections.";
                  context := context;
                  fatal := false |})
  (* Quota errors *)
  else if message_includes error "quota" || message_includes error "storage" then
    Throw (Std {| std_code := "QUOTA_ERROR";
                  status := 507;
                  operation := operation;
                  std_message := "Email storage quota exceeded.";
                  context := context;
                  fatal := false |})
  (* SMTP specific errors *)
  else if code_startsWith error "SMTP" then
    Throw (Std {| std_code := "SMTP_ERROR";
                  status := 502;
                  operation := operation;
                  std_message := "Email sending failed: " +:+ interpolate (message error);
                  context := context;
                  fatal := false |})
  (* Server capability errors *)
  else if message_includes error "not supported" || message_includes error "capability" then
    Throw (Std {| std_code := "CAPABILITY_ERROR";
                  status := 501;
                  operation := operation;
                  std_message := "The IMAP server doesn't support required features: "
                                 +:+ interpolate (message error);
                  context := context;
                  fatal := false |})
  (* Generic error handling for all other cases *)
  else
    Throw (Std {| std_code := "UNKNOWN_IMAP_ERROR";
                  status := 500;
                  operation := operation;
                  std_message := "IMAP operation " +:+ operation +:+ " failed: "
                                 +:+ JS.or_else (message error) (rendering error);
                  context := context;
                  fatal := JS.arr_includes FatalErrors (code error)
                           || JS.arr_includes FatalErrors (response_status error) |}).

(** [withErrorHandler(operation, fn, context)]; no caller passes a context. *)
Definition withErrorHandler {T} (operation : string) (fn : prog T) : prog T :=
  try_catch fn (handleError operation []).

Definition connectImap : prog unit := await ImapConnect.

Definition openMailbox (mailbox : string) : prog unit :=
  await (ImapOpenBox mailbox false).

Definition searchEmails (criteria : list Criterion) : prog (list Z) :=
  await (ImapSearch criteria).

(** The ['message'] handler: [uid: seqno], [raw] the chunks appended. *)
Definition collect (ev : FetchEvent) : FetchedMessage :=
  {| uid := seqno ev; raw := fold_left String.append (chunks ev) "" |}.

Definition fetchMessages (uids : list JS.num) (options : FetchOptions)
  : prog (list FetchedMessage) :=
  match uids with
  | [] => Ret []
  | _ => let* events := await (ImapFetch uids options) in Ret (map collect events)
  end.

Definition parseEmail (rawEmail : string) : prog ParsedMail.t :=
  try_catch (await (SimpleParser rawEmail)) (fun error => Throw error).

Definition toSender (addr : Address) : Sender :=
  {| sender_name := JS.or_else (addr_name addr) "";
     sender_email := JS.or_else (addr_address addr) "" |}.

Definition bodyOf (email : ParsedMail.t) : string :=
  JS.or_else (ParsedMail.html email)
    (JS.or_else (ParsedMail.textAsHtml email)
       (JS.or_else (ParsedMail.text email) "")).

Definition convertAttachment (att : Attachment.t) : AppAttachment.t :=
  {| AppAttachment.filename := Attachment.filename att;
     AppAttachment.mimeType := Attachment.contentType att;
     AppAttachment.size := Attachment.size att;
     AppAttachment.attachmentId :=
       JS.or_opt (Attachment.contentId att) (Attachment.filename att);
     AppAttachment.headers := [];
     AppAttachment.body := Attachment.content_base64 att |}.

(** [!email.flags || !email.flags.includes('\\Seen')] *)
Definition unreadOf (flags : option (list string)) : bool :=
  match flags with
  | None => true
  | Some fl => negb (JS.arr_includes fl (Some "\Seen"))
  end.

Definition convertToAppMessage (email : ParsedMail.t) (id mailbox : string)
  : ParsedMessage.t :=
  let sender :=
    match ParsedMail.from email with
    | Some value =>
        {| sender_name := JS.or_else (from_option addr_name None (value !! 0%nat)) "";
           sender_email := JS.or_else (from_option addr_address None (value !! 0%nat)) "" |}
    | None => {| sender_name := ""; sender_email := "" |}
    end in
  let toRecipients :=
    match ParsedMail.to email with
    | Some value => map toSender value
    | None => []
    end in
  let ccRecipients :=
    match ParsedMail.cc email with
    | Some value => Some (map toSender value)
    | None => None
    end in
  let messageId := JS.or_else (ParsedMail.messageId email) id in
  let threadId := JS.or_else (ParsedMail.messageId email) id in
  {| ParsedMessage.id := id;
     ParsedMessage.threadId := threadId;
     ParsedMessage.title := JS.or_else (ParsedMail.subject email) "(no subject)";
     ParsedMessage.body := "";
     ParsedMessage.decodedBody := bodyOf email;
     ParsedMessage.processedHtml := bodyOf email;
     ParsedMessage.blobUrl := "";
     ParsedMessage.messageId := messageId;
     ParsedMessage.tls := true;
     ParsedMessage.references := JS.or_else (ParsedMail.references email) "";
     ParsedMessage.inReplyTo := JS.or_else (ParsedMail.inReplyTo email) "";
     ParsedMessage.sender := sender;
     ParsedMessage.unread := unreadOf (ParsedMail.flags email);
     ParsedMessage.to := toRecipients;
     ParsedMessage.cc := ccRecipients;
     ParsedMessage.receivedOn := JS.or_else (ParsedMail.date email) now;
     ParsedMessage.subject := JS.or_else (ParsedMail.subject email) "(no subject)";
     ParsedMessage.attachments :=
       map convertAttachment (default [] (ParsedMail.attachments email));
     ParsedMessage.totalReplies := 1;
     ParsedMessage.tags :=
       [ {| label_id := mailbox; label_name := mailbox; label_type := "folder" |} ] |}.

(** The two ways the operations split an id of the form [mailbox:uid]:
    [parts[0] || 'INBOX'] in [get] and [delete], [parts[0]] elsewhere. *)
Definition uidOf (id : string) : JS.num :=
  JS.parseInt (JS.split ":" id !! 1%nat).

Definition mailboxOrInbox (id : string) : string :=
  JS.or_else (JS.split ":" id !! 0%nat) "INBOX".

Definition mailboxOf (id : string) : string :=
  default "" (JS.split ":" id !! 0%nat).

Definition get (id : string) : prog IGetThreadResponse.t :=
  withErrorHandler "get" (
    connectImap ;;
    let mailbox := mailboxOrInbox id in
    let uid := uidOf id in
    openMailbox mailbox ;;
    let* messages :=
      fetchMessages [uid] {| bodies := ""; struct := true; markSeen := true |} in
    match messages with
    | [] => Throw (Error "Message not found")
    | first :: _ =>
        let* parsedEmail := parseEmail (raw first) in
        let parsedMessage := convertToAppMessage parsedEmail id mailbox in
        let hasUnread := ParsedMessage.unread parsedMessage in
        Ret {| IGetThreadResponse.messages := [parsedMessage];
               IGetThreadResponse.latest := parsedMessage;
               IGetThreadResponse.hasUnread := hasUnread;
               IGetThreadResponse.totalReplies := 1;
               IGetThreadResponse.labels := [] |}
    end).

Definition normalizeMailbox (folder : string) : string :=
  let f := JS.toLowerCase folder in
  if String.eqb f "inbox" then "INBOX"
  else if String.eqb f "sent" then "Sent"
  else if String.eqb f "drafts" then "Drafts"
  else if String.eqb f "bin" || String.eqb f "trash" then "Trash"
  else if String.eqb f "spam" then "Spam"
  else if String.eqb f "archive" then "Archive"
  else folder.

Definition showRecipient (recipient : Recipient) : string :=
  if JS.truthy (rcpt_name recipient)
  then interpolate (rcpt_name recipient) +:+ " <" +:+ rcpt_email recipient +:+ ">"
  else rcpt_email recipient.

Definition toMailAttachment (file : File.t) : MailAttachment.t :=
  {| MailAttachment.filename := File.name file;
     MailAttachment.content := File.bytes file;
     MailAttachment.contentType :=
       JS.or_else (Some (File.type file)) "application/octet-stream" |}.

(** The loop over [Object.entries(data.headers)]: entries with a truthy
    value are kept. *)
Definition keepHeaders (hs : list (string * option string)) : list (string * string) :=
  omap (fun kv => if JS.truthy (snd kv) then Some (fst kv, interpolate (snd kv)) else None) hs.

Definition prepareEmail (data : IOutgoingMessage.t) : prog SendMailOptions.t :=
  let* messageContent := await (SanitizeTipTapHtml (IOutgoingMessage.message data)) in
  let toRecipients := map showRecipient (IOutgoingMessage.to data) in
  let ccRecipients := option_map (map showRecipient) (IOutgoingMessage.cc data) in
  let bccRecipients := option_map (map showRecipient) (IOutgoingMessage.bcc data) in
  let attachments :=
    map toMailAttachment (default [] (IOutgoingMessage.attachments data)) in
  Ret {| SendMailOptions.from :=
           JS.or_else (IOutgoingMessage.fromEmail data) (email (auth config));
         SendMailOptions.to := toRecipients;
         SendMailOptions.cc := ccRecipients;
         SendMailOptions.bcc := bccRecipients;
         SendMailOptions.subject := IOutgoingMessage.subject data;
         SendMailOptions.html := messageContent;
         SendMailOptions.attachments := attachments;
         SendMailOptions.headers :=
           match IOutgoingMessage.headers data with
           | Some (h :: hs) => Some (keepHeaders (h :: hs))
           | _ => None
           end;
         SendMailOptions.envelope := None |}.

(** [{ ...message, envelope: { from: message.from, to: message.to } }] *)
Definition withEnvelope (message : SendMailOptions.t) : SendMailOptions.t :=
  {| SendMailOptions.from := SendMailOptions.from message;
     SendMailOptions.to := SendMailOptions.to message;
     SendMailOptions.cc := SendMailOptions.cc message;
     SendMailOptions.bcc := SendMailOptions.bcc message;
     SendMailOptions.subject := SendMailOptions.subject message;
     SendMailOptions.html := SendMailOptions.html message;
     SendMailOptions.attachments := SendMailOptions.attachments message;
     SendMailOptions.headers := SendMailOptions.headers message;
     SendMailOptions.envelope :=
       Some {| SendMailOptions.env_from := SendMailOptions.from message;
               SendMailOptions.env_to := SendMailOptions.to message |} |}.

Definition saveSentEmail (message : SendMailOptions.t) : prog unit :=
  try_catch (
    connectImap ;;
    openMailbox "Sent" ;;
    (* Convert the message to MIME format *)
    let* raw := await (SmtpSendMail (withEnvelope message)) in
    (* only a log line follows *)
    Ret tt)
  (fun error => Ret tt).

Definition create (data : IOutgoingMessage.t) : prog (option string) :=
  withErrorHandler "create" (
    let* emailContent := prepareEmail data in
    let* result := await (SmtpSendMail emailContent) in
    saveSentEmail emailContent ;;
    Ret (sent_messageId result)).

(** [delete]: [imap.move] is called inside the executor of the returned
    promise, so what it throws rejects the promise at once; the fallback
    sits in the move's callback and runs on its [err].  The fallback is
    called with the UID list the move has just accepted; [err2] is what its
    callback receives. *)
Definition delete (id : string) : prog unit :=
  withErrorHandler "delete" (
    connectImap ;;
    let mailbox := mailboxOrInbox id in
    let uid := uidOf id in
    openMailbox mailbox ;;
    (* Move to Trash or mark as deleted *)
    Call (ImapMove [uid] "Trash") (fun moved =>
      match moved with
      | inl e =>
          (* thrown inside the executor of the promise: it rejects, and the
             callback with the fallback never runs *)
          Throw e
      | inr (Some err) =>
          (* If move fails, try to add delete flag *)
          Call (ImapAddFlags [uid] "\Deleted") (fun err2 =>
            match err2 with
            | inl e2 => Throw e2
            | inr _ => Ret tt
            end)
      | inr None => Ret tt
      end)).

Definition normalizeIds (ids : list string) : list string := ids.

Definition modifyLabels (messageIds : list string) (options : ModifyLabelsOptions)
  : prog unit :=
  withErrorHandler "modifyLabels" (
    connectImap ;;
    for_of messageIds (fun id =>
      let currentMailbox := mailboxOf id in
      let uid := uidOf id in
      match addLabels options with
      | targetFolder :: _ =>
          openMailbox currentMailbox ;;
          awaitCallback (ImapMove [uid] targetFolder)
      | [] => Ret tt
      end)).

Definition markAsRead (threadIds : list string) : prog unit :=
  withErrorHandler "markAsRead" (
    connectImap ;;
    for_of threadIds (fun id =>
      let mailbox := mailboxOf id in
      let uid := uidOf id in
      openMailbox mailbox ;;
      await (ImapAddFlags [uid] "\Seen"))).

Definition markAsUnread (threadIds : list string) : prog unit :=
  withErrorHandler "markAsUnread" (
    connectImap ;;
    for_of threadIds (fun id =>
      let mailbox := mailboxOf id in
      let uid := uidOf id in
      openMailbox mailbox ;;
      await (ImapDelFlags [uid] "\Seen"))).

Definition createDraft (data : CreateDraftData.t) : prog CreateDraftResult :=
  withErrorHandler "createDraft" (
    connectImap ;;
    let* messageContent :=
      await (SanitizeTipTapHtml (JS.or_else (CreateDraftData.message data) "")) in
    (* the draft object is assembled and never sent anywhere *)
    let draft :=
      (email (auth config), CreateDraftData.to data, CreateDraftData.cc data,
       CreateDraftData.bcc data, CreateDraftData.subject data, messageContent,
       match CreateDraftData.attachments data with
       | Some (file :: files) =>
           Some (map (fun file => {| MailAttachment.filename := File.name file;
                                     MailAttachment.content := File.bytes file;
                                     MailAttachment.contentType := File.type file |})
                     (file :: files))
       | _ => None
       end) in
    openMailbox "Drafts" ;;
    let* millis := await DateNow in
    let* suffix := await MathRandom in
    let draftId := "draft-" +:+ JS.string_of_Z millis +:+ "-" +:+ suffix in
    Ret {| draft_id := draftId; draft_success := true |}).

Definition getDraft (id : string) : prog ParsedDraft.t :=
  withErrorHandler "getDraft" (
    connectImap ;;
    openMailbox "Drafts" ;;
    let uid := uidOf id in
    let* messages :=
      fetchMessages [uid] {| bodies := ""; struct := true; markSeen := false |} in
    match messages with
    | [] => Throw (Error "Draft not found")
    | first :: _ =>
        let* parsedEmail := parseEmail (raw first) in
        Ret {| ParsedDraft.id := id;
               ParsedDraft.to :=
                 map addr_address (default [] (ParsedMail.to parsedEmail));
               ParsedDraft.subject := JS.or_else (ParsedMail.subject parsedEmail) "";
               ParsedDraft.content := bodyOf parsedEmail;
               ParsedDraft.rawMessage := parsedEmail |}
    end).

Definition listDrafts (params : ListDraftsParams.t) : prog ListResult :=
  let q := ListDraftsParams.q params in
  let maxResults := default 100 (ListDraftsParams.maxResults params) in
  let pageToken := ListDraftsParams.pageToken params in
  withErrorHandler "listDrafts" (
    connectImap ;;
    openMailbox "Drafts" ;;
    let criteria := ALL :: (if JS.truthy q then [SUBJECT (interpolate q)] else []) in
    (* Parse page token *)
    let startUid : JS.num :=
      if JS.truthy pageToken then JS.parseInt pageToken else Some 1 in
    let* uids := searchEmails criteria in
    let sortedUids := JS.sort_desc uids in
    let paginatedUids := JS.slice0 sortedUids maxResults in
    let* messages :=
      fetchMessages (map Some paginatedUids)
        {| bodies := "HEADER"; struct := true; markSeen := false |} in
    let* drafts :=
      all_map messages (fun message =>
        let* parsed := parseEmail (raw message) in
        Ret {| thread_id := "Drafts:" +:+ JS.string_of_Z (uid message);
               thread_raw := parsed |}) in
    let nextPageToken :=
      if Z.of_nat (length sortedUids) >? maxResults
      then let lastUid := JS.sub (JS.last_elem paginatedUids) (Some 1) in
           Some (JS.toString lastUid)
      else None in
    Ret {| threads := drafts; nextPageToken := nextPageToken |}).

Definition sendDraft (id : string) (data : IOutgoingMessage.t) : prog unit :=
  withErrorHandler "sendDraft" (
    let* emailContent := prepareEmail data in
    await (SmtpSendMail emailContent) ;;
    delete id).

Definition countedFolders : list string :=
  ["INBOX"; "Sent"; "Drafts"; "Trash"; "Spam"; "Archive"].

(** The six closures of [count] all run against the one connection; they
    are taken here one after the other, each reading [imap._box] right
    after its own [openBox] settles. *)
Definition count : prog (list FolderCount) :=
  withErrorHandler "count" (
    connectImap ;;
    all_map countedFolders (fun folder =>
      try_catch (
        openMailbox folder ;;
        Call ImapBox (fun box =>
          match box with
          | inr (Some total) => Ret {| count_label := folder; count_count := total |}
          | _ => Ret {| count_label := folder; count_count := 0 |}
          end))
      (fun error => Ret {| count_label := folder; count_count := 0 |}))).

Definition getTokens (code : string) : prog Tokens :=
  let* millis := await DateNow in
  Ret {| access_token := "imap-direct-access";
         refresh_token := "imap-no-refresh-token";
         expiry_date := millis + 365 * 24 * 60 * 60 * 1000 |}.

Definition getUserInfo (tokens : option Auth) : prog UserInfo :=
  Ret {| info_address := JS.or_else (option_map email tokens) (email (auth config));
         info_name := "";
         info_photo := "" |}.

Definition matchesAttachment (attachmentId : string) (att : Attachment.t) : bool :=
  match Attachment.contentId att with
  | Some c => String.eqb c attachmentId
  | None => false
  end
  || match Attachment.filename att with
     | Some f => String.eqb f attachmentId
     | None => false
     end.

Definition getAttachment (messageId attachmentId : string) : prog (option string) :=
  withErrorHandler "getAttachment" (
    let mailbox := mailboxOf messageId in
    let uid := uidOf messageId in
    connectImap ;;
    openMailbox mailbox ;;
    let* messages :=
      fetchMessages [uid] {| bodies := ""; struct := true; markSeen := false |} in
    match messages with
    | [] => Throw (Error "Message not found")
    | first :: _ =>
        let* parsedEmail := parseEmail (raw first) in
        match ParsedMail.attachments parsedEmail with
        | None => Throw (TypeError "Cannot read properties of undefined (reading 'find')")
        | Some atts =>
            Ret (option_map Attachment.content_base64
                   (find (matchesAttachment attachmentId) atts))
        end
    end).

(** [extractBoxes(prefix, boxObj)], one entry of [boxObj] at a time. *)
Fixpoint extractBox (prefix : string) (box : Box) : list string :=
  match box with
  | MkBox name children =>
      let fullName := if JS.truthy (Some prefix) then prefix +:+ name else name in
      fullName ::
      match children with
      | Some cs => List.flat_map (extractBox (fullName +:+ "/")) cs
      | None => []
      end
  end.

Definition extractBoxes (prefix : string) (boxObj : list Box) : list string :=
  List.flat_map (extractBox prefix) boxObj.

Definition folderLabel (name : string) : Label :=
  {| label_id := name; label_name := name; label_type := "folder" |}.

Definition getUserLabels : prog (list Label) :=
  withErrorHandler "getUserLabels" (
    connectImap ;;
    let* mailboxes :=
      Call ImapGetBoxes (fun r =>
        match r with
        | inl err => Throw err
        | inr boxes => Ret (extractBoxes "" boxes)
        end) in
    Ret (map folderLabel mailboxes)).

Definition getLabel (id : string) : prog Label := Ret (folderLabel id).

Definition createLabel (name : string) : prog unit :=
  withErrorHandler "createLabel" (
    connectImap ;;
    await (ImapAddBox name)).

Definition updateLabel (id : string) (name : string) : prog unit :=
  withErrorHandler "updateLabel" (
    connectImap ;;
    if String.eqb id name then Ret tt else await (ImapRenameBox id name)).

Definition deleteLabel (id : string) : prog unit :=
  withErrorHandler "deleteLabel" (
    connectImap ;;
    await (ImapDelBox id)).

Definition getEmailAliases : prog (list EmailAlias) :=
  Ret [ {| alias_email := email (auth config); alias_primary := true |} ].

Definition revokeRefreshToken (refreshToken : string) : prog bool := Ret true.

Definition list (params : ListParams.t) : prog ListResult :=
  let folder := ListParams.folder params in
  let q := ListParams.query params in
  let maxResults := default 100 (ListParams.maxResults params) in
  let pageToken := ListParams.pageToken params in
  withErrorHandler "list" (
    connectImap ;;
    let normalizedMailbox := normalizeMailbox folder in
    openMailbox normalizedMailbox ;;
    (* Parse the page token (format: "lastUID:maxResults") *)
    let startUid : JS.num :=
      match pageToken with
      | Some (TokenString (String c s)) =>
          JS.parseInt (JS.split ":" (String c s) !! 0%nat)
      | _ => Some 1
      end in
    (* Search criteria *)
    let criteria := ALL :: (if JS.truthy q then [SUBJECT (interpolate q)] else []) in
    (* Get message UIDs *)
    let* uids := searchEmails criteria in
    (* Sort UIDs in descending order (newest first) *)
    let sortedUids := JS.sort_desc uids in
    (* Paginate results *)
    let paginatedUids := JS.slice0 sortedUids maxResults in
    (* Fetch messages with basic header info *)
    let* messages :=
      fetchMessages (map Some paginatedUids)
        {| bodies := "HEADER"; struct := true; markSeen := false |} in
    (* Parse messages *)
    let* parsedMessages :=
      all_map messages (fun message =>
        let* parsed := parseEmail (raw message) in
        Ret {| thread_id := normalizedMailbox +:+ ":" +:+ JS.string_of_Z (uid message);
               thread_raw := parsed |}) in
    (* Determine next page token *)
    let nextPageToken :=
      if Z.of_nat (length sortedUids) >? maxResults
      then let lastUid := JS.sub (JS.last_elem paginatedUids) (Some 1) in
           Some (JS.toString lastUid +:+ ":" +:+ JS.string_of_Z maxResults)
      else None in
    Ret {| threads := parsedMessages; nextPageToken := nextPageToken |}).

End Driver.

End ImapMailManager.

(** ** Running a program

    A program runs against a world that answers the library calls.  The
    run records every call together with what it settled with. *)

Inductive event :=
| Event (R : Type) (c : cmd R) (r : thrown + R).

Arguments Event {R} c r.

Definition ok {R} (r : thrown + R) : bool :=
  match r with inr _ => true | inl _ => false end.

Definition ev_is_sendMail (e : event) : bool :=
  match e with Event (SmtpSendMail _) _ => true | _ => false end.

Definition ev_is_append (e : event) : bool :=
  match e with Event (ImapAppend _ _) _ => true | _ => false end.

Definition ev_is_delete_connection (e : event) : bool :=
  match e with Event (DeleteActiveConnection _) _ => true | _ => false end.

Definition ev_is_connect (success : bool) (e : event) : bool :=
  match e with Event ImapConnect r => Bool.eqb (ok r) success | _ => false end.

Definition ev_is_openBox (success : bool) (e : event) : bool :=
  match e with Event (ImapOpenBox _ _) r => Bool.eqb (ok r) success | _ => false end.

(** A move succeeds when its callback is called without an error. *)
Definition ev_is_move (success : bool) (e : event) : bool :=
  match e with
  | Event (ImapMove _ _) r =>
      Bool.eqb (match r with inr None => true | _ => false end) success
  | _ => false
  end.

Definition ev_is_addFlags (success : bool) (e : event) : bool :=
  match e with Event (ImapAddFlags _ _) r => Bool.eqb (ok r) success | _ => false end.

(** The message a command on the selected mailbox is aimed at. *)
Definition ev_uids (e : event) : option (list JS.num) :=
  match e with
  | Event (ImapFetch uids _) _ => Some uids
  | Event (ImapMove uids _) _ => Some uids
  | Event (ImapAddFlags uids _) _ => Some uids
  | Event (ImapDelFlags uids _) _ => Some uids
  | _ => None
  end.

Definition ev_opened (e : event) : option string :=
  match e with
  | Event (ImapOpenBox mailbox _) _ => Some mailbox
  | _ => None
  end.

(** Modelled from the spec: [deleteActiveConnection] of [./utils] and the
    store behind it are not in the sources.  The spec has it delete "the
    stored connection record via a collaborating store"; the store maps a
    user id to the account of its connection record, and the deletion
    removes the entry of the given user. *)
Definition deleteActiveConnection (userId : string) (store : gmap string string)
  : gmap string string :=
  base.delete userId store.

Record outcome (W A : Type) := mkOutcome {
  final : W * gmap string string;
  trace : list event;
  result : thrown + A
}.

Arguments mkOutcome {W A}.
Arguments final {W A}.
Arguments trace {W A}.
Arguments result {W A}.

Section Run.

Context {W : Type}.

(** How the world answers a library call. *)
Variable handle : forall R, cmd R -> W -> W * (thrown + R).

Definition step {R} (c : cmd R) (st : W * gmap string string)
  : (W * gmap string string) * (thrown + R) :=
  match c in cmd R0 return (W * gmap string string) * (thrown + R0) with
  | DeleteActiveConnection u => ((fst st, deleteActiveConnection u (snd st)), inr tt)
  | c' => let (w', r) := handle _ c' (fst st) in ((w', snd st), r)
  end.

Fixpoint run {A} (p : prog A) (st : W * gmap string string) : outcome W A :=
  match p with
  | Ret a => mkOutcome st [] (inr a)
  | Throw e => mkOutcome st [] (inl e)
  | Call c k =>
      let (st1, r) := step c st in
      let o := run (k r) st1 in
      mkOutcome (final o) (Event c r :: trace o) (result o)
  end.

(** A caller that pages through a folder: it calls [list], and calls it
    again with the [nextPageToken] it got back for as long as there is one,
    at most [calls] times.  The pages are returned in order. *)
Fixpoint followPages (listFn : ListParams.t -> prog ListResult) (calls : nat)
    (params : ListParams.t) (st : W * gmap string string) : list ListResult :=
  match calls with
  | O => []
  | S n =>
      let o := run (listFn params) st in
      match result o with
      | inl _ => []
      | inr page =>
          page ::
          match nextPageToken page with
          | None => []
          | Some token =>
              followPages listFn n
                {| ListParams.folder := ListParams.folder params;
                   ListParams.query := ListParams.query params;
                   ListParams.maxResults := ListParams.maxResults params;
                   ListParams.labelIds := ListParams.labelIds params;
                   ListParams.pageToken := Some (TokenString token) |}
                (final o)
          end
      end
  end.

End Run.

(** Whether a program reaches the IMAP connection only after it has called
    [imap.connect()]: on every path, the first IMAP command, if there is
    one, is the connect. *)
Fixpoint connects_first {A} (p : prog A) : Prop :=
  match p with
  | Ret _ => True
  | Throw _ => True
  | Call c k =>
      if is_connect c then True
      else if is_imap c then False
      else forall r, connects_first (k r)
  end.

(** ** A mail server to run the driver against

    A small IMAP/SMTP world for the scenarios below: mailboxes hold their
    messages in sequence order (the sequence number of a message is its
    position, counted from 1), UIDs are whatever the server assigned.  The
    client side follows the [imap] library: [connect()] starts a fresh
    connection and forgets the selected box, [fetch], [move], [addFlags] and
    [delFlags] address messages by UID, and a fetch emits its ['message']
    events with sequence numbers.  A [move] without a selected mailbox or
    with a UID that is no integer throws before anything is sent; a move
    into a mailbox that does not exist is answered by the server, and the
    error reaches the callback. *)

Module MailServer.

Record Message := mkMessage {
  msg_uid : Z;
  msg_flags : list string;
  msg_subject : string;
  msg_raw : string
}.

Inductive ConnState := disconnected | connecting | ready | errored.

Record World := mkWorld {
  boxes : gmap string (list Message);
  refuses : bool;
  accepts_login : bool;
  state : ConnState;
  selected : option string;
  outbox : list SendMailOptions.t;
  clock : Z
}.

Definition set_session (w : World) (s : ConnState) (sel : option string) : World :=
  {| boxes := boxes w; refuses := refuses w; accepts_login := accepts_login w;
     state := s; selected := sel; outbox := outbox w; clock := clock w |}.

Definition set_boxes (w : World) (b : gmap string (list Message)) : World :=
  {| boxes := b; refuses := refuses w; accepts_login := accepts_login w;
     state := state w; selected := selected w; outbox := outbox w; clock := clock w |}.

Definition set_outbox (w : World) (o : list SendMailOptions.t) : World :=
  {| boxes := boxes w; refuses := refuses w; accepts_login := accepts_login w;
     state := state w; selected := selected w; outbox := o; clock := clock w |}.

Definition failure (c : option string) (msg : string) : thrown :=
  Raw {| code := c; message := Some msg; response_status := None;
         rendering := "Error: " +:+ msg |}.

(** The messages of the selected box, or the error of a command issued
    without one. *)
Definition current (w : World) : thrown + (string * list Message) :=
  match state w, selected w with
  | ready, Some mb =>
      match boxes w !! mb with
      | Some ms => inr (mb, ms)
      | None => inl (failure None "No mailbox is currently selected")
      end
  | ready, None => inl (failure None "No mailbox is currently selected")
  | _, _ => inl (failure None "Not authenticated")
  end.

Definition has_uid (uids : list JS.num) (m : Message) : bool :=
  existsb (fun u => match u with Some z => z =? msg_uid m | None => false end) uids.

Definition all_integers (uids : list JS.num) : bool :=
  forallb (fun u => match u with Some _ => true | None => false end) uids.

Definition matches (criteria : list Criterion) (m : Message) : bool :=
  forallb (fun c => match c with
                    | ALL => true
                    | SUBJECT q => JS.includes (msg_subject m) q
                    end) criteria.

(** The fetch events of the messages with one of the UIDs, in sequence
    order; [n] is the sequence number of the head of [ms]. *)
Fixpoint events_from (n : Z) (uids : list JS.num) (ms : list Message) : list FetchEvent :=
  match ms with
  | [] => []
  | m :: ms' =>
      (if has_uid uids m
       then [ {| seqno := n; chunks := [msg_raw m];
                 attrs_uid := msg_uid m; attrs_flags := msg_flags m |} ]
       else []) ++ events_from (n + 1) uids ms'
  end.

Definition add_flag (flag : string) (m : Message) : Message :=
  {| msg_uid := msg_uid m;
     msg_flags := if existsb (String.eqb flag) (msg_flags m)
                  then msg_flags m else msg_flags m ++ [flag];
     msg_subject := msg_subject m; msg_raw := msg_raw m |}.

Definition del_flag (flag : string) (m : Message) : Message :=
  {| msg_uid := msg_uid m;
     msg_flags := filter (fun f => f ≠ flag) (msg_flags m);
     msg_subject := msg_subject m; msg_raw := msg_raw m |}.

Definition on_uids (uids : list JS.num) (f : Message -> Message) (ms : list Message)
  : list Message :=
  map (fun m => if has_uid uids m then f m else m) ms.

Definition next_uid (ms : list Message) : Z :=
  1 + fold_right Z.max 0 (map msg_uid ms).

(** Append messages to a box, each under a fresh UID. *)
Fixpoint deliver (moved : list Message) (target : list Message) : list Message :=
  match moved with
  | [] => target
  | m :: moved' =>
      deliver moved'
        (target ++ [ {| msg_uid := next_uid target; msg_flags := msg_flags m;
                        msg_subject := msg_subject m; msg_raw := msg_raw m |} ])
  end.

(** What [simpleParser] makes of a raw message in the scenarios: the text as
    it is and nothing else; in particular no [flags], which are not part of
    a message's source. *)
Definition parsed (raw : string) : ParsedMail.t :=
  {| ParsedMail.from := None; ParsedMail.to := None; ParsedMail.cc := None;
     ParsedMail.messageId := None; ParsedMail.subject := None;
     ParsedMail.html := None; ParsedMail.textAsHtml := None;
     ParsedMail.text := Some raw; ParsedMail.references := None;
     ParsedMail.inReplyTo := None; ParsedMail.date := None;
     ParsedMail.flags := None; ParsedMail.attachments := Some [] |}.

Definition handle (R : Type) (c : cmd R) (w : World) : World * (thrown + R) :=
  match c in cmd R0 return World * (thrown + R0) with
  | ImapConnect =>
      if refuses w then
        (set_session w errored None, inl (failure (Some "ECONNREFUSED") "connect ECONNREFUSED"))
      else if accepts_login w then (set_session w ready None, inr tt)
      else (set_session w errored None,
            inl (failure (Some "AUTHENTICATIONFAILED") "Invalid credentials"))
  | ImapOpenBox mailbox _ =>
      match state w with
      | ready =>
          match boxes w !! mailbox with
          | Some _ => (set_session w ready (Some mailbox), inr tt)
          | None => (set_session w ready None, inl (failure None "Mailbox doesn't exist"))
          end
      | _ => (w, inl (failure None "Not authenticated"))
      end
  | ImapSearch criteria =>
      match current w with
      | inr (_, ms) => (w, inr (map msg_uid (List.filter (matches criteria) ms)))
      | inl e => (w, inl e)
      end
  | ImapFetch uids options =>
      match current w with
      | inr (mb, ms) =>
          if all_integers uids then
            (if markSeen options
             then set_boxes w (<[mb := on_uids uids (add_flag "\Seen") ms]> (boxes w))
             else w,
             inr (events_from 1 uids ms))
          else (w, inl (failure None "UID/seqno must be an integer"))
      | inl e => (w, inl e)
      end
  | ImapMove uids box =>
      match current w with
      | inr (mb, ms) =>
          if all_integers uids then
            match boxes w !! box with
            | Some target =>
                (set_boxes w
                   (<[mb := List.filter (fun m => negb (has_uid uids m)) ms]>
                      (<[box := deliver (List.filter (has_uid uids) ms) target]> (boxes w))),
                 inr None)
            | None => (w, inr (Some (failure None "[TRYCREATE] Mailbox doesn't exist")))
            end
          else (w, inl (failure None "UID/seqno must be an integer"))
      | inl e => (w, inl e)
      end
  | ImapAddFlags uids flag =>
      match current w with
      | inr (mb, ms) =>
          if all_integers uids
          then (set_boxes w (<[mb := on_uids uids (add_flag flag) ms]> (boxes w)), inr tt)
          else (w, inl (failure None "UID/seqno must be an integer"))
      | inl e => (w, inl e)
      end
  | ImapDelFlags uids flag =>
      match current w with
      | inr (mb, ms) =>
          if all_integers uids
          then (set_boxes w (<[mb := on_uids uids (del_flag flag) ms]> (boxes w)), inr tt)
          else (w, inl (failure None "UID/seqno must be an integer"))
      | inl e => (w, inl e)
      end
  | ImapAppend raw box =>
      match state w, boxes w !! box with
      | ready, Some target =>
          (set_boxes w
             (<[box := deliver [ {| msg_uid := 0; msg_flags := []; msg_subject := "";
                                    msg_raw := raw |} ] target]> (boxes w)),
           inr tt)
      | ready, None => (w, inl (failure None "[TRYCREATE] Mailbox doesn't exist"))
      | _, _ => (w, inl (failure None "Not authenticated"))
      end
  | ImapGetBoxes =>
      match state w with
      | ready => (w, inr (map (fun kv => MkBox (fst kv) None) (map_to_list (boxes w))))
      | _ => (w, inl (failure None "Not authenticated"))
      end
  | ImapAddBox name =>
      match state w, boxes w !! name with
      | ready, None => (set_boxes w (<[name := []]> (boxes w)), inr tt)
      | ready, Some _ => (w, inl (failure None "Mailbox already exists"))
      | _, _ => (w, inl (failure None "Not authenticated"))
      end
  | ImapRenameBox old new =>
      match state w, boxes w !! old with
      | ready, Some ms => (set_boxes w (<[new := ms]> (base.delete old (boxes w))), inr tt)
      | ready, None => (w, inl (failure None "Mailbox doesn't exist"))
      | _, _ => (w, inl (failure None "Not authenticated"))
      end
  | ImapDelBox name =>
      match state w, boxes w !! name with
      | ready, Some _ => (set_boxes w (base.delete name (boxes w)), inr tt)
      | ready, None => (w, inl (failure None "Mailbox doesn't exist"))
      | _, _ => (w, inl (failure None "Not authenticated"))
      end
  | ImapBox =>
      match current w with
      | inr (_, ms) => (w, inr (Some (Z.of_nat (length ms))))
      | inl _ => (w, inr None)
      end
  | SmtpSendMail mail =>
      (set_outbox w (outbox w ++ [mail]),
       inr {| sent_messageId :=
                Some ("<" +:+ JS.string_of_Z (Z.of_nat (length (outbox w))) +:+ "@smtp>") |})
  | SimpleParser raw => (w, inr (parsed raw))
  | SanitizeTipTapHtml html => (w, inr html)
  | DeleteActiveConnection _ => (w, inr tt)
  | DateNow => (w, inr (clock w))
  | MathRandom => (w, inr "k3x9q0zpa")
  end.

Definition plain (u : Z) : Message :=
  {| msg_uid := u; msg_flags := []; msg_subject := "hello";
     msg_raw := "Subject: hello" |}.

(** An account whose INBOX holds the messages with the given UIDs (in
    sequence order) next to empty Sent and Trash boxes; no connection yet. *)
Definition account (inbox : list Z) : World :=
  {| boxes := <["INBOX" := map plain inbox]> (<["Sent" := []]> (<["Trash" := []]> ∅));
     refuses := false; accepts_login := true;
     state := disconnected; selected := None; outbox := []; clock := 1700000000000 |}.

(** The same account behind a server that refuses the connection. *)
Definition unreachable (inbox : list Z) : World :=
  {| boxes := boxes (account inbox); refuses := true; accepts_login := true;
     state := disconnected; selected := None; outbox := []; clock := 1700000000000 |}.

(** The same account when the server rejects the password. *)
Definition locked_out (inbox : list Z) : World :=
  {| boxes := boxes (account inbox); refuses := false; accepts_login := false;
     state := disconnected; selected := None; outbox := []; clock := 1700000000000 |}.

(** An account with an INBOX only: no Sent, no Trash. *)
Definition bare (inbox : list Z) : World :=
  {| boxes := <["INBOX" := map plain inbox]> ∅;
     refuses := false; accepts_login := true;
     state := disconnected; selected := None; outbox := []; clock := 1700000000000 |}.

End MailServer.

(** ** Fixtures of the scenarios *)

(** The mock of [./utils] in [imap.test.ts]. *)
Definition testFatalErrors : list string := ["invalid_grant"; "invalid_credentials"].

Definition testSanitizeContext (ctx : Context) : Context := ctx.

(** [mockConfig] of [imap.test.ts]. *)
Definition mockConfig : ManagerConfig :=
  {| auth := {| userId := "test-user"; accessToken := "test-password";
                refreshToken := ""; email := "test@example.com" |} |}.

Definition testNow : string := "Mon Nov 02 2026 12:00:00 GMT+0000".

Definition listOf (folder : string) (maxResults : Z) (token : option string)
  : ListParams.t :=
  {| ListParams.folder := folder; ListParams.query := None;
     ListParams.maxResults := Some maxResults; ListParams.labelIds := None;
     ListParams.pageToken := option_map TokenString token |}.

Definition testList : ListParams.t -> prog ListResult :=
  ImapMailManager.list mockConfig testFatalErrors testSanitizeContext.

(** A configuration without a user id. *)
Definition anonymousConfig : ManagerConfig :=
  {| auth := {| userId := ""; accessToken := "test-password";
                refreshToken := ""; email := "test@example.com" |} |}.

(** The store with the connection record of the test user. *)
Definition testStore : gmap string string := {[ "test-user" := "test@example.com" ]}.

(** The session of [account] once a listing of the INBOX has gone through:
    connected, INBOX selected. *)
Definition inbox_open (inbox : list Z) : MailServer.World :=
  MailServer.set_session (MailServer.account inbox) MailServer.ready (Some "INBOX").

(** An account whose INBOX holds one message, with UID 1, which the server
    reports as seen. *)
Definition seenInbox : MailServer.World :=
  MailServer.set_boxes (MailServer.account [])
    (<["INBOX" := [ {| MailServer.msg_uid := 1; MailServer.msg_flags := ["\Seen"];
                       MailServer.msg_subject := "hello";
                       MailServer.msg_raw := "Subject: hello" |} ]]>
       (MailServer.boxes (MailServer.account []))).

(** The errors of the scenarios. *)
Definition connectionRefused : RawError :=
  {| code := Some "ECONNREFUSED"; message := Some "connect ECONNREFUSED";
     response_status := None; rendering := "Error: connect ECONNREFUSED" |}.

Definition authenticationFailed : RawError :=
  {| code := Some "AUTHENTICATIONFAILED"; message := Some "Invalid credentials";
     response_status := None; rendering := "Error: Invalid credentials" |}.

Definition quotaExceeded : RawError :=
  {| code := None; message := Some "Mailbox quota exceeded, message not stored";
     response_status := None;
     rendering := "Error: Mailbox quota exceeded, message not stored" |}.

Definition revokedGrant : RawError :=
  {| code := Some "EPIPE"; message := Some "socket closed";
     response_status := Some "invalid_grant"; rendering := "Error: socket closed" |}.

Definition brokenPipe : RawError :=
  {| code := Some "EPIPE"; message := Some "socket closed";
     response_status := None; rendering := "Error: socket closed" |}.

(** A login with explicit server settings, as the form's advanced section
    sends it. *)
Definition customLogin : Route.imapLogin :=
  {| Route.email := "user@gmail.com"; Route.password := "app-password";
     Route.imapServer := Some "mail.corp.example";
     Route.smtpServer := Some "relay.corp.example";
     Route.imapPort := Some 1143; Route.smtpPort := Some 2525 |}.

Definition helloMessage : IOutgoingMessage.t :=
  {| IOutgoingMessage.to := [ {| rcpt_name := Some "Ada"; rcpt_email := "ada@example.org" |} ];
     IOutgoingMessage.cc := None; IOutgoingMessage.bcc := None;
     IOutgoingMessage.subject := "hello"; IOutgoingMessage.message := "<p>hi</p>";
     IOutgoingMessage.attachments := None; IOutgoingMessage.headers := None;
     IOutgoingMessage.fromEmail := None |}.

Definition seenMail : ParsedMail.t :=
  {| ParsedMail.from := None; ParsedMail.to := None; ParsedMail.cc := None;
     ParsedMail.messageId := None; ParsedMail.subject := Some "hello";
     ParsedMail.html := None; ParsedMail.textAsHtml := None;
     ParsedMail.text := Some "hi"; ParsedMail.references := None;
     ParsedMail.inReplyTo := None; ParsedMail.date := None;
     ParsedMail.flags := Some ["\Answered"; "\Seen"]; ParsedMail.attachments := None |}.

Definition unseenMail : ParsedMail.t :=
  {| ParsedMail.from := None; ParsedMail.to := None; ParsedMail.cc := None;
     ParsedMail.messageId := None; ParsedMail.subject := Some "hello";
     ParsedMail.html := None; ParsedMail.textAsHtml := None;
     ParsedMail.text := Some "hi"; ParsedMail.references := None;
     ParsedMail.inReplyTo := None; ParsedMail.date := None;
     ParsedMail.flags := Some ["\Answered"]; ParsedMail.attachments := None |}.

(** ** Auxiliary definitions for the proofs *)

(** The value of a decimal numeral read digit by digit from [acc]. *)
Fixpoint uint_value (d : uint) (acc : Z) : Z :=
  match d with
  | Nil => acc
  | D0 d => uint_value d (10 * acc)
  | D1 d => uint_value d (10 * acc + 1)
  | D2 d => uint_value d (10 * acc + 2)
  | D3 d => uint_value d (10 * acc + 3)
  | D4 d => uint_value d (10 * acc + 4)
  | D5 d => uint_value d (10 * acc + 5)
  | D6 d => uint_value d (10 * acc + 6)
  | D7 d => uint_value d (10 * acc + 7)
  | D8 d => uint_value d (10 * acc + 8)
  | D9 d => uint_value d (10 * acc + 9)
  end.

(** Whether a character occurs in a string. *)
Fixpoint has_char (c : ascii) (s : string) : bool :=
  match s with
  | EmptyString => false
  | String a s' => Ascii.eqb a c || has_char c s'
  end.

(** The six signatures the classifier tries before it falls back to the
    generic error, as one condition. *)
Definition earlier_signature (e : RawError) : bool :=
  ImapMailManager.code_is e "ECONNREFUSED" || ImapMailManager.code_is e "ETIMEDOUT"
  || ImapMailManager.code_is e "ENOTFOUND"
  || ImapMailManager.code_is e "AUTHENTICATIONFAILED"
  || ImapMailManager.code_is e "INVALIDCREDENTIALS"
  || ImapMailManager.code_is e "ETLSNOTCAPABLE" || ImapMailManager.code_is e "ESSLNOTCAPABLE"
  || ImapMailManager.message_includes e "quota"
  || ImapMailManager.message_includes e "storage"
  || ImapMailManager.code_startsWith e "SMTP"
  || ImapMailManager.message_includes e "not supported"
  || ImapMailManager.message_includes e "capability".

(** The signatures tried before the quota signature: the connection, the
    authentication and the TLS codes. *)
Definition before_quota (e : RawError) : bool :=
  ImapMailManager.code_is e "ECONNREFUSED" || ImapMailManager.code_is e "ETIMEDOUT"
  || ImapMailManager.code_is e "ENOTFOUND"
  || ImapMailManager.code_is e "AUTHENTICATIONFAILED"
  || ImapMailManager.code_is e "INVALIDCREDENTIALS"
  || ImapMailManager.code_is e "ETLSNOTCAPABLE" || ImapMailManager.code_is e "ESSLNOTCAPABLE".

(** The classified error a run ended with, if it ended with one. *)
Definition classified {A} (r : thrown + A) : option StandardizedError :=
  match r with
  | inl (Std e) => Some e
  | _ => None
  end.

(** The ids and the token of the page a listing returned. *)
Definition page_ids (r : thrown + ListResult) : option (list string * option string) :=
  match r with
  | inr page => Some (map thread_id (threads page), nextPageToken page)
  | inl _ => None
  end.

(** The UID lists of the fetches of a run. *)
Definition fetch_uids (tr : list event) : list (list JS.num) :=
  omap (fun e => match e with
                 | Event (ImapFetch uids _) _ => Some uids
                 | _ => None
                 end) tr.

(** Kind, status and severity of the classified error of a run. *)
Definition verdict {A} (r : thrown + A) : option (string * Z * bool) :=
  option_map (fun e => (std_code e, status e, fatal e)) (classified r).

(** What the searches of a run settled with, in order. *)
Definition searched (e : event) : list (thrown + list Z) :=
  match e with
  | Event (ImapSearch _) r => [r]
  | _ => []
  end.

Fixpoint searches (tr : list event) : list (thrown + list Z) :=
  match tr with
  | [] => []
  | e :: tr' => searched e ++ searches tr'
  end.

(** Hosts and ports of the two clients the constructor creates. *)
Definition endpoints (r : thrown + (ImapClientOptions * SmtpTransportOptions))
  : option (string * Z * string * Z) :=
  match r with
  | inr (i, s) => Some (imap_host i, imap_port i, smtp_host s, smtp_port s)
  | inl _ => None
  end.

(** The messages a run handed to [smtp.sendMail], in order. *)
Definition handed_over (e : event) : list SendMailOptions.t :=
  match e with
  | Event (SmtpSendMail mail) _ => [mail]
  | _ => []
  end.

Fixpoint sent_mails (tr : list event) : list SendMailOptions.t :=
  match tr with
  | [] => []
  | e :: tr' => handed_over e ++ sent_mails tr'
  end.

(** The emails [simpleParser] resolved to during a run, in order. *)
Definition parsed_by (e : event) : list ParsedMail.t :=
  match e with
  | Event (SimpleParser _) (inr mail) => [mail]
  | _ => []
  end.

Fixpoint parsed_mails (tr : list event) : list ParsedMail.t :=
  match tr with
  | [] => []
  | e :: tr' => parsed_by e ++ parsed_mails tr'
  end.

(** The ['message'] events the fetches of a run delivered, in order. *)
Definition delivered (e : event) : list FetchEvent :=
  match e with
  | Event (ImapFetch _ _) (inr events) => events
  | _ => []
  end.

Fixpoint fetched (tr : list event) : list FetchEvent :=
  match tr with
  | [] => []
  | e :: tr' => delivered e ++ fetched tr'
  end.

(** Every mailbox a run opened is [mailbox], and every fetch, move or flag
    command it issued names exactly the UID [uid]. *)
Definition aims_at (tr : list event) (mailbox : string) (uid : JS.num) : Prop :=
  Forall (fun e =>
            match ev_opened e with Some m => m = mailbox | None => True end /\
            match ev_uids e with Some uids => uids = [uid] | None => True end) tr.

(** ** The account form ([apps/mail/components/connection/imap-form.tsx]) *)

Module ImapForm.

(** The [formData] state of the form. *)
Record formData := mkFormData {
  email : string;
  password : string;
  imapServer : string;
  smtpServer : string;
  imapPort : Z;
  smtpPort : Z
}.

(** [useState({ email: '', ..., imapPort: 993, smtpPort: 465 })] *)
Definition initial : formData :=
  {| email := ""; password := ""; imapServer := ""; smtpServer := "";
     imapPort := 993; smtpPort := 465 |}.

(** The [switch (domain)] of [handleEmailChange]. *)
Definition serversOfDomain (domain : string) : string * string :=
  if String.eqb domain "gmail.com" then ("imap.gmail.com", "smtp.gmail.com")
  else if String.eqb domain "outlook.com" || String.eqb domain "hotmail.com"
          || String.eqb domain "live.com"
       then ("outlook.office365.com", "smtp.office365.com")
  else if String.eqb domain "yahoo.com" then ("imap.mail.yahoo.com", "smtp.mail.yahoo.com")
  else if String.eqb domain "aol.com" then ("imap.aol.com", "smtp.aol.com")
  else if String.eqb domain "icloud.com" then ("imap.mail.me.com", "smtp.mail.me.com")
  else ("imap." +:+ domain, "smtp." +:+ domain).

(** [handleEmailChange]: the state after the two updates, or the error of
    [email.split('@')[1].toLowerCase()]. *)
Definition handleEmailChange (prev : formData) (value : string) : thrown + formData :=
  let prev1 := {| email := value; password := password prev;
                  imapServer := imapServer prev; smtpServer := smtpServer prev;
                  imapPort := imapPort prev; smtpPort := smtpPort prev |} in
  if JS.includes value "@" then
    match JS.split "@" value !! 1%nat with
    | None => inl (TypeError "Cannot read properties of undefined (reading 'toLowerCase')")
    | Some d =>
        let domain := JS.toLowerCase d in
        let servers := serversOfDomain domain in
        inr {| email := email prev1; password := password prev1;
               imapServer := fst servers; smtpServer := snd servers;
               imapPort := 993; smtpPort := 465 |}
    end
  else inr prev1.

(** [x || undefined] on a string and on a port. *)
Definition orUndefined (s : string) : option string :=
  if JS.truthy (Some s) then Some s else None.

Definition portOrUndefined (p : Z) : option Z :=
  if p =? 0 then None else Some p.

(** The input [handleSubmit] passes to the [connect] mutation. *)
Definition submitted (fd : formData) : Route.imapLogin :=
  {| Route.email := email fd;
     Route.password := password fd;
     Route.imapServer := orUndefined (imapServer fd);
     Route.smtpServer := orUndefined (smtpServer fd);
     Route.imapPort := portOrUndefined (imapPort fd);
     Route.smtpPort := portOrUndefined (smtpPort fd) |}.

End ImapForm.

(** ** The [connect] mutation ([trpc/routes/connections/imap.ts]) *)

Module ConnectRoute.

(** The row the mutation inserts into [mail0_imap_connection]. *)
Record row := mkRow {
  id : string;
  userId : string;
  email : string;
  accessToken : string;
  refreshToken : option string;
  expiresAt : Z;
  servers : Route.storedServers;
  createdAt : Z;
  updatedAt : Z
}.

(** What the mutation throws: a [TRPCError], or whatever a database call
    outside the two [try] blocks throws. *)
Inductive failure :=
| TRPCError (code message : string)
| Uncaught (e : thrown).

(** What the mutation returns. *)
Record connected := mkConnected {
  success : bool;
  connection_id : string;
  connection_email : string
}.

(** The calls of the mutation into its collaborators. *)
Inductive call : Type -> Type :=
(** [new ImapClient(options)] and [imap.connect()], settled by the next
    ['ready'] or ['error'] event *)
| TestConnect (options : ImapClientOptions) : call unit
| ImapEnd : call unit
(** [createId()] *)
| CreateId : call string
(** [Date.now()] or [new Date()], in milliseconds *)
| Clock : call Z
| DbInsert (r : row) : call unit
(** [createDriver('imap', config)] followed by [driver.list(params)] *)
| DriverList (config : ManagerConfig) (params : ListParams.t) : call ListResult
(** [db.delete(imapConnection).where({ id })] *)
| DbDelete (connectionId : string) : call unit.

Inductive flow (A : Type) : Type :=
| Done (a : A)
| Fail (f : failure)
| Ask (R : Type) (c : call R) (k : thrown + R -> flow A).

Arguments Done {A} a.
Arguments Fail {A} f.
Arguments Ask {A R} c k.

Definition unauthorized : failure :=
  TRPCError "UNAUTHORIZED"
    "IMAP authentication failed. Please check your credentials and server settings.".

Definition driverFailed : failure :=
  TRPCError "INTERNAL_SERVER_ERROR"
    "Failed to setup IMAP connection through the mail driver.".

(** A call outside a [try] block: its error leaves the mutation as it is. *)
Definition ask {A R} (c : call R) (k : R -> flow A) : flow A :=
  Ask c (fun r => match r with inl e => Fail (Uncaught e) | inr v => k v end).

Definition year : Z := 365 * 24 * 60 * 60 * 1000.

(** The mutation, for the user [ctx.user.id]. *)
Definition connect (user_id : string) (input : Route.imapLogin) : flow connected :=
  (* First, validate the IMAP credentials by attempting to connect *)
  Ask (TestConnect (Route.testClientOptions input)) (fun tested =>
    match tested with
    | inl _ => Fail unauthorized
    | inr _ =>
        (* Close the connection after successful test *)
        Ask ImapEnd (fun ended =>
          match ended with
          | inl _ => Fail unauthorized
          | inr _ =>
              ask CreateId (fun connectionId =>
              ask Clock (fun now1 =>
              ask Clock (fun now2 =>
              ask Clock (fun now3 =>
              ask (DbInsert {| id := connectionId;
                               userId := user_id;
                               email := Route.email input;
                               accessToken := Route.password input;
                               refreshToken := None;
                               expiresAt := now1 + year;
                               servers := Route.insertedRow input;
                               createdAt := now2;
                               updatedAt := now3 |}) (fun _ =>
              (* Test the driver integration *)
              Ask (DriverList (Route.driverConfig user_id input)
                     {| ListParams.folder := "INBOX"; ListParams.query := None;
                        ListParams.maxResults := Some 1; ListParams.labelIds := None;
                        ListParams.pageToken := None |}) (fun listed =>
                match listed with
                | inl _ =>
                    (* Delete the connection record if driver test fails *)
                    ask (DbDelete connectionId) (fun _ => Fail driverFailed)
                | inr _ =>
                    Done {| success := true;
                            connection_id := connectionId;
                            connection_email := Route.email input |}
                end))))))
          end)
    end).

(** One call of a run, with what it settled with. *)
Inductive step :=
| Step (R : Type) (c : call R) (r : thrown + R).

Arguments Step {R} c r.

Section Run.

Context {W : Type}.
Variable answer : forall R, call R -> W -> W * (thrown + R).

Fixpoint run {A} (p : flow A) (w : W) : W * list step * (failure + A) :=
  match p with
  | Done a => (w, [], inr a)
  | Fail f => (w, [], inl f)
  | Ask c k =>
      let (w1, r) := answer _ c w in
      let '(w2, tr, res) := run (k r) w1 in
      (w2, Step c r :: tr, res)
  end.

End Run.

(** The rows a run inserted and the ids it deleted, in order. *)
Fixpoint inserted (tr : list step) : list row :=
  match tr with
  | [] => []
  | Step (DbInsert r) _ :: tr' => r :: inserted tr'
  | _ :: tr' => inserted tr'
  end.

Fixpoint deleted (tr : list step) : list string :=
  match tr with
  | [] => []
  | Step (DbDelete i) _ :: tr' => i :: deleted tr'
  | _ :: tr' => deleted tr'
  end.

(** The rows whose insert resolved, and the ids whose delete resolved: what
    a run has put into the table and taken out of it again. *)
Fixpoint stored (tr : list step) : list row :=
  match tr with
  | [] => []
  | Step (DbInsert r) (inr _) :: tr' => r :: stored tr'
  | _ :: tr' => stored tr'
  end.

Fixpoint removed (tr : list step) : list string :=
  match tr with
  | [] => []
  | Step (DbDelete i) (inr _) :: tr' => i :: removed tr'
  | _ :: tr' => removed tr'
  end.

(** The driver tests of a run: configuration and parameters. *)
Fixpoint driverTests (tr : list step) : list (ManagerConfig * ListParams.t) :=
  match tr with
  | [] => []
  | Step (DriverList c p) _ :: tr' => (c, p) :: driverTests tr'
  | _ :: tr' => driverTests tr'
  end.

(** Whether a step is a connection test that went through. *)
Definition tested_ok (s : step) : bool :=
  match s with Step (TestConnect _) (inr _) => true | _ => false end.

(** Collaborators that all succeed: the mail server accepts the login, the
    database stores and deletes, the driver lists an empty INBOX.  The state
    is a counter that feeds the ids and the clock. *)
Definition agreeable (R : Type) (c : call R) (n : Z) : Z * (thrown + R) :=
  match c in call R0 return Z * (thrown + R0) with
  | TestConnect _ => (n, inr tt)
  | ImapEnd => (n, inr tt)
  | CreateId => (n + 1, inr ("c" +:+ JS.string_of_Z n))
  | Clock => (n + 1, inr n)
  | DbInsert _ => (n, inr tt)
  | DriverList _ _ => (n, inr {| threads := []; nextPageToken := None |})
  | DbDelete _ => (n, inr tt)
  end.

(** Collaborators of which the driver and, after it, the database fail:
    the login is accepted and the row stored, then the driver's listing
    rejects, and so does the deletion of the row. *)
Definition stubborn (R : Type) (c : call R) (n : Z) : Z * (thrown + R) :=
  match c in call R0 return Z * (thrown + R0) with
  | DriverList _ _ => (n, inl (Error "IMAP operation list failed"))
  | DbDelete _ => (n, inl (Error "connection terminated unexpectedly"))
  | c' => agreeable _ c' n
  end.

End ConnectRoute.

(** ** The [list] query ([trpc/routes/connections.ts]) *)

Module ConnectionsRoute.

(** A selected row of the [connection] table. *)
Record standard := mkStandard {
  std_id : string;
  std_email : string;
  std_name : option string;
  std_picture : option string;
  std_createdAt : Z;
  std_providerId : string;
  std_accessToken : option string;
  std_refreshToken : option string
}.

(** A selected row of the [imapConnection] table. *)
Record imap := mkImap {
  imap_id : string;
  imap_email : string;
  imap_createdAt : Z;
  imap_accessToken : option string;
  imap_refreshToken : option string
}.

(** The columns the query selects from a row of the IMAP table. *)
Definition select (r : ConnectRoute.row) : imap :=
  {| imap_id := ConnectRoute.id r;
     imap_email := ConnectRoute.email r;
     imap_createdAt := ConnectRoute.createdAt r;
     imap_accessToken := Some (ConnectRoute.accessToken r);
     imap_refreshToken := ConnectRoute.refreshToken r |}.

(** An entry of the response. *)
Record entry := mkEntry {
  entry_id : string;
  entry_email : string;
  entry_name : option string;
  entry_picture : option string;
  entry_createdAt : Z;
  entry_providerId : string
}.

(** [{ ...conn, name: conn.email.split('@')[0], picture: null,
    providerId: 'imap' }] *)
Definition ofImap (conn : imap) : standard :=
  {| std_id := imap_id conn;
     std_email := imap_email conn;
     std_name := JS.split "@" (imap_email conn) !! 0%nat;
     std_picture := None;
     std_createdAt := imap_createdAt conn;
     std_providerId := "imap";
     std_accessToken := imap_accessToken conn;
     std_refreshToken := imap_refreshToken conn |}.

Definition combined (standardConnections : list standard) (imapConnections : list imap)
  : list standard :=
  standardConnections ++ map ofImap imapConnections.

(** [!c.accessToken || !c.refreshToken] *)
Definition disconnected (c : standard) : bool :=
  negb (JS.truthy (std_accessToken c)) || negb (JS.truthy (std_refreshToken c)).

Definition disconnectedIds (standardConnections : list standard)
    (imapConnections : list imap) : list string :=
  map std_id (List.filter disconnected (combined standardConnections imapConnections)).

Definition toEntry (c : standard) : entry :=
  {| entry_id := std_id c; entry_email := std_email c; entry_name := std_name c;
     entry_picture := std_picture c; entry_createdAt := std_createdAt c;
     entry_providerId := std_providerId c |}.

Definition connections (standardConnections : list standard)
    (imapConnections : list imap) : list entry :=
  map toEntry (combined standardConnections imapConnections).

End ConnectionsRoute.

(** ** Scripts: the calls of a run without their answers *)

Inductive action :=
| AConnect
| AOpenBox (mailbox : string)
| ASearch (criteria : list Criterion)
| AFetch (uids : list JS.num) (options : FetchOptions)
| AMove (uids : list JS.num) (box : string)
| AAddFlags (uids : list JS.num) (flag : string)
| ADelFlags (uids : list JS.num) (flag : string)
| AAppend (raw : string) (box : string)
| AGetBoxes
| AAddBox (name : string)
| ARenameBox (old new : string)
| ADelBox (name : string)
| ABox
| ASendMail (mail : SendMailOptions.t)
| AParse (raw : string)
| ASanitize (html : string)
| ADeleteConnection (userId : string)
| ADateNow
| ARandom.

Definition shape {R} (c : cmd R) : action :=
  match c with
  | ImapConnect => AConnect
  | ImapOpenBox mailbox _ => AOpenBox mailbox
  | ImapSearch criteria => ASearch criteria
  | ImapFetch uids options => AFetch uids options
  | ImapMove uids box => AMove uids box
  | ImapAddFlags uids flag => AAddFlags uids flag
  | ImapDelFlags uids flag => ADelFlags uids flag
  | ImapAppend raw box => AAppend raw box
  | ImapGetBoxes => AGetBoxes
  | ImapAddBox name => AAddBox name
  | ImapRenameBox old new => ARenameBox old new
  | ImapDelBox name => ADelBox name
  | ImapBox => ABox
  | SmtpSendMail mail => ASendMail mail
  | SimpleParser raw => AParse raw
  | SanitizeTipTapHtml html => ASanitize html
  | DeleteActiveConnection u => ADeleteConnection u
  | DateNow => ADateNow
  | MathRandom => ARandom
  end.

Definition act (e : event) : action :=
  match e with Event c _ => shape c end.

Fixpoint script (tr : list event) : list action :=
  match tr with
  | [] => []
  | e :: tr' => act e :: script tr'
  end.

(** Whether an action goes to the IMAP connection. *)
Definition imap_action (a : action) : bool :=
  match a with
  | ASendMail _ | AParse _ | ASanitize _ | ADeleteConnection _ | ADateNow | ARandom => false
  | _ => true
  end.

(** Whether an action changes something on the mail server or sends mail. *)
Definition writes (a : action) : bool :=
  match a with
  | AMove _ _ | AAddFlags _ _ | ADelFlags _ _ | AAppend _ _ | AAddBox _
  | ARenameBox _ _ | ADelBox _ | ASendMail _ => true
  | AFetch _ options => markSeen options
  | _ => false
  end.

(** The fetches a run requested: UIDs and options. *)
Definition requested (e : event) : list (list JS.num * FetchOptions) :=
  match e with
  | Event (ImapFetch uids options) _ => [(uids, options)]
  | _ => []
  end.

Fixpoint requests (tr : list event) : list (list JS.num * FetchOptions) :=
  match tr with
  | [] => []
  | e :: tr' => requested e ++ requests tr'
  end.

(** What the calls of [smtp.sendMail] of a run settled with, in order. *)
Definition sent (e : event) : list (thrown + SentMessageInfo) :=
  match e with
  | Event (SmtpSendMail _) r => [r]
  | _ => []
  end.

Fixpoint sends (tr : list event) : list (thrown + SentMessageInfo) :=
  match tr with
  | [] => []
  | e :: tr' => sent e ++ sends tr'
  end.

(** What [sanitizeTipTapHtml] resolved to during a run, in order. *)
Definition sanitized_by (e : event) : list string :=
  match e with
  | Event (SanitizeTipTapHtml _) (inr html) => [html]
  | _ => []
  end.

Fixpoint sanitized (tr : list event) : list string :=
  match tr with
  | [] => []
  | e :: tr' => sanitized_by e ++ sanitized tr'
  end.

(** A call that went through: it did not throw or reject, and the callback
    of a move got no error. *)
Definition ev_went_through (e : event) : bool :=
  match e with
  | Event (ImapMove _ _) r => match r with inr None => true | _ => false end
  | Event _ r => ok r
  end.

(** A call of [simpleParser]. *)
Definition ev_is_parse (e : event) : bool :=
  match e with Event (SimpleParser _) _ => true | _ => false end.

(** A fetch that delivered no message. *)
Definition ev_fetched_nothing (e : event) : bool :=
  match e with Event (ImapFetch _ _) (inr []) => true | _ => false end.

(** A connect the server rejected with the given code. *)
Definition ev_connect_failed_with (c : string) (e : event) : bool :=
  match e with
  | Event ImapConnect (inl t) => ImapMailManager.code_is (view t) c
  | _ => false
  end.

Definition ev_send_ok (e : event) : bool :=
  match e with Event (SmtpSendMail _) (inr _) => true | _ => false end.

(** The number of mailboxes in a tree of boxes. *)
Fixpoint boxCount (box : Box) : nat :=
  match box with
  | MkBox _ children =>
      S (match children with
         | Some cs => list_sum (map boxCount cs)
         | None => 0
         end)
  end.

(** The message of the classified error of a run. *)
Definition verdict_message {A} (r : thrown + A) : option string :=
  option_map std_message (classified r).

(** The operation name on the classified error of a run. *)
Definition verdict_operation {A} (r : thrown + A) : option string :=
  option_map operation (classified r).

(** ** Facts about the JavaScript primitives *)

Lemma prefix_append_l (t u s : string) :
  String.prefix (t +:+ u) s = true -> String.prefix t s = true.
Proof.
  revert s. induction t as [|c t IH]; intros s H.
  - now destruct s.
  - change (String c t +:+ u) with (String c (t +:+ u)) in H.
    destruct s as [|c' s]; cbn in *; [discriminate H|].
    destruct (ascii_dec c c'); [auto | discriminate H].
Qed.

Lemma includes_append_l (s t u : string) :
  JS.includes s (t +:+ u) = true -> JS.includes s t = true.
Proof.
  induction s as [|c s IH]; cbn [JS.includes].
  - destruct (String.prefix (t +:+ u) "") eqn:E; [|congruence].
    intros _. now rewrite (prefix_append_l _ _ _ E).
  - destruct (String.prefix (t +:+ u) (String c s)) eqn:E.
    + intros _. now rewrite (prefix_append_l _ _ _ E).
    + intros H. rewrite (IH H). now destruct (String.prefix t (String c s)).
Qed.


Lemma digits_string_of_uint (d : uint) (acc : Z) :
  JS.digits (NilEmpty.string_of_uint d) true acc = Some (uint_value d acc).
Proof.
  revert acc. induction d; intros acc; cbn [NilEmpty.string_of_uint uint_value];
    [reflexivity | ..]; cbn [JS.digits].
  all: match goal with |- context [JS.digit_of ?c] => 
     let v := eval vm_compute in (JS.digit_of c) in change (JS.digit_of c) with v end.
  all: cbv iota beta.
  all: rewrite IHd; do 2 f_equal; lia.
Qed.

Lemma uint_value_acc (d : uint) (p : positive) :
  uint_value d (Z.pos p) = Z.pos (Pos.of_uint_acc d p).
Proof.
  revert p. induction d; intros p; cbn [uint_value Pos.of_uint_acc];
    [reflexivity | ..].
  all: match goal with
       | |- uint_value _ ?a = Z.pos (Pos.of_uint_acc _ ?q) =>
           replace a with (Z.pos q) by lia
       end; apply IHd.
Qed.

Lemma uint_value_of_uint (d : uint) : uint_value d 0 = Z.of_uint d.
Proof.
  unfold Z.of_uint. induction d; cbn [uint_value Pos.of_uint];
    [reflexivity | exact IHd | ..].
  all: match goal with
       | |- uint_value _ ?a = Z.of_N (N.pos (Pos.of_uint_acc _ ?q)) =>
           replace a with (Z.pos q) by lia
       end; apply uint_value_acc.
Qed.

(** The digits of a numeral, read back. *)
Lemma digits_of_numeral (d : uint) :
  JS.digits (NilZero.string_of_uint d) false 0 = Some (Z.of_uint d).
Proof.
  rewrite <- uint_value_of_uint.
  destruct d; try reflexivity; cbn [NilZero.string_of_uint NilEmpty.string_of_uint JS.digits].
  all: match goal with |- context [JS.digit_of ?c] =>
     let v := eval vm_compute in (JS.digit_of c) in change (JS.digit_of c) with v end.
  all: cbv iota beta; rewrite digits_string_of_uint; reflexivity.
Qed.

Lemma parseInt10_of_numeral (d : uint) :
  JS.parseInt10 (NilZero.string_of_uint d) = Some (Z.of_uint d).
Proof.
  rewrite <- digits_of_numeral.
  destruct d; reflexivity.
Qed.

(** Reading back the decimal rendering of an integer gives the integer. *)
Lemma parseInt_string_of_Z (z : Z) : JS.parseInt (Some (JS.string_of_Z z)) = Some z.
Proof.
  cbn [JS.parseInt]. unfold JS.string_of_Z.
  rewrite <- (DecimalZ.of_to z) at 2.
  destruct (Z.to_int z) as [d|d]; cbn [NilZero.string_of_int Z.of_int].
  - apply parseInt10_of_numeral.
  - unfold JS.parseInt10. cbn [JS.skip_space]. 
    change (JS.is_space "-") with false. cbv iota.
    now rewrite digits_of_numeral.
Qed.


Lemma split_without_separator (c : ascii) (s : string) :
  has_char c s = false -> JS.split c s = [s].
Proof.
  induction s as [|a s IH]; cbn [has_char JS.split]; [reflexivity|].
  intros H. apply orb_false_elim in H as [Ha Hs].
  now rewrite Ha, (IH Hs).
Qed.

Lemma split_at_first_separator (c : ascii) (a b : string) :
  has_char c a = false ->
  JS.split c (a +:+ String c b) = a :: JS.split c b.
Proof.
  induction a as [|x a IH]; intros H.
  - change ("" +:+ String c b) with (String c b). cbn [JS.split].
    now rewrite Ascii.eqb_refl.
  - change (String x a +:+ String c b) with (String x (a +:+ String c b)).
    cbn [has_char] in H. apply orb_false_elim in H as [Hx Ha].
    cbn [JS.split]. now rewrite Hx, (IH Ha).
Qed.

Lemma split_head (c : ascii) (s : string) :
  exists h t, JS.split c s = h :: t /\ has_char c h = false.
Proof.
  induction s as [|a s (h & t & E & Hh)]; cbn [JS.split].
  - now exists "", [].
  - destruct (Ascii.eqb a c) eqn:Ea.
    + now exists "", (JS.split c s).
    + rewrite E. exists (String a h), t. split; [reflexivity|].
      cbn [has_char]. now rewrite Ea, Hh.
Qed.

Lemma numeral_without (c : ascii) (d : uint) :
  JS.digit_of c = None -> has_char c (NilEmpty.string_of_uint d) = false.
Proof.
  intros Hc. induction d; cbn [NilEmpty.string_of_uint has_char]; [reflexivity | ..].
  all: rewrite IHd, orb_false_r; apply Ascii.eqb_neq; intros <-; discriminate Hc.
Qed.

Lemma string_of_Z_without_colon (z : Z) : has_char ":" (JS.string_of_Z z) = false.
Proof.
  unfold JS.string_of_Z.
  assert (H : forall d, has_char ":" (NilZero.string_of_uint d) = false).
  { intros d. destruct d; try reflexivity;
      apply (numeral_without ":" _ eq_refl). }
  destruct (Z.to_int z) as [d|d]; cbn [NilZero.string_of_int has_char]; [apply H|].
  now rewrite H.
Qed.

(** The [unread] field [convertToAppMessage] computes from the flags of the
    email it is given. *)
Lemma convertToAppMessage_unread now email id mailbox :
  let msg := ImapMailManager.convertToAppMessage now email id mailbox in
  (ParsedMessage.unread msg = true <->
   ParsedMail.flags email = None \/
   exists fl, ParsedMail.flags email = Some fl /\ ~ In "\Seen" fl) /\
  (forall fl, ParsedMail.flags email = Some fl ->
              (~ In "\Seen" fl -> ParsedMessage.unread msg = true) /\
              (In "\Seen" fl -> ParsedMessage.unread msg = false)).
Proof.
  cbv zeta. unfold ImapMailManager.convertToAppMessage.
  cbn [ParsedMessage.unread]. unfold ImapMailManager.unreadOf.
  assert (Hin : forall fl, JS.arr_includes fl (Some "\Seen") = true <-> In "\Seen" fl).
  { intros fl. unfold JS.arr_includes. rewrite existsb_exists. split.
    - intros (x & Hx & E). apply String.eqb_eq in E. now subst.
    - intros H. exists "\Seen". split; [assumption | apply String.eqb_refl]. }
  split.
  - destruct (ParsedMail.flags email) as [fl|]; [|intuition].
    rewrite negb_true_iff, <- not_true_iff_false, Hin. split.
    + intros H. right. eauto.
    + intros [H|(fl' & [= <-] & H)]; [discriminate | assumption].
  - intros fl ->. rewrite negb_true_iff, negb_false_iff, <- not_true_iff_false, Hin. auto.
Qed.

(** ** Facts that hold against every world *)

Section AnyWorld.

Context {W : Type} (handle : forall R, cmd R -> W -> W * (thrown + R)).

Lemma run_bind {A B} (p : prog A) (f : A -> prog B) st :
  run handle (bind p f) st =
  match result (run handle p st) with
  | inl e => mkOutcome (final (run handle p st)) (trace (run handle p st)) (inl e)
  | inr a =>
      let o := run handle (f a) (final (run handle p st)) in
      mkOutcome (final o) (trace (run handle p st) ++ trace o) (result o)
  end.
Proof.
  revert st. induction p as [a|e|R c k IH]; intros st; cbn [bind run].
  - cbn. now destruct (run handle (f a) st).
  - reflexivity.
  - destruct (step handle c st) as [st1 r]. rewrite IH.
    cbn [final trace result]. now destruct (result (run handle (k r) st1)).
Qed.

Lemma run_try_catch {A} (p : prog A) (h : thrown -> prog A) st :
  run handle (try_catch p h) st =
  match result (run handle p st) with
  | inl e =>
      let o := run handle (h e) (final (run handle p st)) in
      mkOutcome (final o) (trace (run handle p st) ++ trace o) (result o)
  | inr a => run handle p st
  end.
Proof.
  revert st. induction p as [a|e|R c k IH]; intros st; cbn [try_catch run].
  - reflexivity.
  - cbn. now destruct (run handle (h e) st).
  - destruct (step handle c st) as [st1 r]. rewrite IH.
    cbn [final trace result].
    destruct (run handle (k r) st1) as [f1 tr1 [e1|a1]]; cbn; reflexivity.
Qed.

(** The catch block always throws a classified error; on the way it issues
    at most the deletion of the connection record. *)
Lemma handleError_outcome {T} config FatalErrors sanitizeContext operation ctx caught st :
  let o := run handle
             (@ImapMailManager.handleError config FatalErrors sanitizeContext T
                operation ctx caught) st in
  exists e,
    result o = inl (Std e) /\
    (trace o = [] \/ exists u r, trace o = [Event (DeleteActiveConnection u) r]).
Proof.
  cbv zeta. unfold ImapMailManager.handleError.
  repeat match goal with
         | |- context [if ?b then _ else _] => destruct b
         end; cbn; eauto 6.
Qed.

(** The one call the catch block may issue is the deletion of the
    connection record of the configured user. *)
Lemma handleError_trace {T} config FatalErrors sanitizeContext operation ctx caught st :
  let o := run handle
             (@ImapMailManager.handleError config FatalErrors sanitizeContext T
                operation ctx caught) st in
  exists e,
    result o = inl (Std e) /\
    (trace o = [] \/
     trace o = [Event (DeleteActiveConnection (userId (auth config))) (inr tt)]).
Proof.
  cbv zeta. unfold ImapMailManager.handleError.
  repeat match goal with
         | |- context [if ?b then _ else _] => destruct b
         end; cbn; eauto.
Qed.

Lemma handleError_connects_first {T} config FatalErrors sanitizeContext operation ctx caught :
  connects_first
    (@ImapMailManager.handleError config FatalErrors sanitizeContext T operation ctx caught).
Proof.
  unfold ImapMailManager.handleError.
  repeat match goal with
         | |- context [if ?b then _ else _] => destruct b
         end; cbn; auto.
  intros [e|[]]; exact I.
Qed.

Lemma code_is_eq e c : code e = Some c -> ImapMailManager.code_is e c = true.
Proof. unfold ImapMailManager.code_is. intros ->. apply String.eqb_refl. Qed.

(** Unfold one layer of a running operation. *)
Ltac run_cbn :=
  cbn [run bind try_catch step await for_of all_map fst snd final trace result
       ImapMailManager.withErrorHandler ImapMailManager.connectImap
       ImapMailManager.openMailbox ImapMailManager.searchEmails
       ImapMailManager.fetchMessages ImapMailManager.parseEmail].

(** Case on what the world answers to the next call. *)
Ltac answer :=
  match goal with
  | |- context [let (_, _) := ?x in _] => destruct x as [? [?|?]]
  end.

(** The run has reached the catch block. *)
Ltac caught :=
  match goal with
  | |- context [run _ (@ImapMailManager.handleError ?c ?f ?s ?T ?op ?ctx ?t) ?st] =>
      let Hres := fresh "Hres" in
      let Htr := fresh "Htr" in
      destruct (handleError_outcome (T:=T) c f s op ctx t st)
        as (? & Hres & [Htr | (? & ? & Htr)]);
      cbv zeta in Hres, Htr; rewrite ?Hres, ?Htr
  end.

(** The same, with the one call the catch block may issue spelled out. *)
Ltac caught_exactly :=
  match goal with
  | |- context [run _ (@ImapMailManager.handleError ?c ?f ?s ?T ?op ?ctx ?t) ?st] =>
      let Hres := fresh "Hres" in
      let Htr := fresh "Htr" in
      destruct (handleError_trace (T:=T) c f s op ctx t st) as (? & Hres & [Htr | Htr]);
      cbv zeta in Hres, Htr; rewrite ?Hres, ?Htr
  end.

Ltac units := repeat match goal with u : unit |- _ => destruct u end.

Ltac aimed := repeat constructor; cbn; auto.

Ltac connect_is_first :=
  run_cbn; cbn [connects_first is_connect is_imap];
  try exact I;
  repeat (let r := fresh "r" in
          intros r; destruct r as [?|?]; run_cbn;
          cbn [connects_first is_connect is_imap];
          try exact I; try apply handleError_connects_first).

(** C3 (amended): the classifier maps a caught error with code
    ["ECONNREFUSED"] to [CONNECTION_REFUSED], status 503, fatal; one with
    code ["AUTHENTICATIONFAILED"] to [AUTHENTICATION_ERROR], status 401,
    fatal, and on the way it has the connection record of the configured
    user deleted when the configured user id is non-empty, and triggers no
    deletion when it is empty; and one whose message contains
    ["quota exceeded"] and whose code is none of the connection,
    authentication and TLS codes to [QUOTA_ERROR], status 507, not fatal. *)
Theorem classifier_signatures {T} config FatalErrors sanitizeContext operation ctx caught st :
  let o := run handle
             (@ImapMailManager.handleError config FatalErrors sanitizeContext T
                operation ctx caught) st in
  (code (view caught) = Some "ECONNREFUSED" ->
   verdict (result o) = Some ("CONNECTION_REFUSED", 503, true)) /\
  (code (view caught) = Some "AUTHENTICATIONFAILED" ->
   verdict (result o) = Some ("AUTHENTICATION_ERROR", 401, true) /\
   (userId (auth config) <> "" ->
    trace o = [Event (DeleteActiveConnection (userId (auth config))) (inr tt)]) /\
   (userId (auth config) = "" -> trace o = [])) /\
  (forall m, message (view caught) = Some m ->
             JS.includes m "quota exceeded" = true ->
             before_quota (view caught) = false ->
             verdict (result o) = Some ("QUOTA_ERROR", 507, false)).
Proof.
  cbv zeta. unfold ImapMailManager.handleError. split; [|split].
  - intros H. rewrite (code_is_eq _ _ H). reflexivity.
  - intros H. unfold ImapMailManager.code_is. rewrite H. cbn.
    destruct (userId (auth config)) as [|c u]; cbn;
      (split; [reflexivity|]); split; intros Hu;
      first [reflexivity | congruence].
  - intros m Hm Hq Hb. unfold before_quota in Hb.
    repeat (apply orb_false_elim in Hb as [Hb ?]).
    repeat match goal with H : _ = false |- _ => rewrite H; clear H end.
    cbn [orb].
    assert (Hi : ImapMailManager.message_includes (view caught) "quota" = true).
    { unfold ImapMailManager.message_includes. rewrite Hm.
      apply (includes_append_l m "quota" " exceeded"). exact Hq. }
    rewrite Hi. reflexivity.
Qed.

(** C4 (amended): a caught error that matches none of the earlier
    signatures is classified with code [UNKNOWN_IMAP_ERROR] and status 500,
    and it is fatal exactly when its code or its [response.status] is in
    the [FatalErrors] allowlist. *)
Theorem unmatched_errors_are_unknown {T} config FatalErrors sanitizeContext operation ctx
    caught st :
  earlier_signature (view caught) = false ->
  let o := run handle
             (@ImapMailManager.handleError config FatalErrors sanitizeContext T
                operation ctx caught) st in
  verdict (result o) =
    Some ("UNKNOWN_IMAP_ERROR", 500,
          JS.arr_includes FatalErrors (code (view caught))
          || JS.arr_includes FatalErrors (response_status (view caught))) /\
  trace o = [].
Proof.
  intros Hb. unfold earlier_signature in Hb.
  repeat (apply orb_false_elim in Hb as [Hb ?]).
  cbv zeta. unfold ImapMailManager.handleError.
  repeat match goal with H : _ = false |- _ => rewrite H; clear H end.
  split; reflexivity.
Qed.

(** C5 (amended): [connectImap] calls [imap.connect()] whatever the state of
    the session, as its only library call, and settles the way that call
    does; and every public operation that reaches the IMAP connection calls
    it before its first IMAP command. *)
Theorem connectImap_always_connects config FatalErrors sanitizeContext now :
  (forall st,
     exists r, trace (run handle ImapMailManager.connectImap st) = [Event ImapConnect r] /\
               result (run handle ImapMailManager.connectImap st) = r) /\
  (forall id, connects_first (ImapMailManager.get config FatalErrors sanitizeContext now id)) /\
  (forall params, connects_first (ImapMailManager.list config FatalErrors sanitizeContext params)) /\
  (forall data, connects_first (ImapMailManager.create config FatalErrors sanitizeContext data)) /\
  (forall id, connects_first (ImapMailManager.delete config FatalErrors sanitizeContext id)) /\
  (forall ids options,
     connects_first (ImapMailManager.modifyLabels config FatalErrors sanitizeContext ids options)) /\
  (forall ids, connects_first (ImapMailManager.markAsRead config FatalErrors sanitizeContext ids)) /\
  (forall ids, connects_first (ImapMailManager.markAsUnread config FatalErrors sanitizeContext ids)) /\
  (forall data, connects_first (ImapMailManager.createDraft config FatalErrors sanitizeContext data)) /\
  (forall id, connects_first (ImapMailManager.getDraft config FatalErrors sanitizeContext id)) /\
  (forall params,
     connects_first (ImapMailManager.listDrafts config FatalErrors sanitizeContext params)) /\
  (forall id data,
     connects_first (ImapMailManager.sendDraft config FatalErrors sanitizeContext id data)) /\
  connects_first (ImapMailManager.count config FatalErrors sanitizeContext) /\
  (forall code, connects_first (ImapMailManager.getTokens code)) /\
  (forall tokens, connects_first (ImapMailManager.getUserInfo config tokens)) /\
  (forall messageId attachmentId,
     connects_first
       (ImapMailManager.getAttachment config FatalErrors sanitizeContext messageId attachmentId)) /\
  connects_first (ImapMailManager.getUserLabels config FatalErrors sanitizeContext) /\
  (forall id, connects_first (ImapMailManager.getLabel id)) /\
  (forall name, connects_first (ImapMailManager.createLabel config FatalErrors sanitizeContext name)) /\
  (forall id name,
     connects_first (ImapMailManager.updateLabel config FatalErrors sanitizeContext id name)) /\
  (forall id, connects_first (ImapMailManager.deleteLabel config FatalErrors sanitizeContext id)) /\
  connects_first (ImapMailManager.getEmailAliases config) /\
  (forall token, connects_first (ImapMailManager.revokeRefreshToken token)).
Proof.
  repeat match goal with |- _ /\ _ => split end; intros.
  - run_cbn. answer; cbn; eauto.
  - unfold ImapMailManager.get. connect_is_first.
  - unfold ImapMailManager.list. connect_is_first.
  - unfold ImapMailManager.create, ImapMailManager.prepareEmail,
      ImapMailManager.saveSentEmail. connect_is_first.
  - unfold ImapMailManager.delete. connect_is_first.
  - unfold ImapMailManager.modifyLabels. connect_is_first.
  - unfold ImapMailManager.markAsRead. connect_is_first.
  - unfold ImapMailManager.markAsUnread. connect_is_first.
  - unfold ImapMailManager.createDraft. connect_is_first.
  - unfold ImapMailManager.getDraft. connect_is_first.
  - unfold ImapMailManager.listDrafts. connect_is_first.
  - unfold ImapMailManager.sendDraft, ImapMailManager.prepareEmail,
      ImapMailManager.delete. connect_is_first.
  - unfold ImapMailManager.count. connect_is_first.
  - unfold ImapMailManager.getTokens. connect_is_first.
  - exact I.
  - unfold ImapMailManager.getAttachment. connect_is_first.
  - unfold ImapMailManager.getUserLabels. connect_is_first.
  - exact I.
  - unfold ImapMailManager.createLabel. connect_is_first.
  - unfold ImapMailManager.updateLabel. connect_is_first.
  - unfold ImapMailManager.deleteLabel. connect_is_first.
  - exact I.
  - exact I.
Qed.

(** C7 (amended): [delete(id)] connects, opens the mailbox its id decodes
    to and calls [imap.move] for the decoded UID; these are all the runs it
    has.  It succeeds when the move's callback reports no error, and when it
    reports one and setting the [\Deleted] flag on the same UID succeeds.
    It raises a classified error when the connect fails, when opening the
    mailbox fails, when [imap.move] throws before anything is sent (the
    fallback is not tried then), and when the move's callback reports an
    error and the flag-set fails too. *)
Theorem delete_outcomes config FatalErrors sanitizeContext id st :
  let o := run handle (ImapMailManager.delete config FatalErrors sanitizeContext id) st in
  let mailbox := ImapMailManager.mailboxOrInbox id in
  let uid := ImapMailManager.uidOf id in
  let connected := Event ImapConnect (inr tt) in
  let opened := Event (ImapOpenBox mailbox false) (inr tt) in
  let move := ImapMove [uid] "Trash" in
  let flag := ImapAddFlags [uid] "\Deleted" in
  let raised (calls : list event) :=
    (exists e, result o = inl (Std e)) /\
    (trace o = calls \/
     trace o = calls ++ [Event (DeleteActiveConnection (userId (auth config))) (inr tt)]) in
  (trace o = [connected; opened; Event move (inr None)] /\ result o = inr tt) \/
  (exists err,
     trace o = [connected; opened; Event move (inr (Some err)); Event flag (inr tt)] /\
     result o = inr tt) \/
  (exists e, raised [Event ImapConnect (inl e)]) \/
  (exists e, raised [connected; Event (ImapOpenBox mailbox false) (inl e)]) \/
  (exists e, raised [connected; opened; Event move (inl e)]) \/
  (exists err e2,
     raised [connected; opened; Event move (inr (Some err)); Event flag (inl e2)]).
Proof.
  cbv zeta. unfold ImapMailManager.delete. run_cbn.
  answer; run_cbn; units.
  - do 2 right. left. eexists. caught_exactly; cbn; eauto.
  - answer; run_cbn; units.
    + do 3 right. left. eexists. caught_exactly; cbn; eauto.
    + answer; run_cbn.
      * do 4 right. left. eexists. caught_exactly; cbn; eauto.
      * match goal with o : option thrown |- _ => destruct o as [err|] end; run_cbn.
        -- answer; run_cbn; units.
           ++ do 5 right. eexists _, _. caught_exactly; cbn; eauto.
           ++ right. left. eexists. cbn. eauto.
        -- left. cbn. eauto.
Qed.

(** C9 (amended): whenever [create] succeeds, [smtp.sendMail] has been
    called once by [create] itself, with the prepared message, and, when the
    connect and the opening of ["Sent"] inside [saveSentEmail] both
    succeeded, a second time by [saveSentEmail], with the same message under
    an explicit envelope; otherwise only once.  No [imap.append] is ever
    issued. *)
Theorem create_sends_again_when_sent_opens config FatalErrors sanitizeContext data st v :
  let o := run handle (ImapMailManager.create config FatalErrors sanitizeContext data) st in
  result o = inr v ->
  (exists mail,
     sent_mails (trace o) =
       if existsb (ev_is_connect true) (trace o) && existsb (ev_is_openBox true) (trace o)
       then [mail; ImapMailManager.withEnvelope mail] else [mail]) /\
  existsb ev_is_append (trace o) = false.
Proof.
  unfold ImapMailManager.create, ImapMailManager.prepareEmail, ImapMailManager.saveSentEmail.
  run_cbn.
  answer; run_cbn.
  - caught; cbn; congruence.
  - answer; run_cbn.
    + caught; cbn; congruence.
    + answer; run_cbn.
      * cbn. eauto.
      * answer; run_cbn.
        -- cbn. eauto.
        -- answer; cbn; eauto.
Qed.

(** Parsing the fetched messages issues no fetch, and on success yields one
    thread per message, whose id is made from the message's [uid] field. *)
Lemma parse_all_outcome (mkId : Z -> string) (messages : list FetchedMessage) st :
  let o := run handle
             (all_map messages (fun message =>
                bind (ImapMailManager.parseEmail (raw message)) (fun parsed =>
                  Ret {| thread_id := mkId (uid message); thread_raw := parsed |}))) st in
  fetched (trace o) = [] /\
  forall ys, result o = inr ys ->
             map thread_id ys = map (fun m => mkId (uid m)) messages.
Proof.
  revert st. induction messages as [|m ms IH]; intros st.
  - cbn. split; [reflexivity|]. now intros ys [= <-].
  - run_cbn. answer; run_cbn.
    + cbn. split; [reflexivity | discriminate].
    + rewrite run_bind.
      match goal with |- context [run handle (all_map ms ?b) ?s] =>
        assert (IH' : fetched (trace (run handle (all_map ms b) s)) = [] /\
                      forall ys, result (run handle (all_map ms b) s) = inr ys ->
                                 map thread_id ys = map (fun m => mkId (uid m)) ms)
          by exact (IH s);
        destruct (run handle (all_map ms b) s) as [f1 tr1 [e1|ys1]] end;
      cbn [final trace result] in *; destruct IH' as [IHf IHr].
      * split; [exact IHf | discriminate].
      * cbn [run trace result]. rewrite app_nil_r. split; [exact IHf|].
        intros ys [= <-]. cbn [map thread_id uid]. f_equal. now apply IHr.
Qed.

(** The ids of a page are made from the sequence numbers of the fetch
    events, in the order of the events. *)
Lemma list_thread_ids config FatalErrors sanitizeContext params st page :
  let o := run handle (ImapMailManager.list config FatalErrors sanitizeContext params) st in
  result o = inr page ->
  map thread_id (threads page) =
  map (fun ev => ImapMailManager.normalizeMailbox (ListParams.folder params)
                 +:+ ":" +:+ JS.string_of_Z (seqno ev))
      (fetched (trace o)).
Proof.
  unfold ImapMailManager.list. run_cbn.
  answer; run_cbn; [caught; cbn; congruence|].
  answer; run_cbn; [caught; cbn; congruence|].
  answer; run_cbn; [caught; cbn; congruence|].
  match goal with |- context [map Some (JS.slice0 ?a ?b)] =>
    destruct (map Some (JS.slice0 a b)) eqn:Eus end; run_cbn.
  - cbn. intros [= <-]. reflexivity.
  - answer; run_cbn; [caught; cbn; congruence|].
    rewrite run_try_catch, run_bind.
    match goal with |- context [run handle (all_map ?ms ?b) ?s] =>
      assert (H' : fetched (trace (run handle (all_map ms b) s)) = [] /\
                   forall ys, result (run handle (all_map ms b) s) = inr ys ->
                     map thread_id ys =
                     map (fun m => ImapMailManager.normalizeMailbox (ListParams.folder params)
                                   +:+ ":" +:+ JS.string_of_Z (uid m)) ms)
        by exact (parse_all_outcome
                    (fun n => ImapMailManager.normalizeMailbox (ListParams.folder params)
                              +:+ ":" +:+ JS.string_of_Z n) ms s);
      destruct (run handle (all_map ms b) s) as [f1 tr1 [e1|ys1]] end;
    cbn [final trace result run] in *; destruct H' as [Hf Hr].
    + caught; cbn; congruence.
    + intros [= <-]. cbn [threads]. rewrite (Hr _ eq_refl), map_map.
      rewrite app_nil_r. cbn [fetched delivered app]. rewrite Hf, app_nil_r. reflexivity.
Qed.

Lemma listDrafts_thread_ids config FatalErrors sanitizeContext params st page :
  let o := run handle (ImapMailManager.listDrafts config FatalErrors sanitizeContext params) st in
  result o = inr page ->
  map thread_id (threads page) =
  map (fun ev => "Drafts" +:+ ":" +:+ JS.string_of_Z (seqno ev)) (fetched (trace o)).
Proof.
  unfold ImapMailManager.listDrafts. run_cbn.
  answer; run_cbn; [caught; cbn; congruence|].
  answer; run_cbn; [caught; cbn; congruence|].
  answer; run_cbn; [caught; cbn; congruence|].
  match goal with |- context [map Some (JS.slice0 ?a ?b)] =>
    destruct (map Some (JS.slice0 a b)) eqn:Eus end; run_cbn.
  - cbn. intros [= <-]. reflexivity.
  - answer; run_cbn; [caught; cbn; congruence|].
    rewrite run_try_catch, run_bind.
    match goal with |- context [run handle (all_map ?ms ?b) ?s] =>
      assert (H' : fetched (trace (run handle (all_map ms b) s)) = [] /\
                   forall ys, result (run handle (all_map ms b) s) = inr ys ->
                     map thread_id ys =
                     map (fun m => "Drafts:" +:+ JS.string_of_Z (uid m)) ms)
        by exact (parse_all_outcome (fun n => "Drafts:" +:+ JS.string_of_Z n) ms s);
      destruct (run handle (all_map ms b) s) as [f1 tr1 [e1|ys1]] end;
    cbn [final trace result run] in *; destruct H' as [Hf Hr].
    + caught; cbn; congruence.
    + intros [= <-]. cbn [threads]. rewrite (Hr _ eq_refl), map_map.
      rewrite app_nil_r. cbn [fetched delivered app]. rewrite Hf, app_nil_r. reflexivity.
Qed.

Lemma get_aims config FatalErrors sanitizeContext now id st :
  aims_at (trace (run handle (ImapMailManager.get config FatalErrors sanitizeContext now id) st))
          (ImapMailManager.mailboxOrInbox id) (ImapMailManager.uidOf id).
Proof.
  unfold ImapMailManager.get, aims_at. run_cbn.
  answer; run_cbn; [caught; aimed|].
  answer; run_cbn; [caught; aimed|].
  answer; run_cbn; [caught; aimed|].
  match goal with |- context [map ImapMailManager.collect ?l] => destruct l end;
    cbn [map]; run_cbn; [caught; aimed|].
  answer; run_cbn; [caught; aimed | aimed].
Qed.

Lemma delete_aims config FatalErrors sanitizeContext id st :
  aims_at (trace (run handle (ImapMailManager.delete config FatalErrors sanitizeContext id) st))
          (ImapMailManager.mailboxOrInbox id) (ImapMailManager.uidOf id).
Proof.
  unfold ImapMailManager.delete, aims_at. run_cbn.
  answer; run_cbn; [caught; aimed|].
  answer; run_cbn; [caught; aimed|].
  answer; run_cbn; [caught; aimed|].
  match goal with o : option thrown |- _ => destruct o end; run_cbn; [|aimed].
  answer; run_cbn; [caught; aimed | aimed].
Qed.

Lemma markAsRead_aims config FatalErrors sanitizeContext id st :
  aims_at (trace (run handle
                    (ImapMailManager.markAsRead config FatalErrors sanitizeContext [id]) st))
          (ImapMailManager.mailboxOf id) (ImapMailManager.uidOf id).
Proof.
  unfold ImapMailManager.markAsRead, aims_at. run_cbn.
  answer; run_cbn; [caught; aimed|].
  answer; run_cbn; [caught; aimed|].
  answer; run_cbn; [caught; aimed | aimed].
Qed.

Lemma markAsUnread_aims config FatalErrors sanitizeContext id st :
  aims_at (trace (run handle
                    (ImapMailManager.markAsUnread config FatalErrors sanitizeContext [id]) st))
          (ImapMailManager.mailboxOf id) (ImapMailManager.uidOf id).
Proof.
  unfold ImapMailManager.markAsUnread, aims_at. run_cbn.
  answer; run_cbn; [caught; aimed|].
  answer; run_cbn; [caught; aimed|].
  answer; run_cbn; [caught; aimed | aimed].
Qed.

(** An id made from a sequence number decodes to something else than the
    mailbox and the UID of the message it was made for. *)
Lemma seqno_id_decodes_elsewhere (mb : string) (seq u : Z) :
  seq <> u ->
  let id := mb +:+ ":" +:+ JS.string_of_Z seq in
  (ImapMailManager.mailboxOrInbox id, ImapMailManager.uidOf id) <> (mb, Some u) /\
  (ImapMailManager.mailboxOf id, ImapMailManager.uidOf id) <> (mb, Some u).
Proof.
  intros Hne id.
  unfold ImapMailManager.mailboxOrInbox, ImapMailManager.mailboxOf, ImapMailManager.uidOf.
  destruct (has_char ":" mb) eqn:Hmb.
  - destruct (split_head ":" id) as (h & t & E & Hh). rewrite E. cbn.
    assert (Hhm : h <> mb) by (intros ->; congruence).
    split; intros H; apply (f_equal fst) in H; cbn in H; [|congruence].
    destruct h; cbn in H; [|congruence].
    subst mb. discriminate Hmb.
  - subst id. change (":" +:+ JS.string_of_Z seq) with (String ":" (JS.string_of_Z seq)).
    rewrite (split_at_first_separator _ _ _ Hmb).
    rewrite (split_without_separator _ _ (string_of_Z_without_colon seq)).
    cbn [lookup list_lookup]. rewrite parseInt_string_of_Z.
    split; intros H; apply (f_equal snd) in H; cbn in H; congruence.
Qed.

(** When every call goes through, the four operations do reach the
    mailbox and the UID their id decodes to. *)
Lemma decoded_pair_is_addressed config FatalErrors sanitizeContext now id st :
  let went (A : Type) (p : prog A) :=
    forallb ev_went_through (trace (run handle p st)) = true in
  let calls (A : Type) (p : prog A) := script (trace (run handle p st)) in
  (went _ (ImapMailManager.get config FatalErrors sanitizeContext now id) ->
   List.filter imap_action
     (calls _ (ImapMailManager.get config FatalErrors sanitizeContext now id))
   = [AConnect; AOpenBox (ImapMailManager.mailboxOrInbox id);
      AFetch [ImapMailManager.uidOf id]
        {| bodies := ""; struct := true; markSeen := true |}]) /\
  (went _ (ImapMailManager.delete config FatalErrors sanitizeContext id) ->
   calls _ (ImapMailManager.delete config FatalErrors sanitizeContext id)
   = [AConnect; AOpenBox (ImapMailManager.mailboxOrInbox id);
      AMove [ImapMailManager.uidOf id] "Trash"]) /\
  (went _ (ImapMailManager.markAsRead config FatalErrors sanitizeContext [id]) ->
   calls _ (ImapMailManager.markAsRead config FatalErrors sanitizeContext [id])
   = [AConnect; AOpenBox (ImapMailManager.mailboxOf id);
      AAddFlags [ImapMailManager.uidOf id] "\Seen"]) /\
  (went _ (ImapMailManager.markAsUnread config FatalErrors sanitizeContext [id]) ->
   calls _ (ImapMailManager.markAsUnread config FatalErrors sanitizeContext [id])
   = [AConnect; AOpenBox (ImapMailManager.mailboxOf id);
      ADelFlags [ImapMailManager.uidOf id] "\Seen"]).
Proof.
  cbv zeta.
  unfold ImapMailManager.get, ImapMailManager.delete, ImapMailManager.markAsRead,
    ImapMailManager.markAsUnread.
  repeat split; run_cbn.
  - answer; run_cbn; [caught; cbn; discriminate|].
    answer; run_cbn; [caught; cbn; discriminate|].
    answer; run_cbn; [caught; cbn; discriminate|].
    match goal with |- context [map ImapMailManager.collect ?l] => destruct l end;
      cbn [map]; run_cbn; [caught; cbn; reflexivity|].
    answer; run_cbn; [caught; cbn; discriminate|cbn; reflexivity].
  - answer; run_cbn; [caught; cbn; discriminate|].
    answer; run_cbn; [caught; cbn; discriminate|].
    answer; run_cbn; [caught; cbn; discriminate|].
    match goal with o : option thrown |- _ => destruct o end; run_cbn;
      [|cbn; reflexivity].
    answer; run_cbn; [caught|]; cbn; discriminate.
  - answer; run_cbn; [caught; cbn; discriminate|].
    answer; run_cbn; [caught; cbn; discriminate|].
    answer; run_cbn; [caught; cbn; discriminate|cbn; reflexivity].
  - answer; run_cbn; [caught; cbn; discriminate|].
    answer; run_cbn; [caught; cbn; discriminate|].
    answer; run_cbn; [caught; cbn; discriminate|cbn; reflexivity].
Qed.

(** C10: the ids [list] and [listDrafts] return are [mailbox:n] with [n]
    the sequence number of the fetch event of the message, whatever its
    UID; and when the sequence number of a message differs from its UID,
    such an id decodes, in [get], [delete], [markAsRead] and
    [markAsUnread], to a mailbox and UID other than the message's own.
    That pair is what those operations address: it is the only mailbox
    they open and the only UID their fetch, move and flag commands name,
    and when every call goes through they do open that mailbox and issue
    the fetch, the move or the flag command for that UID. *)
Theorem listed_ids_carry_sequence_numbers config FatalErrors sanitizeContext now
    params draftParams st page mb seq u :
  (result (run handle (ImapMailManager.list config FatalErrors sanitizeContext params) st)
     = inr page ->
   map thread_id (threads page) =
   map (fun ev => ImapMailManager.normalizeMailbox (ListParams.folder params)
                  +:+ ":" +:+ JS.string_of_Z (seqno ev))
       (fetched (trace (run handle
                          (ImapMailManager.list config FatalErrors sanitizeContext params) st)))) /\
  (result (run handle
             (ImapMailManager.listDrafts config FatalErrors sanitizeContext draftParams) st)
     = inr page ->
   map thread_id (threads page) =
   map (fun ev => "Drafts" +:+ ":" +:+ JS.string_of_Z (seqno ev))
       (fetched (trace (run handle
                          (ImapMailManager.listDrafts config FatalErrors sanitizeContext
                             draftParams) st)))) /\
  (seq <> u ->
   let id := mb +:+ ":" +:+ JS.string_of_Z seq in
   let went (A : Type) (p : prog A) :=
     forallb ev_went_through (trace (run handle p st)) = true in
   let calls (A : Type) (p : prog A) := script (trace (run handle p st)) in
   (ImapMailManager.mailboxOrInbox id, ImapMailManager.uidOf id) <> (mb, Some u) /\
   (ImapMailManager.mailboxOf id, ImapMailManager.uidOf id) <> (mb, Some u) /\
   aims_at (trace (run handle (ImapMailManager.get config FatalErrors sanitizeContext now id) st))
           (ImapMailManager.mailboxOrInbox id) (ImapMailManager.uidOf id) /\
   aims_at (trace (run handle (ImapMailManager.delete config FatalErrors sanitizeContext id) st))
           (ImapMailManager.mailboxOrInbox id) (ImapMailManager.uidOf id) /\
   aims_at (trace (run handle
                     (ImapMailManager.markAsRead config FatalErrors sanitizeContext [id]) st))
           (ImapMailManager.mailboxOf id) (ImapMailManager.uidOf id) /\
   aims_at (trace (run handle
                     (ImapMailManager.markAsUnread config FatalErrors sanitizeContext [id]) st))
           (ImapMailManager.mailboxOf id) (ImapMailManager.uidOf id) /\
   (went _ (ImapMailManager.get config FatalErrors sanitizeContext now id) ->
    List.filter imap_action
      (calls _ (ImapMailManager.get config FatalErrors sanitizeContext now id))
    = [AConnect; AOpenBox (ImapMailManager.mailboxOrInbox id);
       AFetch [ImapMailManager.uidOf id]
         {| bodies := ""; struct := true; markSeen := true |}]) /\
   (went _ (ImapMailManager.delete config FatalErrors sanitizeContext id) ->
    calls _ (ImapMailManager.delete config FatalErrors sanitizeContext id)
    = [AConnect; AOpenBox (ImapMailManager.mailboxOrInbox id);
       AMove [ImapMailManager.uidOf id] "Trash"]) /\
   (went _ (ImapMailManager.markAsRead config FatalErrors sanitizeContext [id]) ->
    calls _ (ImapMailManager.markAsRead config FatalErrors sanitizeContext [id])
    = [AConnect; AOpenBox (ImapMailManager.mailboxOf id);
       AAddFlags [ImapMailManager.uidOf id] "\Seen"]) /\
   (went _ (ImapMailManager.markAsUnread config FatalErrors sanitizeContext [id]) ->
    calls _ (ImapMailManager.markAsUnread config FatalErrors sanitizeContext [id])
    = [AConnect; AOpenBox (ImapMailManager.mailboxOf id);
       ADelFlags [ImapMailManager.uidOf id] "\Seen"])).
Proof.
  split; [apply list_thread_ids|].
  split; [apply listDrafts_thread_ids|].
  intros Hne id went calls.
  destruct (seqno_id_decodes_elsewhere mb seq u Hne) as [H1 H2].
  destruct (decoded_pair_is_addressed config FatalErrors sanitizeContext now id st)
    as (Hg & Hd & Hr & Hu).
  split; [exact H1|]. split; [exact H2|].
  split; [apply get_aims|]. split; [apply delete_aims|].
  split; [apply markAsRead_aims|]. split; [apply markAsUnread_aims|].
  repeat split; assumption.
Qed.

(** The thread [get] returns holds one message: the conversion of the
    email [simpleParser] made of the fetched source. *)
Lemma get_converts_what_was_parsed config FatalErrors sanitizeContext now id st r :
  let o := run handle (ImapMailManager.get config FatalErrors sanitizeContext now id) st in
  result o = inr r ->
  exists parsedEmail,
    parsed_mails (trace o) = [parsedEmail] /\
    IGetThreadResponse.latest r =
      ImapMailManager.convertToAppMessage now parsedEmail id
        (ImapMailManager.mailboxOrInbox id) /\
    IGetThreadResponse.messages r = [IGetThreadResponse.latest r] /\
    IGetThreadResponse.hasUnread r = ParsedMessage.unread (IGetThreadResponse.latest r).
Proof.
  unfold ImapMailManager.get. run_cbn.
  answer; run_cbn; [caught; cbn; congruence|].
  answer; run_cbn; [caught; cbn; congruence|].
  answer; run_cbn; [caught; cbn; congruence|].
  match goal with |- context [map ImapMailManager.collect ?l] => destruct l end;
    cbn [map]; run_cbn; [caught; cbn; congruence|].
  answer; run_cbn; [caught; cbn; congruence|].
  cbn. intros [= <-]. eexists. repeat split.
Qed.

(** What the conversion computes, given a flag set: the [unread] field of a
    converted message is true exactly when the flag set of the parsed email
    is absent or does not contain [\Seen]; with a flag set that lacks
    [\Seen] it is true, with one that contains it it is false.  The message
    of the thread [get] returns is such a conversion, of the email parsed
    from the fetched source, and [hasUnread] is its [unread] field. *)
Theorem unread_unless_seen config FatalErrors sanitizeContext now email id mailbox st r :
  let msg := ImapMailManager.convertToAppMessage now email id mailbox in
  let o := run handle (ImapMailManager.get config FatalErrors sanitizeContext now id) st in
  ((ParsedMessage.unread msg = true <->
    ParsedMail.flags email = None \/
    exists fl, ParsedMail.flags email = Some fl /\ ~ In "\Seen" fl) /\
   (forall fl, ParsedMail.flags email = Some fl ->
               (~ In "\Seen" fl -> ParsedMessage.unread msg = true) /\
               (In "\Seen" fl -> ParsedMessage.unread msg = false))) /\
  (result o = inr r ->
   exists parsedEmail,
     parsed_mails (trace o) = [parsedEmail] /\
     IGetThreadResponse.latest r =
       ImapMailManager.convertToAppMessage now parsedEmail id
         (ImapMailManager.mailboxOrInbox id) /\
     IGetThreadResponse.messages r = [IGetThreadResponse.latest r] /\
     IGetThreadResponse.hasUnread r = ParsedMessage.unread (IGetThreadResponse.latest r)).
Proof.
  split.
  - apply convertToAppMessage_unread.
  - apply get_converts_what_was_parsed.
Qed.

(** The part of pagination that holds: a search that finds nothing yields an
    empty page and no token. *)
Lemma list_of_empty_uid_set config FatalErrors sanitizeContext params st :
  let o := run handle (ImapMailManager.list config FatalErrors sanitizeContext params) st in
  0 <= default 100 (ListParams.maxResults params) ->
  searches (trace o) = [inr []] ->
  result o = inr {| threads := []; nextPageToken := None |}.
Proof.
  cbv zeta. intros Hmax. unfold ImapMailManager.list. run_cbn.
  answer; run_cbn; [caught; cbn; congruence|].
  answer; run_cbn; [caught; cbn; congruence|].
  answer; run_cbn; [caught; cbn; congruence|].
  cbn [searches searched app]. intros [= -> _].
  change (JS.sort_desc []) with (@nil Z). unfold JS.slice0. rewrite firstn_nil.
  cbn. change (Z.of_nat 0) with 0.
  destruct (0 >? default 100 (ListParams.maxResults params)) eqn:E;
    [apply Z.gtb_lt in E; lia | reflexivity].
Qed.

End AnyWorld.


(** ** Scenarios against the mail server *)

(** The page token takes no part in what [list] does. *)
Lemma list_ignores_pageToken config FatalErrors sanitizeContext folder query maxResults
    labelIds token token' :
  ImapMailManager.list config FatalErrors sanitizeContext
    {| ListParams.folder := folder; ListParams.query := query;
       ListParams.maxResults := maxResults; ListParams.labelIds := labelIds;
       ListParams.pageToken := token |} =
  ImapMailManager.list config FatalErrors sanitizeContext
    {| ListParams.folder := folder; ListParams.query := query;
       ListParams.maxResults := maxResults; ListParams.labelIds := labelIds;
       ListParams.pageToken := token' |}.
Proof. reflexivity. Qed.

(** The example of the spec: UIDs 5, 3, 9, 1 and [maxResults = 2].  The
    first page fetches the UIDs 9 and 5 and hands out the token ["4:2"];
    the ids it returns carry the sequence numbers 3 and 4 of those
    messages. *)
Example first_page_of_four :
  let o := run MailServer.handle (testList (listOf "inbox" 2 None))
             (MailServer.account [1; 3; 5; 9], ∅) in
  fetch_uids (trace o) = [[Some 9; Some 5]] /\
  page_ids (result o) = Some (["INBOX:3"; "INBOX:4"], Some "4:2").
Proof. split; vm_compute; reflexivity. Qed.

(** C1: with the token ["2:2"] of the first page re-supplied, the listing of
    an INBOX holding the UIDs 1 to 4 fetches the UIDs 4 and 3 again and
    returns these two messages; both UIDs are above the cursor 2 of the
    token, below which only UID 1 lies. *)
Theorem list_resupplied_token_repeats_first_page :
  let o := run MailServer.handle (testList (listOf "INBOX" 2 (Some "2:2")))
             (MailServer.account [1; 2; 3; 4], ∅) in
  JS.parseInt (JS.split ":" "2:2" !! 0%nat) = Some 2 /\
  fetch_uids (trace o) = [[Some 4; Some 3]] /\
  map attrs_uid (fetched (trace o)) = [3; 4] /\
  page_ids (result o) = Some (["INBOX:3"; "INBOX:4"], Some "2:2") /\
  forallb (fun ev => 2 <=? attrs_uid ev) (fetched (trace o)) = true.
Proof. cbv zeta. repeat split; vm_compute; reflexivity. Qed.

Lemma first_call_opens_inbox :
  run MailServer.handle (testList (listOf "INBOX" 2 None)) (MailServer.account [1; 2; 3; 4], ∅)
  = run MailServer.handle (testList (listOf "INBOX" 2 None)) (inbox_open [1; 2; 3; 4], ∅).
Proof. vm_compute. reflexivity. Qed.

Lemma later_call_repeats :
  let o := run MailServer.handle (testList (listOf "INBOX" 2 None))
             (inbox_open [1; 2; 3; 4], ∅) in
  final o = (inbox_open [1; 2; 3; 4], ∅) /\
  page_ids (result o) = Some (["INBOX:3"; "INBOX:4"], Some "2:2").
Proof. split; vm_compute; reflexivity. Qed.

Lemma following_from_open_inbox (n : nat) token :
  let pages := followPages MailServer.handle testList n (listOf "INBOX" 2 token)
                 (inbox_open [1; 2; 3; 4], ∅) in
  length pages = n /\
  Forall (fun page => page_ids (inr page) = Some (["INBOX:3"; "INBOX:4"], Some "2:2")) pages.
Proof.
  revert token. induction n as [|n IH]; intros token; [split; [reflexivity | constructor]|].
  cbn [followPages].
  change (testList (listOf "INBOX" 2 token)) with (testList (listOf "INBOX" 2 None)).
  destruct later_call_repeats as [Hf Hp].
  destruct (run MailServer.handle (testList (listOf "INBOX" 2 None))
              (inbox_open [1; 2; 3; 4], ∅))
    as [f tr [e|page]]; cbn [final result page_ids] in *; [discriminate Hp|].
  subst f. injection Hp as Hids Htok. rewrite Htok.
  specialize (IH (Some "2:2")). cbv zeta in IH. destruct IH as [IHl IHf].
  split.
  - cbn [length]. f_equal. exact IHl.
  - constructor; [cbn [page_ids]; now rewrite Hids, Htok | exact IHf].
Qed.

(** C2: on an INBOX holding the UIDs 1 to 4, with [maxResults = 2], a caller
    that follows the tokens gets the same page and the same token ["2:2"]
    from every call: however many calls it makes, no call returns a null
    token, the UIDs 1 and 2 are never returned, and every page after the
    first duplicates it. *)
Theorem following_page_tokens_never_ends (calls : nat) :
  let pages := followPages MailServer.handle testList calls (listOf "INBOX" 2 None)
                 (MailServer.account [1; 2; 3; 4], ∅) in
  length pages = calls /\
  Forall (fun page => map thread_id (threads page) = ["INBOX:3"; "INBOX:4"] /\
                      nextPageToken page = Some "2:2") pages.
Proof.
  assert (H : forall n token,
             followPages MailServer.handle testList n (listOf "INBOX" 2 token)
               (MailServer.account [1; 2; 3; 4], ∅) =
             followPages MailServer.handle testList n (listOf "INBOX" 2 token)
               (inbox_open [1; 2; 3; 4], ∅)).
  { intros [|n] token; [reflexivity|]. cbn [followPages].
    change (testList (listOf "INBOX" 2 token)) with (testList (listOf "INBOX" 2 None)).
    now rewrite first_call_opens_inbox. }
  cbv zeta. rewrite H.
  destruct (following_from_open_inbox calls None) as [Hl Hf].
  split; [exact Hl|].
  eapply Forall_impl; [exact Hf|].
  intros page [= Hids Htok]. now split.
Qed.

(** C3 (as stated, at a concrete input): with no user id in the
    configuration, an authentication failure is classified as
    [AUTHENTICATION_ERROR] and no deletion of a connection record is
    triggered. *)
Lemma authentication_failure_without_user_id_deletes_nothing :
  let o := run MailServer.handle
             (ImapMailManager.list anonymousConfig testFatalErrors testSanitizeContext
                (listOf "INBOX" 10 None))
             (MailServer.locked_out [1], testStore) in
  verdict (result o) = Some ("AUTHENTICATION_ERROR", 401, true) /\
  existsb ev_is_delete_connection (trace o) = false.
Proof. split; vm_compute; reflexivity. Qed.

(** The same failure under the configuration of the test: the deletion is
    called for ["test-user"], and the store loses that record. *)
Example authentication_failure_deletes_the_record :
  let o := run MailServer.handle
             (ImapMailManager.list mockConfig testFatalErrors testSanitizeContext
                (listOf "INBOX" 10 None))
             (MailServer.locked_out [1], testStore) in
  verdict (result o) = Some ("AUTHENTICATION_ERROR", 401, true) /\
  existsb ev_is_delete_connection (trace o) = true /\
  snd (final o) = ∅.
Proof. repeat split; vm_compute; reflexivity. Qed.

(** The three signatures under the configuration of the test: a refused
    connection, a rejected login, an exhausted quota. *)
Lemma classifier_signatures_witness :
  let classify e :=
    run MailServer.handle
      (@ImapMailManager.handleError mockConfig testFatalErrors testSanitizeContext unit
         "list" [] (Raw e))
      (MailServer.account [1], testStore) in
  verdict (result (classify connectionRefused)) = Some ("CONNECTION_REFUSED", 503, true) /\
  (verdict (result (classify authenticationFailed)) = Some ("AUTHENTICATION_ERROR", 401, true) /\
   trace (classify authenticationFailed)
     = [Event (DeleteActiveConnection "test-user") (inr tt)]) /\
  verdict (result (classify quotaExceeded)) = Some ("QUOTA_ERROR", 507, false).
Proof.
  cbv zeta. split; [|split].
  - exact (proj1 (classifier_signatures MailServer.handle (T:=unit) mockConfig testFatalErrors
                    testSanitizeContext "list" [] (Raw connectionRefused)
                    (MailServer.account [1], testStore)) eq_refl).
  - destruct (proj1 (proj2 (classifier_signatures MailServer.handle (T:=unit) mockConfig
                              testFatalErrors testSanitizeContext "list" []
                              (Raw authenticationFailed)
                              (MailServer.account [1], testStore))) eq_refl)
      as (Hv & Hd & _).
    split; [exact Hv|]. apply Hd. discriminate.
  - exact (proj2 (proj2 (classifier_signatures MailServer.handle (T:=unit) mockConfig
                           testFatalErrors testSanitizeContext "list" [] (Raw quotaExceeded)
                           (MailServer.account [1], testStore)))
             _ eq_refl eq_refl eq_refl).
Defined.

(** C4 (as stated, at a concrete input): an error that matches no earlier
    signature and whose code is not in the allowlist is classified under the
    code [UNKNOWN_IMAP_ERROR], and as fatal, because its [response.status]
    is in the allowlist. *)
Lemma response_status_alone_makes_fatal :
  let o := run MailServer.handle
             (@ImapMailManager.handleError mockConfig testFatalErrors testSanitizeContext unit
                "list" [] (Raw revokedGrant))
             (MailServer.account [1], testStore) in
  earlier_signature revokedGrant = false /\
  JS.arr_includes testFatalErrors (code revokedGrant) = false /\
  verdict (result o) = Some ("UNKNOWN_IMAP_ERROR", 500, true).
Proof. repeat split; vm_compute; reflexivity. Qed.

(** A broken pipe matches no signature and is not in the allowlist: it is
    an unknown error that is not fatal. *)
Lemma unmatched_errors_are_unknown_witness :
  let o := run MailServer.handle
             (@ImapMailManager.handleError mockConfig testFatalErrors testSanitizeContext unit
                "list" [] (Raw brokenPipe))
             (MailServer.account [1], testStore) in
  earlier_signature brokenPipe = false /\
  verdict (result o) = Some ("UNKNOWN_IMAP_ERROR", 500, false) /\
  trace o = [].
Proof.
  cbv zeta. split; [reflexivity|].
  exact (unmatched_errors_are_unknown MailServer.handle (T:=unit) mockConfig testFatalErrors
           testSanitizeContext "list" [] (Raw brokenPipe)
           (MailServer.account [1], testStore) eq_refl).
Defined.

(** C5 (as stated, at a concrete input): on a session that is ready, with
    the INBOX selected, [connectImap] does not return at once: it calls
    [imap.connect()], and the session it leaves has no mailbox selected. *)
Lemma connect_on_ready_session_reconnects :
  let st := (inbox_open [1], testStore) in
  let o := run MailServer.handle ImapMailManager.connectImap st in
  MailServer.state (fst st) = MailServer.ready /\
  MailServer.selected (fst st) = Some "INBOX" /\
  trace o = [Event ImapConnect (inr tt)] /\
  MailServer.selected (fst (final o)) = None /\
  final o <> st.
Proof.
  cbv zeta. repeat split; try (vm_compute; reflexivity).
  intros H. apply (f_equal (fun s => MailServer.selected (fst s))) in H.
  vm_compute in H. discriminate H.
Qed.

(** An email flagged [\Answered] only, one flagged [\Seen] as well, and
    the message [get] returns for the only message of an INBOX. *)
Lemma unread_unless_seen_witness :
  let o := run MailServer.handle
             (ImapMailManager.get mockConfig testFatalErrors testSanitizeContext testNow
                "INBOX:1")
             (MailServer.account [1], testStore) in
  ParsedMessage.unread
    (ImapMailManager.convertToAppMessage testNow unseenMail "INBOX:1" "INBOX") = true /\
  ParsedMessage.unread
    (ImapMailManager.convertToAppMessage testNow seenMail "INBOX:1" "INBOX") = false /\
  (exists r, result o = inr r /\
             IGetThreadResponse.latest r =
               ImapMailManager.convertToAppMessage testNow
                 (MailServer.parsed "Subject: hello") "INBOX:1" "INBOX").
Proof.
  cbv zeta.
  pose proof (fun email r =>
                unread_unless_seen MailServer.handle mockConfig testFatalErrors
                  testSanitizeContext testNow email "INBOX:1" "INBOX"
                  (MailServer.account [1], testStore) r) as T.
  cbv zeta in T. split; [|split].
  - refine (proj1 (proj2 (proj1 (T unseenMail
                                   {| IGetThreadResponse.messages := [];
                                      IGetThreadResponse.latest :=
                                        ImapMailManager.convertToAppMessage testNow
                                          unseenMail "" "";
                                      IGetThreadResponse.hasUnread := true;
                                      IGetThreadResponse.totalReplies := 1;
                                      IGetThreadResponse.labels := [] |}))
                     _ eq_refl) _).
    intros [H|[]]. discriminate H.
  - refine (proj2 (proj2 (proj1 (T seenMail
                                   {| IGetThreadResponse.messages := [];
                                      IGetThreadResponse.latest :=
                                        ImapMailManager.convertToAppMessage testNow
                                          seenMail "" "";
                                      IGetThreadResponse.hasUnread := true;
                                      IGetThreadResponse.totalReplies := 1;
                                      IGetThreadResponse.labels := [] |}))
                     _ eq_refl) _).
    right. left. reflexivity.
  - assert (Hr : exists r,
               result (run MailServer.handle
                         (ImapMailManager.get mockConfig testFatalErrors
                            testSanitizeContext testNow "INBOX:1")
                         (MailServer.account [1], testStore)) = inr r)
      by (vm_compute; eexists; reflexivity).
    destruct Hr as [r Hr]. exists r. split; [exact Hr|].
    destruct (proj2 (T unseenMail r) Hr) as (parsedEmail & Hp & Hl & _).
    rewrite Hl. vm_compute in Hp. injection Hp as <-. reflexivity.
Defined.

(** C6 (the code against the claim): a message the server reports as seen
    comes back unread.  The fetch event of the message carries the flag
    [\Seen], and [get] returns [unread = true] and [hasUnread = true] for
    it.  The reason holds for every fetch and every world: what
    [fetchMessages] keeps of a fetch event is its sequence number and its
    body, whatever the attributes, and the parser sees that body alone; as
    long as the parsed email has no [flags] property, which the source of a
    message cannot give it, [get] reports unread. *)
Theorem seen_message_is_reported_unread :
  let o := run MailServer.handle
             (ImapMailManager.get mockConfig testFatalErrors testSanitizeContext testNow
                "INBOX:1")
             (seenInbox, ∅) in
  map attrs_flags (fetched (trace o)) = [["\Seen"]] /\
  option_map (fun r => (map ParsedMessage.unread (IGetThreadResponse.messages r),
                        IGetThreadResponse.hasUnread r))
             (match result o with inr r => Some r | inl _ => None end)
  = Some ([true], true) /\
  (forall ev uid' flags',
     ImapMailManager.collect ev
     = ImapMailManager.collect
         {| seqno := seqno ev; chunks := chunks ev;
            attrs_uid := uid'; attrs_flags := flags' |}) /\
  (forall (W : Type) (handle : forall R, cmd R -> W -> W * (thrown + R))
          config FatalErrors sanitizeContext now id st r,
     result (run handle (ImapMailManager.get config FatalErrors sanitizeContext now id) st)
     = inr r ->
     Forall (fun email => ParsedMail.flags email = None)
            (parsed_mails
               (trace (run handle
                         (ImapMailManager.get config FatalErrors sanitizeContext now id) st))) ->
     IGetThreadResponse.hasUnread r = true /\
     map ParsedMessage.unread (IGetThreadResponse.messages r) = [true]).
Proof.
  cbv zeta. split; [vm_compute; reflexivity|]. split; [vm_compute; reflexivity|].
  split; [reflexivity|].
  intros W handle config FatalErrors sanitizeContext now id st r Hr Hflags.
  destruct (get_converts_what_was_parsed handle config FatalErrors sanitizeContext now id
              st r Hr) as (parsedEmail & Hp & Hl & Hm & Hu).
  rewrite Hp in Hflags. apply Forall_inv in Hflags.
  rewrite Hu, Hm, Hl. cbn [map ParsedMessage.unread ImapMailManager.convertToAppMessage].
  rewrite Hflags. split; reflexivity.
Qed.

(** C7 (as stated, at a concrete input): against a server that refuses the
    connection, [delete] raises an error although neither a move nor a
    flag-set has failed: none was attempted. *)
Lemma delete_fails_before_any_move :
  let o := run MailServer.handle
             (ImapMailManager.delete mockConfig testFatalErrors testSanitizeContext "INBOX:1")
             (MailServer.unreachable [1], testStore) in
  verdict (result o) = Some ("CONNECTION_REFUSED", 503, true) /\
  existsb (ev_is_move false) (trace o) = false /\
  existsb (ev_is_addFlags false) (trace o) = false.
Proof. repeat split; vm_compute; reflexivity. Qed.

(** [delete] on the server: with a Trash box the move goes through; without
    one the move is answered with an error and the flag is set instead;
    for an id whose UID part is no number the library refuses the move
    before it is sent, and the fallback is not tried. *)
Example delete_paths :
  let delete1 id w :=
    run MailServer.handle
      (ImapMailManager.delete mockConfig testFatalErrors testSanitizeContext id)
      (w, testStore) in
  (result (delete1 "INBOX:1" (MailServer.account [1])) = inr tt /\
   script (trace (delete1 "INBOX:1" (MailServer.account [1])))
   = [AConnect; AOpenBox "INBOX"; AMove [Some 1] "Trash"]) /\
  (result (delete1 "INBOX:1" (MailServer.bare [1])) = inr tt /\
   script (trace (delete1 "INBOX:1" (MailServer.bare [1])))
   = [AConnect; AOpenBox "INBOX"; AMove [Some 1] "Trash"; AAddFlags [Some 1] "\Deleted"]) /\
  (verdict (result (delete1 "INBOX:abc" (MailServer.bare [1])))
   = Some ("UNKNOWN_IMAP_ERROR", 500, false) /\
   script (trace (delete1 "INBOX:abc" (MailServer.bare [1])))
   = [AConnect; AOpenBox "INBOX"; AMove [JS.NaN] "Trash"]).
Proof. cbv zeta. repeat split; vm_compute; reflexivity. Qed.

(** The two ways [delete] succeeds, on the server: with a Trash box the
    message moves there; without one it stays and gets the [\Deleted]
    flag. *)
Example delete_moves_or_flags :
  let delete1 w :=
    fst (final (run MailServer.handle
                  (ImapMailManager.delete mockConfig testFatalErrors testSanitizeContext
                     "INBOX:7")
                  (w, testStore))) in
  map MailServer.msg_uid <$> MailServer.boxes (delete1 (MailServer.account [7])) !! "INBOX"
    = Some [] /\
  map MailServer.msg_uid <$> MailServer.boxes (delete1 (MailServer.account [7])) !! "Trash"
    = Some [1] /\
  map MailServer.msg_flags <$> MailServer.boxes (delete1 (MailServer.bare [7])) !! "INBOX"
    = Some [["\Deleted"]].
Proof. repeat split; vm_compute; reflexivity. Qed.

(** The hosts [imap.test.ts] expects. *)
Example hosts_of_common_providers :
  ImapMailManager.getImapHost "user@gmail.com" = inr "imap.gmail.com" /\
  ImapMailManager.getImapHost "user@outlook.com" = inr "outlook.office365.com" /\
  ImapMailManager.getImapHost "user@yahoo.com" = inr "imap.mail.yahoo.com" /\
  ImapMailManager.getImapHost "user@custom.com" = inr "imap.custom.com" /\
  ImapMailManager.getSmtpHost "user@gmail.com" = inr "smtp.gmail.com" /\
  ImapMailManager.getSmtpHost "user@outlook.com" = inr "smtp.office365.com" /\
  ImapMailManager.getSmtpHost "user@yahoo.com" = inr "smtp.mail.yahoo.com" /\
  ImapMailManager.getSmtpHost "user@custom.com" = inr "smtp.custom.com" /\
  ImapMailManager.getImapHost "User@GMail.Com" = inr "imap.gmail.com".
Proof. repeat split; reflexivity. Qed.

(** A domain outside the provider table falls back to [imap.<domain>] and
    [smtp.<domain>]. *)
Lemma hosts_of_unknown_domain (domain : string) :
  ~ In domain ["gmail.com"; "outlook.com"; "hotmail.com"; "live.com";
               "yahoo.com"; "aol.com"; "icloud.com"] ->
  ImapMailManager.imapHostOfDomain domain = "imap." +:+ domain /\
  ImapMailManager.smtpHostOfDomain domain = "smtp." +:+ domain.
Proof.
  intros H. unfold ImapMailManager.imapHostOfDomain, ImapMailManager.smtpHostOfDomain.
  repeat match goal with
         | |- context [String.eqb domain ?d] =>
             destruct (String.eqb_spec domain d) as [->|_];
             [exfalso; apply H; cbn; tauto|]
         end.
  split; reflexivity.
Qed.

(** The constructor reads the email and the secret of the configuration and
    nothing else. *)
Lemma constructor_reads_email_and_secret (c1 c2 : ManagerConfig) :
  email (auth c1) = email (auth c2) ->
  accessToken (auth c1) = accessToken (auth c2) ->
  ImapMailManager.constructor c1 = ImapMailManager.constructor c2.
Proof.
  unfold ImapMailManager.constructor. now intros -> ->.
Qed.

(** C8: a login that names its own servers and ports is tested by the route
    against those servers, and stored with them, but the driver made for it
    connects to the hosts derived from the email's domain, on the ports 993
    and 465: the constructor has no way to receive the overrides, and the
    driver of a login is the driver of the same login without them. *)
Theorem driver_drops_server_overrides :
  imap_host (Route.testClientOptions customLogin) = "mail.corp.example" /\
  imap_port (Route.testClientOptions customLogin) = 1143 /\
  Route.insertedRow customLogin =
    {| Route.row_imapServer := "mail.corp.example";
       Route.row_smtpServer := "relay.corp.example";
       Route.row_imapPort := 1143; Route.row_smtpPort := 2525 |} /\
  endpoints (ImapMailManager.constructor (Route.driverConfig "user-1" customLogin))
    = Some ("imap.gmail.com", 993, "smtp.gmail.com", 465) /\
  forall user_id input,
    ImapMailManager.constructor (Route.driverConfig user_id input) =
    ImapMailManager.constructor
      (Route.driverConfig user_id
         {| Route.email := Route.email input; Route.password := Route.password input;
            Route.imapServer := None; Route.smtpServer := None;
            Route.imapPort := None; Route.smtpPort := None |}).
Proof.
  repeat split; try reflexivity.
Qed.

(** C9 (as stated, at a concrete input): on an account without a ["Sent"]
    mailbox, [create] succeeds and [smtp.sendMail] has been called once. *)
Lemma create_without_sent_box_sends_once :
  let o := run MailServer.handle
             (ImapMailManager.create mockConfig testFatalErrors testSanitizeContext
                helloMessage)
             (MailServer.bare [1], testStore) in
  result o = inr (Some "<0@smtp>") /\
  length (sent_mails (trace o)) = 1%nat.
Proof. split; vm_compute; reflexivity. Qed.

(** On an account with a ["Sent"] mailbox the message goes out twice, the
    second time under an envelope. *)
Lemma create_sends_again_when_sent_opens_witness :
  let o := run MailServer.handle
             (ImapMailManager.create mockConfig testFatalErrors testSanitizeContext
                helloMessage)
             (MailServer.account [1], testStore) in
  result o = inr (Some "<0@smtp>") /\
  (exists mail, sent_mails (trace o) = [mail; ImapMailManager.withEnvelope mail]) /\
  existsb ev_is_append (trace o) = false.
Proof.
  cbv zeta.
  assert (H : result (run MailServer.handle
                        (ImapMailManager.create mockConfig testFatalErrors
                           testSanitizeContext helloMessage)
                        (MailServer.account [1], testStore)) = inr (Some "<0@smtp>"))
    by (vm_compute; reflexivity).
  split; [exact H|].
  destruct (create_sends_again_when_sent_opens MailServer.handle mockConfig testFatalErrors
              testSanitizeContext helloMessage (MailServer.account [1], testStore) _ H)
    as [[mail Hm] Ha].
  split; [|exact Ha]. exists mail. rewrite Hm. vm_compute. reflexivity.
Defined.

(** What the double send leaves on the server: two messages handed to SMTP,
    and a ["Sent"] mailbox that is still empty. *)
Example create_leaves_sent_empty :
  let w := fst (final (run MailServer.handle
                         (ImapMailManager.create mockConfig testFatalErrors
                            testSanitizeContext helloMessage)
                         (MailServer.account [1], testStore))) in
  length (MailServer.outbox w) = 2%nat /\
  MailServer.boxes w !! "Sent" = Some [].
Proof. split; vm_compute; reflexivity. Qed.

(** The INBOX holds the UIDs 1, 3, 5 and 9.  The page of two lists the
    messages with the UIDs 5 and 9 under the ids [INBOX:3] and [INBOX:4],
    their sequence numbers.  With the id [INBOX:3], [get] fetches,
    [markAsRead] flags and [delete] moves the message with the UID 3, and
    the listed message with the UID 5 stays as it was. *)
Lemma listed_ids_carry_sequence_numbers_witness :
  let start := (MailServer.account [1; 3; 5; 9], ∅) in
  let o := run MailServer.handle (testList (listOf "inbox" 2 None)) start in
  let read := run MailServer.handle
                (ImapMailManager.markAsRead mockConfig testFatalErrors testSanitizeContext
                   ["INBOX:3"]) start in
  let deleted := run MailServer.handle
                   (ImapMailManager.delete mockConfig testFatalErrors testSanitizeContext
                      "INBOX:3") start in
  map attrs_uid (fetched (trace o)) = [5; 9] /\
  (exists page, result o = inr page /\
                map thread_id (threads page) = ["INBOX:3"; "INBOX:4"]) /\
  (ImapMailManager.mailboxOrInbox "INBOX:3", ImapMailManager.uidOf "INBOX:3")
    <> ("INBOX", Some 5) /\
  aims_at (trace (run MailServer.handle
                    (ImapMailManager.get mockConfig testFatalErrors testSanitizeContext
                       testNow "INBOX:3") start))
          "INBOX" (Some 3) /\
  (script (trace read) = [AConnect; AOpenBox "INBOX"; AAddFlags [Some 3] "\Seen"] /\
   map (fun m => (MailServer.msg_uid m, MailServer.msg_flags m))
     <$> MailServer.boxes (fst (final read)) !! "INBOX"
   = Some [(1, []); (3, ["\Seen"]); (5, []); (9, [])]) /\
  (script (trace deleted) = [AConnect; AOpenBox "INBOX"; AMove [Some 3] "Trash"] /\
   map MailServer.msg_uid <$> MailServer.boxes (fst (final deleted)) !! "INBOX"
   = Some [1; 5; 9]).
Proof.
  cbv zeta. unfold testList.
  pose proof (fun page =>
                listed_ids_carry_sequence_numbers MailServer.handle mockConfig
                  testFatalErrors testSanitizeContext testNow (listOf "inbox" 2 None)
                  {| ListDraftsParams.q := None; ListDraftsParams.maxResults := None;
                     ListDraftsParams.pageToken := None |}
                  (MailServer.account [1; 3; 5; 9], ∅) page "INBOX" 3 5) as T.
  split; [vm_compute; reflexivity|]. split.
  - assert (Hp : exists page,
               result (run MailServer.handle
                         (ImapMailManager.list mockConfig testFatalErrors
                            testSanitizeContext (listOf "inbox" 2 None))
                         (MailServer.account [1; 3; 5; 9], ∅)) = inr page)
      by (vm_compute; eexists; reflexivity).
    destruct Hp as [page Hp]. exists page. split; [exact Hp|].
    rewrite (proj1 (T page) Hp). vm_compute. reflexivity.
  - destruct (proj2 (proj2 (T {| threads := []; nextPageToken := None |}))
                ltac:(discriminate)) as (H1 & _ & Hget & _ & _ & _ & _ & Hdel & Hread & _).
    split; [exact H1|]. split; [exact Hget|]. split; split.
    + exact (Hread ltac:(vm_compute; reflexivity)).
    + vm_compute. reflexivity.
    + exact (Hdel ltac:(vm_compute; reflexivity)).
    + vm_compute. reflexivity.
Defined.

(** What [get] then acts on: the id ["INBOX:3"] listed for the message with
    UID 5 makes [get] fetch, and mark as seen, the message with UID 3. *)
Example get_of_listed_id_reads_another_message :
  let o := run MailServer.handle
             (ImapMailManager.get mockConfig testFatalErrors testSanitizeContext testNow
                "INBOX:3")
             (MailServer.account [1; 3; 5; 9], ∅) in
  map attrs_uid (fetched (trace o)) = [3] /\
  map (fun m => (MailServer.msg_uid m, MailServer.msg_flags m))
    <$> MailServer.boxes (fst (final o)) !! "INBOX"
    = Some [(1, []); (3, ["\Seen"]); (5, []); (9, [])].
Proof. split; vm_compute; reflexivity. Qed.

(** The array [sort_desc] returns is in descending order and holds the same
    UIDs. *)
Lemma insert_desc_perm (x : Z) (l : list Z) : Permutation (x :: l) (JS.insert_desc x l).
Proof.
  induction l as [|y l IH]; cbn [JS.insert_desc]; [reflexivity|].
  destruct (y <=? x); [reflexivity|].
  rewrite Permutation_swap. now constructor.
Qed.

Lemma sort_desc_perm (l : list Z) : Permutation l (JS.sort_desc l).
Proof.
  induction l as [|x l IH]; cbn [JS.sort_desc]; [reflexivity|].
  rewrite <- insert_desc_perm. now constructor.
Qed.

Lemma insert_desc_sorted (x : Z) (l : list Z) :
  Sorted Z.ge l -> Sorted Z.ge (JS.insert_desc x l).
Proof.
  induction 1 as [|y l Hs IH Hd]; cbn [JS.insert_desc]; [repeat constructor|].
  destruct (Z.leb_spec y x).
  - constructor; [now constructor | constructor; lia].
  - constructor; [exact IH|].
    destruct Hd as [|z l Hyz]; cbn [JS.insert_desc]; [constructor; lia|].
    destruct (z <=? x); constructor; lia.
Qed.

Lemma sort_desc_sorted (l : list Z) : Sorted Z.ge (JS.sort_desc l).
Proof.
  induction l as [|x l IH]; cbn [JS.sort_desc]; [constructor|].
  now apply insert_desc_sorted.
Qed.

Example javascript_primitives :
  JS.parseInt (Some "42") = Some 42 /\ JS.parseInt (Some " -7x") = Some (-7) /\
  JS.parseInt (Some "abc") = None /\ JS.parseInt None = None /\
  JS.split ":" "INBOX:12" = ["INBOX"; "12"] /\ JS.split ":" "" = [""] /\
  JS.toString (Some 120) = "120" /\ JS.toString (JS.sub None (Some 1)) = "NaN" /\
  JS.sort_desc [5; 3; 9; 1] = [9; 5; 3; 1] /\
  JS.slice0 [9; 5; 3; 1] 2 = [9; 5] /\ JS.slice0 [9; 5; 3; 1] (-1) = [9; 5; 3] /\
  JS.includes "disk quota exceeded" "quota" = true /\
  JS.toLowerCase "GMail.COM" = "gmail.com".
Proof. repeat split; reflexivity. Qed.

(** The folder names [imap.test.ts] expects. *)
Example normalizeMailbox_examples :
  ImapMailManager.normalizeMailbox "inbox" = "INBOX" /\
  ImapMailManager.normalizeMailbox "sent" = "Sent" /\
  ImapMailManager.normalizeMailbox "trash" = "Trash" /\
  ImapMailManager.normalizeMailbox "custom" = "custom".
Proof. repeat split; reflexivity. Qed.

(** * More of the driver, the form and the routes *)

(** ** Splitting at a character *)

Lemma has_char_decompose (c : ascii) (s : string) :
  has_char c s = true ->
  exists a b, s = a +:+ String c b /\ has_char c a = false.
Proof.
  induction s as [|x s IH]; cbn [has_char]; [discriminate|].
  destruct (Ascii.eqb x c) eqn:Ex.
  - intros _. apply Ascii.eqb_eq in Ex as ->. now exists "", s.
  - cbn [orb]. intros H. destruct (IH H) as (a & b & -> & Ha).
    exists (String x a), b. split; [reflexivity|].
    cbn [has_char]. now rewrite Ex, Ha.
Qed.

Lemma has_char_app (c : ascii) (a b : string) :
  has_char c (a +:+ b) = has_char c a || has_char c b.
Proof.
  induction a as [|x a IH]; [reflexivity|].
  change (String x a +:+ b) with (String x (a +:+ b)).
  cbn [has_char]. now rewrite IH, orb_assoc.
Qed.

Lemma split_second (c : ascii) (s : string) :
  has_char c s = true -> exists d, JS.split c s !! 1%nat = Some d /\ has_char c d = false.
Proof.
  intros H. destruct (has_char_decompose c s H) as (a & b & -> & Ha).
  rewrite (split_at_first_separator _ _ _ Ha).
  destruct (split_head c b) as (h & t & E & Hh). rewrite E. now exists h.
Qed.

Lemma split_second_iff (c : ascii) (s : string) :
  JS.split c s !! 1%nat = None <-> has_char c s = false.
Proof.
  split.
  - destruct (has_char c s) eqn:H; [|reflexivity].
    destruct (split_second c s H) as (d & -> & _). discriminate.
  - intros H. now rewrite (split_without_separator _ _ H).
Qed.

Lemma includes_char (c : ascii) (s : string) :
  JS.includes s (String c "") = has_char c s.
Proof.
  induction s as [|x s IH]; cbn [JS.includes has_char String.prefix]; [reflexivity|].
  destruct (ascii_dec c x) as [->|Hne].
  - rewrite Ascii.eqb_refl. now destruct s.
  - assert (E : Ascii.eqb x c = false) by (apply Ascii.eqb_neq; congruence).
    now rewrite E, IH.
Qed.

Lemma id_splits (mb : string) (n : Z) :
  has_char ":" mb = false ->
  JS.split ":" (mb +:+ ":" +:+ JS.string_of_Z n) = [mb; JS.string_of_Z n].
Proof.
  intros Hmb.
  change (":" +:+ JS.string_of_Z n) with (String ":" (JS.string_of_Z n)).
  rewrite (split_at_first_separator _ _ _ Hmb).
  now rewrite (split_without_separator _ _ (string_of_Z_without_colon n)).
Qed.

Lemma split_head_of_append (c : ascii) (a b : string) :
  has_char c a = true -> JS.split c (a +:+ b) !! 0%nat <> Some a.
Proof.
  intros Ha E.
  destruct (split_head c (a +:+ b)) as (h & t & Es & Hh).
  rewrite Es in E. cbn in E. congruence.
Qed.

Lemma append_assoc (a b c : string) : (a +:+ b) +:+ c = a +:+ (b +:+ c).
Proof.
  induction a as [|x a IH]; [reflexivity|].
  change (String x a +:+ b) with (String x (a +:+ b)).
  change (String x (a +:+ b) +:+ c) with (String x ((a +:+ b) +:+ c)).
  change (String x a +:+ (b +:+ c)) with (String x (a +:+ (b +:+ c))).
  now rewrite IH.
Qed.

Lemma prefix_append_self (p s : string) : String.prefix p (p +:+ s) = true.
Proof.
  induction p as [|c p IH]; [now destruct s|].
  change (String c p +:+ s) with (String c (p +:+ s)). cbn [String.prefix].
  destruct (ascii_dec c c); [exact IH|congruence].
Qed.

(** ** Message ids, mailbox names, hosts *)

(** X1: an id [mailbox:uid], as [list] builds it, decodes back to the same
    mailbox and UID exactly when the mailbox name contains no colon; with
    the [parts[0] || 'INBOX'] of [get] and [delete] the name must also be
    non-empty. *)
Theorem thread_id_round_trip (mb : string) (n : Z) :
  let id := mb +:+ ":" +:+ JS.string_of_Z n in
  ((ImapMailManager.mailboxOf id = mb /\ ImapMailManager.uidOf id = Some n)
   <-> has_char ":" mb = false) /\
  ((ImapMailManager.mailboxOrInbox id = mb /\ ImapMailManager.uidOf id = Some n)
   <-> has_char ":" mb = false /\ mb <> "").
Proof.
  intros id.
  unfold ImapMailManager.mailboxOrInbox, ImapMailManager.mailboxOf, ImapMailManager.uidOf.
  destruct (has_char ":" mb) eqn:Hmb.
  - pose proof (split_head_of_append ":" mb (":" +:+ JS.string_of_Z n) Hmb) as Hne.
    fold id in Hne.
    split; split; try (intros [? ?]; discriminate); try discriminate.
    + intros [E _]. destruct (JS.split ":" id !! 0%nat) as [h|] eqn:Eh; cbn in E.
      * congruence.
      * subst mb. discriminate Hmb.
    + intros [E _]. destruct (JS.split ":" id !! 0%nat) as [[|a h]|] eqn:Eh; cbn in E;
        try (subst mb; discriminate Hmb).
      congruence.
  - subst id. rewrite (id_splits _ _ Hmb). cbn [lookup list_lookup default JS.or_else].
    rewrite parseInt_string_of_Z.
    split; split; auto.
    + intros [E _]. split; [reflexivity|]. intros ->. discriminate E.
    + intros [_ Hne]. split; [|reflexivity]. destruct mb; [congruence|reflexivity].
Qed.

(** X2: the id [createDraft] returns has no colon, so it names no message:
    it decodes to the UID [NaN], and the whole id is taken for the
    mailbox. *)
Theorem draft_id_names_no_message (millis : Z) (suffix : string) :
  has_char ":" suffix = false ->
  let id := "draft-" +:+ JS.string_of_Z millis +:+ "-" +:+ suffix in
  ImapMailManager.uidOf id = JS.NaN /\
  ImapMailManager.mailboxOf id = id /\
  ImapMailManager.mailboxOrInbox id = id.
Proof.
  intros Hs id.
  assert (Hid : has_char ":" id = false).
  { subst id. rewrite !has_char_app, Hs, string_of_Z_without_colon. reflexivity. }
  unfold ImapMailManager.uidOf, ImapMailManager.mailboxOf, ImapMailManager.mailboxOrInbox.
  rewrite (split_without_separator _ _ Hid). cbn [lookup list_lookup default JS.parseInt].
  repeat split.
Qed.

Lemma draft_id_names_no_message_witness :
  has_char ":" "k3x9q0zpa" = false /\
  ImapMailManager.uidOf "draft-1700000000000-k3x9q0zpa" = JS.NaN /\
  ImapMailManager.mailboxOf "draft-1700000000000-k3x9q0zpa"
  = "draft-1700000000000-k3x9q0zpa".
Proof.
  split; [reflexivity|].
  pose proof (draft_id_names_no_message 1700000000000 "k3x9q0zpa" eq_refl) as H.
  cbv zeta in H. destruct H as (Hu & Hm & _). split; [exact Hu | exact Hm].
Defined.

Lemma normalizeMailbox_cases (folder : string) :
  ImapMailManager.normalizeMailbox folder = folder \/
  In (ImapMailManager.normalizeMailbox folder) ImapMailManager.countedFolders.
Proof.
  unfold ImapMailManager.normalizeMailbox, ImapMailManager.countedFolders.
  repeat match goal with
         | |- context [if ?b then _ else _] => destruct b
         end; cbn; auto 10.
Qed.

(** X3: [normalizeMailbox] recognises its aliases whatever their case: a
    name whose lower-case form is inbox, sent, drafts, bin, trash, spam or
    archive is mapped to the mailbox of that alias, so names that differ
    only in case from a recognised one are mapped alike; every other name
    is returned unchanged.  The result is the argument or one of the six
    folders [count] reports, and normalizing twice changes nothing. *)
Theorem normalizeMailbox_recognises_aliases (folder : string) :
  (forall alias canonical,
     In (alias, canonical)
        [("inbox", "INBOX"); ("sent", "Sent"); ("drafts", "Drafts"); ("bin", "Trash");
         ("trash", "Trash"); ("spam", "Spam"); ("archive", "Archive")] ->
     JS.toLowerCase folder = alias ->
     ImapMailManager.normalizeMailbox folder = canonical) /\
  (~ In (JS.toLowerCase folder)
        ["inbox"; "sent"; "drafts"; "bin"; "trash"; "spam"; "archive"] ->
   ImapMailManager.normalizeMailbox folder = folder) /\
  (forall other,
     JS.toLowerCase other = JS.toLowerCase folder ->
     In (ImapMailManager.normalizeMailbox folder) ImapMailManager.countedFolders ->
     ImapMailManager.normalizeMailbox other = ImapMailManager.normalizeMailbox folder) /\
  (ImapMailManager.normalizeMailbox folder = folder \/
   In (ImapMailManager.normalizeMailbox folder) ImapMailManager.countedFolders) /\
  ImapMailManager.normalizeMailbox (ImapMailManager.normalizeMailbox folder)
  = ImapMailManager.normalizeMailbox folder.
Proof.
  split; [|split; [|split; [|split]]].
  - intros alias canonical Hin E. unfold ImapMailManager.normalizeMailbox. rewrite E.
    cbn [In] in Hin.
    repeat (destruct Hin as [[= <- <-]|Hin]; [reflexivity|]). contradiction.
  - intros Hno. unfold ImapMailManager.normalizeMailbox.
    repeat match goal with
           | |- context [String.eqb (JS.toLowerCase folder) ?c] =>
               destruct (String.eqb_spec (JS.toLowerCase folder) c) as [E|_];
               [exfalso; apply Hno; rewrite E; cbn; tauto|]
           end.
    reflexivity.
  - intros other E. unfold ImapMailManager.normalizeMailbox, ImapMailManager.countedFolders.
    rewrite E.
    repeat match goal with
           | |- context [if ?b then _ else _] => destruct b eqn:?
           end; try reflexivity.
    cbn [In]. intros H.
    repeat (destruct H as [H|H]; [subst folder; vm_compute in *; congruence|]).
    contradiction.
  - apply normalizeMailbox_cases.
  - destruct (normalizeMailbox_cases folder) as [E|H].
    + now rewrite E.
    + cbn in H. intuition (subst; try reflexivity; try contradiction).
      all: match goal with H : _ = ImapMailManager.normalizeMailbox _ |- _ =>
             rewrite <- H end; reflexivity.
Qed.

(** X4: the constructor throws a [TypeError] exactly when the address has
    no ['@']; otherwise it connects to the hosts of the lower-cased text
    between the first and the second ['@'], always on the ports 993 and
    465. *)
Theorem constructor_throws_without_at (config : ManagerConfig) :
  let address := email (auth config) in
  if has_char "@" address
  then exists d,
         JS.split "@" address !! 1%nat = Some d /\
         has_char "@" d = false /\
         endpoints (ImapMailManager.constructor config)
         = Some (ImapMailManager.imapHostOfDomain (JS.toLowerCase d), 993,
                 ImapMailManager.smtpHostOfDomain (JS.toLowerCase d), 465)
  else ImapMailManager.constructor config
       = inl (TypeError "Cannot read properties of undefined (reading 'toLowerCase')").
Proof.
  cbv zeta.
  unfold ImapMailManager.constructor, ImapMailManager.getImapHost,
    ImapMailManager.getSmtpHost, ImapMailManager.domainOf.
  destruct (has_char "@" (email (auth config))) eqn:H.
  - destruct (split_second _ _ H) as (d & E & Hd). exists d. now rewrite E.
  - apply split_second_iff in H. now rewrite H.
Qed.

Lemma form_servers_are_driver_hosts (domain : string) :
  ImapForm.serversOfDomain domain
  = (ImapMailManager.imapHostOfDomain domain, ImapMailManager.smtpHostOfDomain domain).
Proof.
  unfold ImapForm.serversOfDomain, ImapMailManager.imapHostOfDomain,
    ImapMailManager.smtpHostOfDomain.
  repeat match goal with
         | |- context [if ?b then _ else _] => destruct b
         end; reflexivity.
Qed.

(** X5: [handleEmailChange] never throws.  Without an ['@'] it only stores
    the address; with one it fills in the servers and ports which the
    driver's constructor computes for that address. *)
Theorem form_autodetects_the_drivers_servers (prev : ImapForm.formData) (value : string) :
  if has_char "@" value
  then exists fd,
         ImapForm.handleEmailChange prev value = inr fd /\
         ImapForm.email fd = value /\
         ImapForm.password fd = ImapForm.password prev /\
         forall user_id secret token,
           endpoints (ImapMailManager.constructor
                        {| auth := {| userId := user_id; accessToken := secret;
                                      refreshToken := token; email := value |} |})
           = Some (ImapForm.imapServer fd, ImapForm.imapPort fd,
                   ImapForm.smtpServer fd, ImapForm.smtpPort fd)
  else ImapForm.handleEmailChange prev value
       = inr {| ImapForm.email := value;
                ImapForm.password := ImapForm.password prev;
                ImapForm.imapServer := ImapForm.imapServer prev;
                ImapForm.smtpServer := ImapForm.smtpServer prev;
                ImapForm.imapPort := ImapForm.imapPort prev;
                ImapForm.smtpPort := ImapForm.smtpPort prev |}.
Proof.
  unfold ImapForm.handleEmailChange. rewrite includes_char.
  destruct (has_char "@" value) eqn:H; [|reflexivity].
  destruct (split_second _ _ H) as (d & E & Hd). rewrite E.
  eexists. split; [reflexivity|]. cbn [ImapForm.email ImapForm.password
    ImapForm.imapServer ImapForm.smtpServer ImapForm.imapPort ImapForm.smtpPort].
  split; [reflexivity|]. split; [reflexivity|].
  intros user_id secret token.
  unfold ImapMailManager.constructor, ImapMailManager.getImapHost,
    ImapMailManager.getSmtpHost, ImapMailManager.domainOf.
  cbn [auth email]. rewrite E, form_servers_are_driver_hosts. reflexivity.
Qed.

Lemma or_else_nonempty (s d : string) :
  s <> "" -> JS.or_else (ImapForm.orUndefined s) d = s.
Proof. destruct s; [congruence|reflexivity]. Qed.

Lemma imapHostOfDomain_nonempty (d : string) : ImapMailManager.imapHostOfDomain d <> "".
Proof.
  unfold ImapMailManager.imapHostOfDomain.
  repeat match goal with
         | |- context [if ?b then _ else _] => destruct b
         end; discriminate.
Qed.

Lemma smtpHostOfDomain_nonempty (d : string) : ImapMailManager.smtpHostOfDomain d <> "".
Proof.
  unfold ImapMailManager.smtpHostOfDomain.
  repeat match goal with
         | |- context [if ?b then _ else _] => destruct b
         end; discriminate.
Qed.

(** X6: when the form is submitted with the servers it filled in for the
    address, the route tests and stores exactly the hosts and ports the
    driver will connect to. *)
Theorem autodetected_form_reaches_the_drivers_servers
    (prev fd : ImapForm.formData) (value user_id : string) :
  has_char "@" value = true ->
  ImapForm.handleEmailChange prev value = inr fd ->
  let input := ImapForm.submitted fd in
  let stored := Route.insertedRow input in
  endpoints (ImapMailManager.constructor (Route.driverConfig user_id input))
  = Some (Route.row_imapServer stored, Route.row_imapPort stored,
          Route.row_smtpServer stored, Route.row_smtpPort stored) /\
  imap_host (Route.testClientOptions input) = Route.row_imapServer stored /\
  imap_port (Route.testClientOptions input) = Route.row_imapPort stored.
Proof.
  intros H. unfold ImapForm.handleEmailChange. rewrite includes_char, H.
  destruct (split_second _ _ H) as (d & E & Hd). rewrite E.
  intros [= <-]. cbv zeta.
  unfold Route.insertedRow, Route.testClientOptions, Route.driverConfig,
    ImapForm.submitted, ImapMailManager.constructor, ImapMailManager.getImapHost,
    ImapMailManager.getSmtpHost, ImapMailManager.domainOf.
  cbn [Route.email Route.password Route.imapServer Route.smtpServer Route.imapPort
       Route.smtpPort ImapForm.email ImapForm.password ImapForm.imapServer
       ImapForm.smtpServer ImapForm.imapPort ImapForm.smtpPort
       auth email accessToken imap_host imap_port Route.row_imapServer Route.row_imapPort
       Route.row_smtpServer Route.row_smtpPort].
  rewrite E, form_servers_are_driver_hosts. cbn [fst snd endpoints
       imap_host imap_port smtp_host smtp_port].
  rewrite !or_else_nonempty
    by (apply imapHostOfDomain_nonempty || apply smtpHostOfDomain_nonempty).
  repeat split.
Qed.

Lemma autodetected_form_reaches_the_drivers_servers_witness :
  exists fd,
    ImapForm.handleEmailChange ImapForm.initial "Ada@Outlook.com" = inr fd /\
    endpoints (ImapMailManager.constructor
                 (Route.driverConfig "user-1" (ImapForm.submitted fd)))
    = Some ("outlook.office365.com", 993, "smtp.office365.com", 465) /\
    imap_host (Route.testClientOptions (ImapForm.submitted fd)) = "outlook.office365.com".
Proof.
  eexists. split; [vm_compute; reflexivity|].
  match goal with
  | |- context [ImapForm.submitted ?fd] =>
      pose proof (autodetected_form_reaches_the_drivers_servers ImapForm.initial fd
                    "Ada@Outlook.com" "user-1" eq_refl eq_refl) as H
  end.
  cbv zeta in H. destruct H as (He & Hh & _). split; [exact He | exact Hh].
Defined.

(** X7: without server settings in the input, the route tests and stores
    [imap.<domain>] and [smtp.<domain>]; for a lower-case domain these are
    the driver's hosts exactly when the domain is none of outlook.com,
    hotmail.com, live.com, yahoo.com and icloud.com. *)
Theorem route_defaults_against_driver (user_id address secret d : string) :
  JS.split "@" address !! 1%nat = Some d ->
  JS.toLowerCase d = d ->
  let input := {| Route.email := address; Route.password := secret;
                  Route.imapServer := None; Route.smtpServer := None;
                  Route.imapPort := None; Route.smtpPort := None |} in
  let stored := Route.insertedRow input in
  imap_host (Route.testClientOptions input) = "imap." +:+ d /\
  (endpoints (ImapMailManager.constructor (Route.driverConfig user_id input))
   = Some (Route.row_imapServer stored, Route.row_imapPort stored,
           Route.row_smtpServer stored, Route.row_smtpPort stored)
   <-> ~ In d ["outlook.com"; "hotmail.com"; "live.com"; "yahoo.com"; "icloud.com"]).
Proof.
  intros E Hl. cbv zeta.
  unfold Route.insertedRow, Route.testClientOptions, Route.driverConfig,
    Route.default_server, ImapMailManager.constructor, ImapMailManager.getImapHost,
    ImapMailManager.getSmtpHost, ImapMailManager.domainOf.
  cbn [Route.email Route.password Route.imapServer Route.smtpServer Route.imapPort
       Route.smtpPort auth email accessToken imap_host imap_port Route.row_imapServer
       Route.row_imapPort Route.row_smtpServer Route.row_smtpPort JS.or_else Route.port_or].
  rewrite E, Hl. cbn [endpoints imap_host imap_port smtp_host smtp_port].
  split; [reflexivity|].
  unfold ImapMailManager.imapHostOfDomain, ImapMailManager.smtpHostOfDomain.
  repeat match goal with
         | |- context [String.eqb d ?c] =>
             destruct (String.eqb_spec d c) as [->|?]
         end; cbn [orb In]; split; intros H; try reflexivity;
    try (intros Hin; intuition congruence); try discriminate H;
    try (exfalso; apply H; tauto).
Qed.

Lemma route_defaults_against_driver_witness :
  let input := {| Route.email := "ada@yahoo.com"; Route.password := "secret";
                  Route.imapServer := None; Route.smtpServer := None;
                  Route.imapPort := None; Route.smtpPort := None |} in
  imap_host (Route.testClientOptions input) = "imap.yahoo.com" /\
  endpoints (ImapMailManager.constructor (Route.driverConfig "user-1" input))
  = Some ("imap.mail.yahoo.com", 993, "smtp.mail.yahoo.com", 465).
Proof.
  cbv zeta. split.
  - exact (proj1 (route_defaults_against_driver "user-1" "ada@yahoo.com" "secret"
                    "yahoo.com" eq_refl eq_refl)).
  - reflexivity.
Defined.

(** ** The tree of mailboxes *)

(** The names of a box and of the boxes below it: as many as there are
    boxes, each starting with the prefix. *)
Lemma extractBox_names :
  forall (box : Box) (prefix : string),
    length (ImapMailManager.extractBox prefix box) = boxCount box /\
    Forall (fun name => JS.startsWith name prefix = true)
           (ImapMailManager.extractBox prefix box).
Proof.
  fix IH 1. intros [name children] prefix. cbn [ImapMailManager.extractBox boxCount].
  set (fullName := if JS.truthy (Some prefix) then prefix +:+ name else name).
  assert (Hfull : forall s, JS.startsWith (fullName +:+ s) prefix = true).
  { intros s. subst fullName. unfold JS.startsWith.
    destruct prefix as [|c p]; cbn [JS.truthy].
    - now destruct (name +:+ s).
    - rewrite append_assoc. apply prefix_append_self. }
  split.
  - cbn [length]. f_equal. destruct children as [cs|]; [|reflexivity].
    generalize (fullName +:+ "/").
    intros q. induction cs as [|c cs IHcs]; [reflexivity|].
    cbn [flat_map map list_sum]. rewrite length_app, IHcs.
    now rewrite (proj1 (IH c q)).
  - constructor.
    + unfold JS.startsWith. subst fullName.
      destruct prefix as [|c p]; cbn [JS.truthy]; [now destruct name|].
      apply prefix_append_self.
    + destruct children as [cs|]; [|constructor].
      induction cs as [|c cs IHcs]; [constructor|].
      cbn [flat_map]. apply Forall_app. split; [|exact IHcs].
      eapply Forall_impl; [exact (proj2 (IH c (fullName +:+ "/")))|].
      intros n Hn. unfold JS.startsWith in *.
      destruct (String.prefix (fullName +:+ "/") n) eqn:E; [|discriminate Hn].
      clear Hn. specialize (Hfull "/"). unfold JS.startsWith in Hfull.
      revert E Hfull. generalize (fullName +:+ "/"). intros q E Hq.
      clear -E Hq. revert n q E Hq.
      induction prefix as [|a p IHp]; intros n q E Hq; [now destruct n|].
      destruct q as [|b q]; [discriminate Hq|].
      destruct n as [|d n]; [discriminate E|].
      cbn [String.prefix] in *.
      destruct (ascii_dec a b) as [->|]; [|discriminate Hq].
      destruct (ascii_dec b d) as [->|]; [|discriminate E].
      now apply (IHp n q).
Qed.

(** X8: [extractBoxes] yields one name per mailbox of the tree, nested ones
    included, and every name starts with the prefix it was called with. *)
Theorem extractBoxes_names_every_box (prefix : string) (boxObj : list Box) :
  length (ImapMailManager.extractBoxes prefix boxObj) = list_sum (map boxCount boxObj) /\
  Forall (fun name => JS.startsWith name prefix = true)
         (ImapMailManager.extractBoxes prefix boxObj).
Proof.
  unfold ImapMailManager.extractBoxes.
  induction boxObj as [|box boxes [IHl IHf]]; [split; [reflexivity|constructor]|].
  cbn [flat_map map list_sum]. destruct (extractBox_names box prefix) as [Hl Hf].
  split.
  - now rewrite length_app, Hl, IHl.
  - apply Forall_app. now split.
Qed.

(** ** Scripts of the operations *)

Lemma script_app (a b : list event) : script (a ++ b) = script a ++ script b.
Proof. induction a as [|e a IH]; cbn [script app]; [reflexivity|now rewrite IH]. Qed.

Lemma existsb_script_app (f : action -> bool) (a b : list event) :
  existsb f (script (a ++ b)) = existsb f (script a) || existsb f (script b).
Proof.
  induction a as [|e a IH]; cbn [script app existsb]; [reflexivity|].
  now rewrite IH, orb_assoc.
Qed.

Lemma parses_request_nothing (tr : list event) :
  forallb ev_is_parse tr = true ->
  requests tr = [] /\ searches tr = [] /\ existsb writes (script tr) = false /\
  existsb imap_action (script tr) = false /\ omap ev_opened tr = [].
Proof.
  induction tr as [|[R c r] tr IH]; [cbn; auto|].
  cbn [forallb]. intros H. apply andb_prop in H as [Hc Htr].
  destruct c; try discriminate Hc.
  destruct (IH Htr) as (H1 & H2 & H3 & H4 & H5).
  cbn [requests requested searches searched script act shape existsb writes imap_action
       app orb].
  repeat split; auto.
Qed.

Lemma concat_of_nils {A B} (xs : list A) : concat (map (fun _ : A => @nil B) xs) = [].
Proof. induction xs; cbn; auto. Qed.

Lemma code_is_inv (e : RawError) (c : string) :
  ImapMailManager.code_is e c = true -> code e = Some c.
Proof.
  unfold ImapMailManager.code_is. destruct (code e) as [v|]; [|discriminate].
  intros H. apply String.eqb_eq in H. now subst.
Qed.

(** ** The page of a listing *)

Lemma in_skipn {A} (v : A) (k : nat) (l : list A) : In v (skipn k l) -> In v l.
Proof.
  intros H. rewrite <- (firstn_skipn k l). apply in_or_app. now right.
Qed.

Lemma strongly_sorted_split (l : list Z) (k : nat) :
  StronglySorted Z.ge l ->
  Forall (fun v => Forall (fun u => v <= u) (firstn k l)) (skipn k l).
Proof.
  intros H. revert k. induction H as [|x l Hl IH Hx]; intros k.
  - rewrite skipn_nil. constructor.
  - destruct k as [|k]; cbn [firstn skipn].
    + apply List.Forall_forall. intros v _. constructor.
    + specialize (IH k). rewrite List.Forall_forall in IH |- *.
      intros v Hv. constructor.
      * rewrite List.Forall_forall in Hx. specialize (Hx v (in_skipn _ _ _ Hv)).
        lia.
      * now apply IH.
Qed.

Lemma sort_desc_strongly_sorted (l : list Z) : StronglySorted Z.ge (JS.sort_desc l).
Proof.
  apply Sorted_StronglySorted; [|apply sort_desc_sorted].
  intros a b c ? ?. lia.
Qed.

(** [slice(0, maxResults)] keeps a prefix of the array, of [maxResults]
    elements when there are that many. *)
Lemma slice0_is_prefix {A} (arr : list A) (e : Z) :
  exists k, JS.slice0 arr e = firstn k arr /\
            (0 <= e -> k = Z.to_nat (Z.min e (Z.of_nat (length arr)))).
Proof.
  unfold JS.slice0. eexists. split; [reflexivity|].
  intros H. destruct (e <? 0) eqn:E; [apply Z.ltb_lt in E; lia|reflexivity].
Qed.

(** The page cut from the sorted UIDs holds the largest of them. *)
Lemma newest_page (uids : list Z) (e : Z) :
  let page := JS.slice0 (JS.sort_desc uids) e in
  exists rest,
    Permutation uids (page ++ rest) /\
    Forall (fun v => Forall (fun u => v <= u) page) rest /\
    (0 <= e -> Z.of_nat (length page) = Z.min e (Z.of_nat (length uids))).
Proof.
  cbv zeta. destruct (slice0_is_prefix (JS.sort_desc uids) e) as (k & -> & Hk).
  exists (skipn k (JS.sort_desc uids)). split; [|split].
  - rewrite firstn_skipn. apply sort_desc_perm.
  - apply strongly_sorted_split, sort_desc_strongly_sorted.
  - intros H. rewrite (Hk H), length_firstn.
    rewrite <- (Permutation_length (sort_desc_perm uids)). lia.
Qed.

Lemma token_is_null_iff (n maxResults : Z) (token : string) :
  (if n >? maxResults then Some token else None) = None <-> n <= maxResults.
Proof.
  destruct (n >? maxResults) eqn:E.
  - apply Z.gtb_lt in E. split; [discriminate|lia].
  - split; [|reflexivity]. intros _.
    destruct (Z.gtb_spec n maxResults); [discriminate|lia].
Qed.

Section Operations.

Context {W : Type} (handle : forall R, cmd R -> W -> W * (thrown + R)).
Variable config : ManagerConfig.
Variable FatalErrors : list string.
Variable sanitizeContext : Context -> Context.

(** Unfold one layer of a running operation. *)
Ltac run_cbn :=
  cbn [run bind try_catch step await for_of all_map fst snd final trace result
       ImapMailManager.withErrorHandler ImapMailManager.connectImap
       ImapMailManager.openMailbox ImapMailManager.searchEmails
       ImapMailManager.fetchMessages ImapMailManager.parseEmail].

(** Case on what the world answers to the next call. *)
Ltac answer :=
  match goal with
  | |- context [let (_, _) := ?x in _] => destruct x as [? [?|?]]
  end.

(** What the catch block does: it throws a classified error that carries
    the operation's name and the sanitized context, and issues at most the
    deletion of the connection record of the configured user. *)
Lemma handleError_run {T} name ctx caught st :
  let o := run handle
             (@ImapMailManager.handleError config FatalErrors sanitizeContext T
                name ctx caught) st in
  exists e,
    result o = inl (Std e) /\
    operation e = name /\
    context e = sanitizeContext {| entries := ctx; error := view caught |} /\
    In (std_code e, status e)
       [("CONNECTION_REFUSED", 503); ("AUTHENTICATION_ERROR", 401); ("TLS_ERROR", 502);
        ("QUOTA_ERROR", 507); ("SMTP_ERROR", 502); ("CAPABILITY_ERROR", 501);
        ("UNKNOWN_IMAP_ERROR", 500)] /\
    (trace o = [] \/
     trace o = [Event (DeleteActiveConnection (userId (auth config))) (inr tt)] /\
     std_code e = "AUTHENTICATION_ERROR").
Proof.
  cbv zeta. unfold ImapMailManager.handleError.
  repeat match goal with
         | |- context [if ?b then _ else _] => destruct b
         end; cbn; eexists; (split; [reflexivity|]); cbn; intuition auto 10.
Qed.

(** The run has reached the catch block. *)
Ltac thrown_away :=
  match goal with
  | |- context [run _ (@ImapMailManager.handleError ?c ?f ?s ?T ?op ?ctx ?t) ?st] =>
      let Hres := fresh "Hres" in
      let Htr := fresh "Htr" in
      destruct (handleError_run (T:=T) op ctx t st)
        as (? & Hres & _ & _ & _ & [Htr | [Htr _]]);
      cbv zeta in Hres, Htr; rewrite ?Hres, ?Htr
  end.

(** X9: [withErrorHandler] hands a result through untouched, with the same
    calls; a failure it turns into a [StandardizedError] that carries the
    operation's name, the sanitized context of the caught error and one of
    seven (code, status) pairs, after at most one more call, the deletion
    of the connection record on an authentication error. *)
Theorem withErrorHandler_passes_or_classifies {T} (name : string) (fn : prog T) st :
  let o0 := run handle fn st in
  let o := run handle
             (ImapMailManager.withErrorHandler config FatalErrors sanitizeContext
                name fn) st in
  match result o0 with
  | inr v => o = o0
  | inl caught =>
      exists e,
        result o = inl (Std e) /\
        operation e = name /\
        context e = sanitizeContext {| entries := []; error := view caught |} /\
        In (std_code e, status e)
           [("CONNECTION_REFUSED", 503); ("AUTHENTICATION_ERROR", 401); ("TLS_ERROR", 502);
            ("QUOTA_ERROR", 507); ("SMTP_ERROR", 502); ("CAPABILITY_ERROR", 501);
            ("UNKNOWN_IMAP_ERROR", 500)] /\
        (script (trace o) = script (trace o0) \/
         script (trace o)
         = script (trace o0) ++ [ADeleteConnection (userId (auth config))] /\
         std_code e = "AUTHENTICATION_ERROR")
  end.
Proof.
  cbv zeta. unfold ImapMailManager.withErrorHandler. rewrite run_try_catch.
  destruct (run handle fn st) as [f0 tr0 [caught|v]]; cbn [result final trace]; [|reflexivity].
  destruct (handleError_run (T:=T) name [] caught f0)
    as (e & Hres & Hop & Hctx & Hkind & Htr).
  cbv zeta in Hres, Htr.
  exists e. cbn [result trace]. rewrite script_app.
  repeat split; auto.
  destruct Htr as [->|[-> ?]]; [left; apply app_nil_r|right; auto].
Qed.

(** A loop whose rounds have a fixed plan: the loop's script is the plans
    of its rounds on success, and a prefix of them in any case. *)
Lemma for_of_script {A} (xs : list A) (body : A -> prog unit) (plan : A -> list action) :
  (forall x st,
     let o := run handle (body x) st in
     script (trace o) `prefix_of` plan x /\
     (result o = inr tt -> script (trace o) = plan x)) ->
  forall st,
    let o := run handle (for_of xs body) st in
    script (trace o) `prefix_of` concat (map plan xs) /\
    (result o = inr tt -> script (trace o) = concat (map plan xs)).
Proof.
  intros Hbody. induction xs as [|x xs IH]; intros st; cbv zeta; cbn [for_of map concat].
  - cbn. split; [apply prefix_nil|reflexivity].
  - rewrite run_bind. destruct (Hbody x st) as [Hp Hs]. cbv zeta in Hp, Hs.
    destruct (run handle (body x) st) as [f1 tr1 [e1|[]]]; cbn [result final trace] in *.
    + split; [|discriminate]. now apply prefix_app_r.
    + rewrite script_app, (Hs eq_refl).
      destruct (IH f1) as [IHp IHs]. cbv zeta in IHp, IHs.
      split; [now apply prefix_app|].
      intros H. now rewrite (IHs H).
Qed.

(** A round that opens a mailbox and issues one command. *)
Lemma round_script (c : cmd unit) (mailbox : string) st :
  let o := run handle (bind (ImapMailManager.openMailbox mailbox) (fun _ => await c)) st in
  script (trace o) `prefix_of` [AOpenBox mailbox; shape c] /\
  (result o = inr tt -> script (trace o) = [AOpenBox mailbox; shape c]).
Proof.
  cbv zeta. run_cbn. answer; run_cbn.
  - split; [|discriminate]. now exists [shape c].
  - answer; run_cbn; cbn [script act shape]; split; auto; try discriminate.
Qed.

(** A round that opens a mailbox and issues one command whose callback
    receives the error. *)
Lemma callback_round_script (c : cmd (option thrown)) (mailbox : string) st :
  let o := run handle
             (bind (ImapMailManager.openMailbox mailbox) (fun _ => awaitCallback c)) st in
  script (trace o) `prefix_of` [AOpenBox mailbox; shape c] /\
  (result o = inr tt -> script (trace o) = [AOpenBox mailbox; shape c]).
Proof.
  cbv zeta. unfold awaitCallback. run_cbn. answer; run_cbn.
  - split; [|discriminate]. now exists [shape c].
  - answer; run_cbn; cbn [script act shape]; [split; auto; discriminate|].
    match goal with o : option thrown |- _ => destruct o end;
      cbn [run trace result script act shape]; split; auto; discriminate.
Qed.

(** An operation that connects and then runs a loop, under the error
    handler. *)
Lemma connected_loop_script {A} (operation : string) (xs : list A) (body : A -> prog unit)
    (plan : A -> list action) st :
  (forall x st,
     let o := run handle (body x) st in
     script (trace o) `prefix_of` plan x /\
     (result o = inr tt -> script (trace o) = plan x)) ->
  let o := run handle
             (ImapMailManager.withErrorHandler config FatalErrors sanitizeContext operation
                (bind ImapMailManager.connectImap (fun _ => for_of xs body))) st in
  let full := AConnect :: concat (map plan xs) in
  match result o with
  | inr _ => script (trace o) = full
  | inl _ =>
      exists done rest,
        script (trace o) = done ++ rest /\
        done `prefix_of` full /\
        (rest = [] \/ rest = [ADeleteConnection (userId (auth config))])
  end.
Proof.
  intros Hbody. cbv zeta.
  assert (Hin : let o0 := run handle
                  (bind ImapMailManager.connectImap (fun _ => for_of xs body)) st in
                script (trace o0) `prefix_of` AConnect :: concat (map plan xs) /\
                (result o0 = inr tt ->
                 script (trace o0) = AConnect :: concat (map plan xs))).
  { cbv zeta. run_cbn. answer; run_cbn; cbn [script act shape].
    - split; [|discriminate]. now apply prefix_cons, prefix_nil.
    - match goal with
      | |- context [run handle (for_of xs body) ?s] =>
          destruct (for_of_script xs body plan Hbody s) as [Hp Hs]
      end.
      cbv zeta in Hp, Hs. split.
      + now apply prefix_cons.
      + intros H. now rewrite (Hs H). }
  cbv zeta in Hin. destruct Hin as [Hp Hs].
  unfold ImapMailManager.withErrorHandler. rewrite run_try_catch.
  destruct (run handle (bind ImapMailManager.connectImap (fun _ => for_of xs body)) st)
    as [f0 tr0 [e0|[]]]; cbn [result final trace] in *.
  - destruct (handleError_run (T:=unit) operation [] e0 f0)
      as (e & Hres & _ & _ & _ & Htr).
    cbv zeta in Hres, Htr. rewrite Hres. rewrite script_app.
    exists (script tr0). eexists. split; [reflexivity|]. split; [exact Hp|].
    destruct Htr as [->|[-> _]]; cbn; auto.
  - now apply Hs.
Qed.

(** X10: [markAsRead] and [markAsUnread] connect once and then, for each id
    in order, open the mailbox the id decodes to and set or clear [\Seen]
    on its UID; on failure they have issued a prefix of that plan. *)
Theorem flag_operations_follow_their_plan (threadIds : list string) st :
  let plan (flag : list JS.num -> string -> action) :=
    AConnect ::
    concat (map (fun id => [AOpenBox (ImapMailManager.mailboxOf id);
                            flag [ImapMailManager.uidOf id] "\Seen"]) threadIds) in
  let stopped (o : outcome W unit) (full : list action) :=
    exists done rest,
      script (trace o) = done ++ rest /\
      done `prefix_of` full /\
      (rest = [] \/ rest = [ADeleteConnection (userId (auth config))]) in
  let read := run handle
                (ImapMailManager.markAsRead config FatalErrors sanitizeContext threadIds) st in
  let unread := run handle
                  (ImapMailManager.markAsUnread config FatalErrors sanitizeContext threadIds)
                  st in
  match result read with
  | inr _ => script (trace read) = plan AAddFlags
  | inl _ => stopped read (plan AAddFlags)
  end /\
  match result unread with
  | inr _ => script (trace unread) = plan ADelFlags
  | inl _ => stopped unread (plan ADelFlags)
  end.
Proof.
  cbv zeta. unfold ImapMailManager.markAsRead, ImapMailManager.markAsUnread. split.
  - match goal with
    | |- context [run handle (ImapMailManager.withErrorHandler _ _ _ ?op
                                (bind _ (fun _ => for_of ?xs ?body))) ?s] =>
        apply (connected_loop_script op xs body
                 (fun id => [AOpenBox (ImapMailManager.mailboxOf id);
                             AAddFlags [ImapMailManager.uidOf id] "\Seen"]) s)
    end.
    intros x st'. apply (round_script (ImapAddFlags [_] _)).
  - match goal with
    | |- context [run handle (ImapMailManager.withErrorHandler _ _ _ ?op
                                (bind _ (fun _ => for_of ?xs ?body))) ?s] =>
        apply (connected_loop_script op xs body
                 (fun id => [AOpenBox (ImapMailManager.mailboxOf id);
                             ADelFlags [ImapMailManager.uidOf id] "\Seen"]) s)
    end.
    intros x st'. apply (round_script (ImapDelFlags [_] _)).
Qed.

(** X11: [modifyLabels] moves every message to the first of [addLabels] and
    reads nothing else of its options: [removeLabels] and the further
    labels are ignored, and without a label to add it only connects. *)
Theorem modifyLabels_moves_to_the_first_label (messageIds : list string)
    (options : ModifyLabelsOptions) st :
  let o := run handle
             (ImapMailManager.modifyLabels config FatalErrors sanitizeContext
                messageIds options) st in
  let plan :=
    AConnect ::
    match addLabels options with
    | targetFolder :: _ =>
        concat (map (fun id => [AOpenBox (ImapMailManager.mailboxOf id);
                                AMove [ImapMailManager.uidOf id] targetFolder]) messageIds)
    | [] => []
    end in
  match result o with
  | inr _ => script (trace o) = plan
  | inl _ =>
      exists done rest,
        script (trace o) = done ++ rest /\
        done `prefix_of` plan /\
        (rest = [] \/ rest = [ADeleteConnection (userId (auth config))])
  end.
Proof.
  cbv zeta. unfold ImapMailManager.modifyLabels.
  destruct (addLabels options) as [|targetFolder others].
  - match goal with
    | |- context [run handle (ImapMailManager.withErrorHandler _ _ _ ?op
                                (bind _ (fun _ => for_of ?xs ?body))) ?s] =>
        pose proof (connected_loop_script op xs body (fun _ => []) s) as H
    end.
    cbv zeta in H. rewrite concat_of_nils in H. apply H.
    intros x st'. cbn. split; [apply prefix_nil|reflexivity].
  - match goal with
    | |- context [run handle (ImapMailManager.withErrorHandler _ _ _ ?op
                                (bind _ (fun _ => for_of ?xs ?body))) ?s] =>
        apply (connected_loop_script op xs body
                 (fun id => [AOpenBox (ImapMailManager.mailboxOf id);
                             AMove [ImapMailManager.uidOf id] targetFolder]) s)
    end.
    intros x st'. apply (callback_round_script (ImapMove [_] _)).
Qed.

(** One of the six rounds of [count]. *)
Lemma count_round (folder : string) st :
  let o := run handle
             (try_catch
                (bind (ImapMailManager.openMailbox folder) (fun _ =>
                   Call ImapBox (fun box =>
                     match box with
                     | inr (Some total) =>
                         Ret {| count_label := folder; count_count := total |}
                     | _ => Ret {| count_label := folder; count_count := 0 |}
                     end)))
                (fun _ => Ret {| count_label := folder; count_count := 0 |})) st in
  (exists total, result o = inr {| count_label := folder; count_count := total |}) /\
  existsb writes (script (trace o)) = false /\
  existsb (ev_is_connect false) (trace o) = false.
Proof.
  cbv zeta. run_cbn. answer; run_cbn; [cbn; eauto|].
  answer; run_cbn; [cbn; eauto|].
  match goal with |- context [match ?o with Some _ => _ | None => _ end] => destruct o end;
    cbn; eauto.
Qed.

Lemma count_rounds (folders : list string) st :
  let o := run handle
             (all_map folders (fun folder =>
                try_catch
                  (bind (ImapMailManager.openMailbox folder) (fun _ =>
                     Call ImapBox (fun box =>
                       match box with
                       | inr (Some total) =>
                           Ret {| count_label := folder; count_count := total |}
                       | _ => Ret {| count_label := folder; count_count := 0 |}
                       end)))
                  (fun _ => Ret {| count_label := folder; count_count := 0 |}))) st in
  (exists counts, result o = inr counts /\ map count_label counts = folders) /\
  existsb writes (script (trace o)) = false /\
  existsb (ev_is_connect false) (trace o) = false.
Proof.
  revert st. induction folders as [|folder folders IH]; intros st; cbv zeta.
  - cbn. eauto.
  - cbn [all_map]. rewrite run_bind.
    destruct (count_round folder st) as ((total & Hr) & Hw & Hc). cbv zeta in Hr, Hw, Hc.
    match goal with
    | |- context [run handle ?p st] =>
        change (run handle p st) with
          (run handle
             (try_catch
                (bind (ImapMailManager.openMailbox folder) (fun _ =>
                   Call ImapBox (fun box =>
                     match box with
                     | inr (Some total) =>
                         Ret {| count_label := folder; count_count := total |}
                     | _ => Ret {| count_label := folder; count_count := 0 |}
                     end)))
                (fun _ => Ret {| count_label := folder; count_count := 0 |})) st)
    end.
    destruct (run handle _ st) as [f1 tr1 r1]; cbn [result final trace] in *. subst r1.
    rewrite run_bind.
    destruct (IH f1) as ((counts & Hrs & Hl) & Hws & Hcs). cbv zeta in Hrs, Hws, Hcs.
    destruct (run handle (all_map folders _) f1) as [f2 tr2 r2];
      cbn [result final trace] in *. subst r2.
    cbn [run result trace final]. rewrite app_nil_r.
    rewrite existsb_script_app, existsb_app, Hw, Hws, Hc, Hcs.
    repeat split; eauto. eexists. split; [reflexivity|]. cbn. now rewrite Hl.
Qed.

(** X12: [count] fails only when the connect fails, and then it has opened
    no mailbox; otherwise it returns one entry for each of the six folders,
    in order, whatever happens to the single folders.  It changes nothing
    on the server. *)
Theorem count_fails_only_with_the_connect st :
  let o := run handle (ImapMailManager.count config FatalErrors sanitizeContext) st in
  existsb writes (script (trace o)) = false /\
  if existsb (ev_is_connect false) (trace o)
  then (exists e, result o = inl (Std e)) /\
       (script (trace o) = [AConnect] \/
        script (trace o) = [AConnect; ADeleteConnection (userId (auth config))])
  else exists counts,
         result o = inr counts /\
         map count_label counts = ImapMailManager.countedFolders.
Proof.
  cbv zeta. unfold ImapMailManager.count. run_cbn. answer; run_cbn.
  - thrown_away; cbn; eauto.
  - rewrite run_try_catch.
    match goal with
    | |- context [run handle (all_map ?fs ?b) ?s] =>
        destruct (count_rounds fs s) as ((counts & Hr & Hl) & Hw & Hc);
        cbv zeta in Hr, Hw, Hc;
        change (run handle (all_map fs b) s) with
          (run handle
             (all_map fs (fun folder =>
                try_catch
                  (bind (ImapMailManager.openMailbox folder) (fun _ =>
                     Call ImapBox (fun box =>
                       match box with
                       | inr (Some total) =>
                           Ret {| count_label := folder; count_count := total |}
                       | _ => Ret {| count_label := folder; count_count := 0 |}
                       end)))
                  (fun _ => Ret {| count_label := folder; count_count := 0 |}))) s);
        destruct (run handle (all_map fs _) s) as [f1 tr1 r1]
    end.
    cbn [result final trace] in *. subst r1. cbn [result trace].
    cbn [script act shape existsb writes ev_is_connect ok Bool.eqb orb].
    rewrite Hw, Hc. eauto.
Qed.

(** X13: when the fetch of [get], [getDraft] or [getAttachment] delivers no
    message, the operation fails with [UNKNOWN_IMAP_ERROR], status 500, not
    fatal, and the message names the operation. *)
Theorem missing_message_is_an_unknown_error now (id attachmentId : string) st :
  let got := run handle
               (ImapMailManager.get config FatalErrors sanitizeContext now id) st in
  let draft := run handle
                 (ImapMailManager.getDraft config FatalErrors sanitizeContext id) st in
  let attachment :=
    run handle
      (ImapMailManager.getAttachment config FatalErrors sanitizeContext id attachmentId) st in
  (existsb ev_fetched_nothing (trace got) = true ->
   verdict (result got) = Some ("UNKNOWN_IMAP_ERROR", 500, false) /\
   verdict_message (result got) = Some "IMAP operation get failed: Message not found") /\
  (existsb ev_fetched_nothing (trace draft) = true ->
   verdict (result draft) = Some ("UNKNOWN_IMAP_ERROR", 500, false) /\
   verdict_message (result draft) = Some "IMAP operation getDraft failed: Draft not found") /\
  (existsb ev_fetched_nothing (trace attachment) = true ->
   verdict (result attachment) = Some ("UNKNOWN_IMAP_ERROR", 500, false) /\
   verdict_message (result attachment)
   = Some "IMAP operation getAttachment failed: Message not found").
Proof.
  cbv zeta.
  unfold ImapMailManager.get, ImapMailManager.getDraft, ImapMailManager.getAttachment.
  split; [|split]; run_cbn.
  all: answer; run_cbn; [thrown_away; cbn; discriminate|].
  all: answer; run_cbn; [thrown_away; cbn; discriminate|].
  all: answer; run_cbn; [thrown_away; cbn; discriminate|].
  all: match goal with |- context [map ImapMailManager.collect ?l] => destruct l end;
    cbn [map]; run_cbn.
  all: try (intros _; split; reflexivity).
  all: answer; run_cbn; [thrown_away; cbn; discriminate|].
  all: try (cbn; discriminate).
  match goal with |- context [match ?o with Some _ => _ | None => _ end] => destruct o end;
    run_cbn; [cbn; discriminate | thrown_away; cbn; discriminate].
Qed.

(** X14: the result of [create] is decided by the sanitizer and the first
    send alone: once the first send has succeeded, [create] returns its
    message id whatever happens while the copy is saved.  Every mail handed
    to the transport carries the sanitizer's output as its body, and no
    message is moved, flagged or appended. *)
Theorem create_result_is_the_first_send (data : IOutgoingMessage.t) st :
  let o := run handle (ImapMailManager.create config FatalErrors sanitizeContext data) st in
  match sends (trace o) with
  | inr info :: _ => result o = inr (sent_messageId info)
  | _ => exists e, result o = inl (Std e)
  end /\
  Forall (fun mail => In (SendMailOptions.html mail) (sanitized (trace o)))
         (sent_mails (trace o)) /\
  existsb (fun a => match a with
                    | AMove _ _ | AAddFlags _ _ | ADelFlags _ _ | AAppend _ _ => true
                    | _ => false
                    end) (script (trace o)) = false.
Proof.
  cbv zeta.
  unfold ImapMailManager.create, ImapMailManager.prepareEmail, ImapMailManager.saveSentEmail.
  run_cbn.
  answer; run_cbn; [thrown_away; cbn; eauto|].
  answer; run_cbn; [thrown_away; cbn; eauto 10|].
  answer; run_cbn; [cbn; eauto 10|].
  answer; run_cbn; [cbn; eauto 10|].
  answer; cbn; eauto 10.
Qed.

(** X15: [sendDraft] sends at most once, and reaches the IMAP connection
    only after the send has succeeded; what it then opens and moves or
    flags is the mailbox and the UID its id decodes to. *)
Theorem sendDraft_sends_before_it_deletes (id : string) (data : IOutgoingMessage.t) st :
  let o := run handle
             (ImapMailManager.sendDraft config FatalErrors sanitizeContext id data) st in
  match sends (trace o) with
  | [] | [inl _] =>
      existsb imap_action (script (trace o)) = false /\ exists e, result o = inl (Std e)
  | [inr _] =>
      aims_at (trace o) (ImapMailManager.mailboxOrInbox id) (ImapMailManager.uidOf id)
  | _ => False
  end.
Proof.
  cbv zeta.
  unfold ImapMailManager.sendDraft, ImapMailManager.prepareEmail, ImapMailManager.delete.
  run_cbn.
  answer; run_cbn; [thrown_away; cbn; eauto|].
  answer; run_cbn; [thrown_away; cbn; eauto|].
  unfold aims_at.
  answer; run_cbn.
  { rewrite run_try_catch. thrown_away; cbn [result final trace];
      thrown_away; cbn; repeat constructor; cbn; auto. }
  answer; run_cbn.
  { rewrite run_try_catch. thrown_away; cbn [result final trace];
      thrown_away; cbn; repeat constructor; cbn; auto. }
  answer; run_cbn.
  { rewrite run_try_catch. thrown_away; cbn [result final trace];
      thrown_away; cbn; repeat constructor; cbn; auto. }
  match goal with o : option thrown |- _ => destruct o end; run_cbn;
    [|cbn; repeat constructor; cbn; auto].
  answer; run_cbn; [|cbn; repeat constructor; cbn; auto].
  rewrite run_try_catch. thrown_away; cbn [result final trace];
    thrown_away; cbn; repeat constructor; cbn; auto.
Qed.

(** A rejected login, caught by the handler of the operation [name]. *)
Lemma handleError_of_rejected_login {T} (name : string) (caught : thrown) st :
  ImapMailManager.code_is (view caught) "AUTHENTICATIONFAILED" = true ->
  result (run handle
            (@ImapMailManager.handleError config FatalErrors sanitizeContext T
               name [] caught) st)
  = inl (Std {| std_code := "AUTHENTICATION_ERROR";
                status := 401;
                operation := name;
                std_message := "IMAP authentication failed. Please check your credentials.";
                context := sanitizeContext {| entries := []; error := view caught |};
                fatal := true |}).
Proof.
  intros H. apply code_is_inv in H.
  unfold ImapMailManager.handleError, ImapMailManager.code_is. rewrite H.
  cbn [String.eqb Ascii.eqb Bool.eqb orb].
  destruct (JS.truthy (Some (userId (auth config)))); cbn; auto.
Qed.

(** X16: in [sendDraft] the error of the inner [delete] passes through two
    handlers.  When the mail has gone out and the login for the deletion is
    then rejected, the caller does not get the [AUTHENTICATION_ERROR] of
    the inner handler but an [UNKNOWN_IMAP_ERROR] with status 500, fatal
    only if ["AUTHENTICATION_ERROR"] is among the fatal codes. *)
Theorem sendDraft_reclassifies_a_rejected_login (id : string) (data : IOutgoingMessage.t) st :
  let o := run handle
             (ImapMailManager.sendDraft config FatalErrors sanitizeContext id data) st in
  existsb ev_send_ok (trace o) = true ->
  existsb (ev_connect_failed_with "AUTHENTICATIONFAILED") (trace o) = true ->
  verdict (result o)
  = Some ("UNKNOWN_IMAP_ERROR", 500,
          JS.arr_includes FatalErrors (Some "AUTHENTICATION_ERROR")) /\
  verdict_operation (result o) = Some "sendDraft" /\
  verdict_message (result o)
  = Some ("IMAP operation sendDraft failed: "
          +:+ "IMAP authentication failed. Please check your credentials.").
Proof.
  cbv zeta.
  unfold ImapMailManager.sendDraft, ImapMailManager.prepareEmail, ImapMailManager.delete.
  run_cbn.
  answer; run_cbn; [thrown_away; cbn; discriminate|].
  answer; run_cbn; [thrown_away; cbn; discriminate|].
  answer; run_cbn.
  - rewrite run_try_catch.
    cbn [existsb app ev_send_ok ev_connect_failed_with orb].
    match goal with
    | |- context [ImapMailManager.code_is (view ?t) ?c] =>
        destruct (ImapMailManager.code_is (view t) c) eqn:Hlogin
    end.
    + intros _ _.
      match goal with
      | |- context [run handle (@ImapMailManager.handleError _ _ _ ?T "delete" [] ?t) ?s] =>
          rewrite (handleError_of_rejected_login (T:=T) "delete" t s Hlogin)
      end.
      cbn [result]. unfold ImapMailManager.handleError. cbn -[JS.arr_includes].
      change (JS.arr_includes FatalErrors None) with false. rewrite orb_false_r. auto.
    + thrown_away; cbn [result final trace]; thrown_away; cbn; discriminate.
  - answer; run_cbn.
    + rewrite run_try_catch.
      thrown_away; cbn [result final trace]; thrown_away; cbn; discriminate.
    + answer; run_cbn.
      * rewrite run_try_catch.
        thrown_away; cbn [result final trace]; thrown_away; cbn; discriminate.
      * match goal with o : option thrown |- _ => destruct o end; run_cbn;
          [|cbn; discriminate].
        answer; run_cbn; [|cbn; discriminate].
        rewrite run_try_catch.
        thrown_away; cbn [result final trace]; thrown_away; cbn; discriminate.
Qed.

(** Parsing the fetched messages calls nothing but the parser, and keeps
    one thread per message. *)
Lemma parse_all_parses_only (mkId : Z -> string) (messages : list FetchedMessage) st :
  let o := run handle
             (all_map messages (fun message =>
                bind (ImapMailManager.parseEmail (raw message)) (fun parsed =>
                  Ret {| thread_id := mkId (uid message); thread_raw := parsed |}))) st in
  forallb ev_is_parse (trace o) = true /\
  forall ys, result o = inr ys -> length ys = length messages.
Proof.
  revert st. induction messages as [|m ms IH]; intros st.
  - cbn. split; [reflexivity|]. now intros ys [= <-].
  - run_cbn. answer; run_cbn.
    + cbn. split; [reflexivity | discriminate].
    + rewrite run_bind.
      match goal with |- context [run handle (all_map ms ?b) ?s] =>
        assert (IH' : forallb ev_is_parse (trace (run handle (all_map ms b) s)) = true /\
                      forall ys, result (run handle (all_map ms b) s) = inr ys ->
                                 length ys = length ms)
          by exact (IH s);
        destruct (run handle (all_map ms b) s) as [f1 tr1 [e1|ys1]] end;
      cbn [final trace result] in *; destruct IH' as [IHf IHr].
      * split; [exact IHf | discriminate].
      * cbn [run trace result]. rewrite app_nil_r. split; [exact IHf|].
        intros ys [= <-]. cbn [length]. f_equal. now apply IHr.
Qed.

(** The part of a listing after its fetch: the messages are parsed, and the
    page is returned or the parser's error classified. *)
Ltac parse_them mkId :=
  rewrite run_try_catch, run_bind;
  match goal with |- context [run handle (all_map ?ms ?b) ?s] =>
    let H' := fresh "H" in
    assert (H' : forallb ev_is_parse (trace (run handle (all_map ms b) s)) = true /\
                 forall ys, result (run handle (all_map ms b) s) = inr ys ->
                   length ys = length ms)
      by exact (parse_all_parses_only mkId ms s);
    destruct H' as [H' _];
    apply parses_request_nothing in H';
    destruct (run handle (all_map ms b) s) as [? ? [?|?]]
  end;
  cbn [final trace result run] in *.

(** X17: a page of [list] is cut from the top of the UIDs the search
    found: the one fetch it issues asks, with the options of a header
    listing, for the first [maxResults] UIDs in descending order, and no
    UID left out is larger than one requested; no fetch at all is issued
    for an empty page.  The page token is null exactly when the search
    found no more than [maxResults] UIDs. *)
Theorem list_requests_the_newest_uids (params : ListParams.t) st page :
  let o := run handle (ImapMailManager.list config FatalErrors sanitizeContext params) st in
  let maxResults := default 100 (ListParams.maxResults params) in
  result o = inr page ->
  exists uids rest,
    searches (trace o) = [inr uids] /\
    let wanted := JS.slice0 (JS.sort_desc uids) maxResults in
    requests (trace o)
    = match wanted with
      | [] => []
      | _ => [(map Some wanted,
               {| bodies := "HEADER"; struct := true; markSeen := false |})]
      end /\
    Permutation uids (wanted ++ rest) /\
    Forall (fun v => Forall (fun u => v <= u) wanted) rest /\
    (0 <= maxResults -> Z.of_nat (length wanted) = Z.min maxResults (Z.of_nat (length uids))) /\
    (nextPageToken page = None <-> Z.of_nat (length uids) <= maxResults).
Proof.
  cbv zeta. unfold ImapMailManager.list. run_cbn.
  answer; run_cbn; [thrown_away; cbn; congruence|].
  answer; run_cbn; [thrown_away; cbn; congruence|].
  answer; run_cbn; [thrown_away; cbn; congruence|].
  match goal with
  | |- context [JS.slice0 (JS.sort_desc ?l) ?e] =>
      rename l into uids;
      destruct (newest_page uids e) as (rest & Hperm & Hle & Hlen); cbv zeta in Hperm, Hle, Hlen;
      pose proof (Permutation_length (sort_desc_perm uids)) as Hsame;
      destruct (JS.slice0 (JS.sort_desc uids) e) as [|uid1 uids1] eqn:Eus
  end; cbn [map]; run_cbn.
  - cbn [trace result searches searched requests requested app].
    intros [= <-]. exists uids, rest. rewrite Eus. cbn [nextPageToken].
    rewrite <- Hsame. pose proof (token_is_null_iff (Z.of_nat (length uids))) as Htoken.
    repeat (split; [solve [auto]|]). apply Htoken.
  - answer; run_cbn; [thrown_away; cbn; congruence|].
    parse_them (fun n => ImapMailManager.normalizeMailbox (ListParams.folder params)
                         +:+ ":" +:+ JS.string_of_Z n).
    + thrown_away; cbn; congruence.
    + intros [= <-]. exists uids, rest. rewrite Eus. cbn [nextPageToken].
      destruct H as (Hrq & Hse & _).
      rewrite app_nil_r.
      cbn [searches searched requests requested app]. rewrite Hrq, Hse.
      rewrite <- Hsame. pose proof (token_is_null_iff (Z.of_nat (length uids))) as Htoken.
      repeat (split; [solve [auto]|]). apply Htoken.
Qed.

(** X18: [listDrafts] pages the Drafts mailbox in the same way: it opens
    ["Drafts"], asks for the first [maxResults] UIDs in descending order,
    and returns a null token exactly when the search found no more. *)
Theorem listDrafts_requests_the_newest_uids (params : ListDraftsParams.t) st page :
  let o := run handle
             (ImapMailManager.listDrafts config FatalErrors sanitizeContext params) st in
  let maxResults := default 100 (ListDraftsParams.maxResults params) in
  result o = inr page ->
  exists uids rest,
    omap ev_opened (trace o) = ["Drafts"] /\
    searches (trace o) = [inr uids] /\
    let wanted := JS.slice0 (JS.sort_desc uids) maxResults in
    requests (trace o)
    = match wanted with
      | [] => []
      | _ => [(map Some wanted,
               {| bodies := "HEADER"; struct := true; markSeen := false |})]
      end /\
    Permutation uids (wanted ++ rest) /\
    Forall (fun v => Forall (fun u => v <= u) wanted) rest /\
    (0 <= maxResults -> Z.of_nat (length wanted) = Z.min maxResults (Z.of_nat (length uids))) /\
    (nextPageToken page = None <-> Z.of_nat (length uids) <= maxResults).
Proof.
  cbv zeta. unfold ImapMailManager.listDrafts. run_cbn.
  answer; run_cbn; [thrown_away; cbn; congruence|].
  answer; run_cbn; [thrown_away; cbn; congruence|].
  answer; run_cbn; [thrown_away; cbn; congruence|].
  match goal with
  | |- context [JS.slice0 (JS.sort_desc ?l) ?e] =>
      rename l into uids;
      destruct (newest_page uids e) as (rest & Hperm & Hle & Hlen); cbv zeta in Hperm, Hle, Hlen;
      pose proof (Permutation_length (sort_desc_perm uids)) as Hsame;
      destruct (JS.slice0 (JS.sort_desc uids) e) as [|uid1 uids1] eqn:Eus
  end; cbn [map]; run_cbn.
  - cbn [trace result searches searched requests requested app].
    intros [= <-]. exists uids, rest. rewrite Eus. cbn [nextPageToken].
    rewrite <- Hsame. pose proof (token_is_null_iff (Z.of_nat (length uids))) as Htoken.
    split; [reflexivity|].
    repeat (split; [solve [auto]|]). apply Htoken.
  - answer; run_cbn; [thrown_away; cbn; congruence|].
    parse_them (fun n => "Drafts:" +:+ JS.string_of_Z n).
    + thrown_away; cbn; congruence.
    + intros [= <-]. exists uids, rest. rewrite Eus. cbn [nextPageToken].
      destruct H as (Hrq & Hse & _ & _ & Hop).
      rewrite app_nil_r.
      cbn [searches searched requests requested app]. rewrite Hrq, Hse.
      rewrite <- Hsame. pose proof (token_is_null_iff (Z.of_nat (length uids))) as Htoken.
      split; [cbn; now rewrite Hop|].
      repeat (split; [solve [auto]|]). apply Htoken.
Qed.

(** X19: [createDraft] stores nothing: it never appends, sends, moves or
    flags.  When it succeeds it has connected, sanitized the message,
    opened ["Drafts"] and read the clock and the random source, and its id
    is [draft-<millis>-<suffix>]. *)
Theorem createDraft_stores_nothing (data : CreateDraftData.t) st :
  let o := run handle
             (ImapMailManager.createDraft config FatalErrors sanitizeContext data) st in
  existsb writes (script (trace o)) = false /\
  match result o with
  | inr draft =>
      script (trace o)
      = [AConnect; ASanitize (JS.or_else (CreateDraftData.message data) "");
         AOpenBox "Drafts"; ADateNow; ARandom] /\
      draft_success draft = true /\
      exists millis suffix,
        draft_id draft = "draft-" +:+ JS.string_of_Z millis +:+ "-" +:+ suffix
  | inl _ => True
  end.
Proof.
  cbv zeta. unfold ImapMailManager.createDraft. run_cbn.
  answer; run_cbn; [thrown_away; cbn; auto|].
  answer; run_cbn; [thrown_away; cbn; auto|].
  answer; run_cbn; [thrown_away; cbn; auto|].
  answer; run_cbn; [thrown_away; cbn; auto|].
  answer; run_cbn; [thrown_away; cbn; auto|].
  cbn [result trace script act shape existsb writes orb draft_success draft_id].
  eauto 10.
Qed.

(** X20: the reading operations change nothing: [list], [listDrafts],
    [getDraft], [getAttachment] and [getUserLabels] issue no move, flag,
    append, mailbox or send command and fetch without [markSeen]; the only
    such call of [get] is its fetch of the message, which marks it seen. *)
Theorem reading_operations_change_nothing now (params : ListParams.t)
    (draftParams : ListDraftsParams.t) (id attachmentId : string) st :
  let quiet (A : Type) (p : prog A) :=
    existsb writes (script (trace (run handle p st))) = false in
  quiet _ (ImapMailManager.list config FatalErrors sanitizeContext params) /\
  quiet _ (ImapMailManager.listDrafts config FatalErrors sanitizeContext draftParams) /\
  quiet _ (ImapMailManager.getDraft config FatalErrors sanitizeContext id) /\
  quiet _ (ImapMailManager.getAttachment config FatalErrors sanitizeContext id attachmentId) /\
  quiet _ (ImapMailManager.getUserLabels config FatalErrors sanitizeContext) /\
  let got := run handle (ImapMailManager.get config FatalErrors sanitizeContext now id) st in
  List.filter writes (script (trace got)) = [] \/
  List.filter writes (script (trace got))
  = [AFetch [ImapMailManager.uidOf id] {| bodies := ""; struct := true; markSeen := true |}].
Proof.
  cbv zeta.
  unfold ImapMailManager.list, ImapMailManager.listDrafts, ImapMailManager.getDraft,
    ImapMailManager.getAttachment, ImapMailManager.getUserLabels, ImapMailManager.get.
  repeat split; run_cbn.
  - answer; run_cbn; [thrown_away; reflexivity|].
    answer; run_cbn; [thrown_away; reflexivity|].
    answer; run_cbn; [thrown_away; reflexivity|].
    match goal with |- context [map Some (JS.slice0 ?a ?b)] =>
      destruct (map Some (JS.slice0 a b)) end; run_cbn; [reflexivity|].
    answer; run_cbn; [thrown_away; reflexivity|].
    parse_them (fun n => ImapMailManager.normalizeMailbox (ListParams.folder params)
                         +:+ ":" +:+ JS.string_of_Z n);
      destruct H as (_ & _ & H & _).
    + thrown_away; rewrite ?app_nil_r;
        cbn [script act shape existsb writes markSeen orb]; rewrite ?existsb_script_app, ?H;
        reflexivity.
    + rewrite ?app_nil_r. cbn [script act shape existsb writes markSeen orb]. exact H.
  - answer; run_cbn; [thrown_away; reflexivity|].
    answer; run_cbn; [thrown_away; reflexivity|].
    answer; run_cbn; [thrown_away; reflexivity|].
    match goal with |- context [map Some (JS.slice0 ?a ?b)] =>
      destruct (map Some (JS.slice0 a b)) end; run_cbn; [reflexivity|].
    answer; run_cbn; [thrown_away; reflexivity|].
    parse_them (fun n => "Drafts:" +:+ JS.string_of_Z n);
      destruct H as (_ & _ & H & _).
    + thrown_away; rewrite ?app_nil_r;
        cbn [script act shape existsb writes markSeen orb]; rewrite ?existsb_script_app, ?H;
        reflexivity.
    + rewrite ?app_nil_r. cbn [script act shape existsb writes markSeen orb]. exact H.
  - answer; run_cbn; [thrown_away; reflexivity|].
    answer; run_cbn; [thrown_away; reflexivity|].
    answer; run_cbn; [thrown_away; reflexivity|].
    match goal with |- context [map ImapMailManager.collect ?l] => destruct l end;
      cbn [map]; run_cbn; [thrown_away; reflexivity|].
    answer; run_cbn; [thrown_away; reflexivity|reflexivity].
  - answer; run_cbn; [thrown_away; reflexivity|].
    answer; run_cbn; [thrown_away; reflexivity|].
    answer; run_cbn; [thrown_away; reflexivity|].
    match goal with |- context [map ImapMailManager.collect ?l] => destruct l end;
      cbn [map]; run_cbn; [thrown_away; reflexivity|].
    answer; run_cbn; [thrown_away; reflexivity|].
    match goal with |- context [match ?o with Some _ => _ | None => _ end] => destruct o end;
      run_cbn; [reflexivity | thrown_away; reflexivity].
  - answer; run_cbn; [thrown_away; reflexivity|].
    answer; run_cbn; [thrown_away; reflexivity|reflexivity].
  - answer; run_cbn; [thrown_away; cbn; auto|].
    answer; run_cbn; [thrown_away; cbn; auto|].
    answer; run_cbn; [thrown_away; cbn; auto|].
    match goal with |- context [map ImapMailManager.collect ?l] => destruct l end;
      cbn [map]; run_cbn; [thrown_away; cbn; auto|].
    answer; run_cbn; [thrown_away; cbn; auto|cbn; auto].
Qed.

End Operations.

(** ** The [connect] mutation and the [list] query *)

(** X21: what the [connect] mutation leaves in the table.  After a success
    exactly one row is stored and nothing deleted: the row has the returned
    id, a null refresh token and the server columns computed from the
    input, and the driver was tested once, on the INBOX with [maxResults]
    1.  [UNAUTHORIZED] is thrown before any insert, driver test or delete;
    [INTERNAL_SERVER_ERROR] after the one stored row has been deleted
    again.  Any other error arises after the connection test has passed:
    either nothing is stored and no driver test or delete was made, or the
    error is that of the deletion after a failed driver test, and the row
    stays in the table. *)
Theorem connect_and_the_row_it_stores {W : Type}
    (answer : forall R, ConnectRoute.call R -> W -> W * (thrown + R))
    (user_id : string) (input : Route.imapLogin) (w : W) :
  let r := ConnectRoute.run answer (ConnectRoute.connect user_id input) w in
  let tr := snd (fst r) in
  match snd r with
  | inr c =>
      ConnectRoute.success c = true /\
      ConnectRoute.connection_email c = Route.email input /\
      ConnectRoute.deleted tr = [] /\
      ConnectRoute.driverTests tr
      = [(Route.driverConfig user_id input,
          {| ListParams.folder := "INBOX"; ListParams.query := None;
             ListParams.maxResults := Some 1; ListParams.labelIds := None;
             ListParams.pageToken := None |})] /\
      exists row,
        ConnectRoute.stored tr = [row] /\
        ConnectRoute.id row = ConnectRoute.connection_id c /\
        ConnectRoute.userId row = user_id /\
        ConnectRoute.email row = Route.email input /\
        ConnectRoute.accessToken row = Route.password input /\
        ConnectRoute.refreshToken row = None /\
        ConnectRoute.servers row = Route.insertedRow input
  | inl (ConnectRoute.TRPCError code _) =>
      code = "UNAUTHORIZED" /\ ConnectRoute.inserted tr = [] /\
      ConnectRoute.driverTests tr = [] /\ ConnectRoute.deleted tr = []
      \/
      code = "INTERNAL_SERVER_ERROR" /\
      exists row,
        ConnectRoute.stored tr = [row] /\
        ConnectRoute.removed tr = [ConnectRoute.id row] /\
        length (ConnectRoute.driverTests tr) = 1%nat
  | inl (ConnectRoute.Uncaught e) =>
      existsb ConnectRoute.tested_ok tr = true /\
      (ConnectRoute.stored tr = [] /\ ConnectRoute.driverTests tr = [] /\
       ConnectRoute.deleted tr = []
       \/
       exists row,
         ConnectRoute.stored tr = [row] /\
         ConnectRoute.removed tr = [] /\
         length (ConnectRoute.driverTests tr) = 1%nat /\
         In (ConnectRoute.Step (ConnectRoute.DbDelete (ConnectRoute.id row)) (inl e)) tr)
  end.
Proof.
  cbv zeta. unfold ConnectRoute.connect, ConnectRoute.ask.
  repeat (cbn [ConnectRoute.run];
          match goal with
          | |- context [let (_, _) := answer ?R ?c ?w in _] =>
              destruct (answer R c w) as [? [?|?]]
          end);
    cbn; auto 10.
  all: try (repeat split; auto; eexists; repeat split; reflexivity).
  all: try (split; [reflexivity|]; right; eexists; repeat split; auto 10).
  all: try (right; split; [reflexivity|]; eexists; repeat split; reflexivity).
Qed.

(** The row that stays: the login is accepted and the row stored, the
    driver test fails, and the deletion of the row rejects.  The mutation
    fails with the error of the deletion, and the row is still there. *)
Example connect_can_leave_its_row_behind :
  let r := ConnectRoute.run ConnectRoute.stubborn
             (ConnectRoute.connect "u1"
                {| Route.email := "user@example.com"; Route.password := "secret";
                   Route.imapServer := None; Route.smtpServer := None;
                   Route.imapPort := None; Route.smtpPort := None |}) 7 in
  snd r = inl (ConnectRoute.Uncaught (Error "connection terminated unexpectedly")) /\
  map ConnectRoute.id (ConnectRoute.stored (snd (fst r))) = ["c7"] /\
  ConnectRoute.removed (snd (fst r)) = [].
Proof. cbv zeta. repeat split; vm_compute; reflexivity. Qed.

Lemma imap_rows_are_disconnected (standard : list ConnectionsRoute.standard)
    (imaps : list ConnectionsRoute.imap) (conn : ConnectionsRoute.imap) :
  In conn imaps ->
  ConnectionsRoute.imap_refreshToken conn = None ->
  In (ConnectionsRoute.imap_id conn) (ConnectionsRoute.disconnectedIds standard imaps).
Proof.
  intros Hin Hnull. unfold ConnectionsRoute.disconnectedIds, ConnectionsRoute.combined.
  apply (in_map ConnectionsRoute.std_id _ (ConnectionsRoute.ofImap conn)).
  apply List.filter_In. split.
  - apply in_or_app. right. now apply in_map.
  - unfold ConnectionsRoute.disconnected. cbn [ConnectionsRoute.ofImap
      ConnectionsRoute.std_refreshToken]. rewrite Hnull. cbn. apply orb_true_r.
Qed.

(** X22: an account the [connect] mutation has just created is reported by
    the [list] query among the [disconnectedIds], because its row has no
    refresh token; its entry is named after the local part of the address,
    has no picture and the provider ["imap"]. *)
Theorem connected_account_is_listed_as_disconnected {W : Type}
    (answer : forall R, ConnectRoute.call R -> W -> W * (thrown + R))
    (user_id : string) (input : Route.imapLogin) (w : W)
    (c : ConnectRoute.connected)
    (standard : list ConnectionsRoute.standard) (others : list ConnectRoute.row) :
  let r := ConnectRoute.run answer (ConnectRoute.connect user_id input) w in
  snd r = inr c ->
  let rows := map ConnectionsRoute.select (ConnectRoute.inserted (snd (fst r)) ++ others) in
  In (ConnectRoute.connection_id c) (ConnectionsRoute.disconnectedIds standard rows) /\
  exists entry,
    In entry (ConnectionsRoute.connections standard rows) /\
    ConnectionsRoute.entry_id entry = ConnectRoute.connection_id c /\
    ConnectionsRoute.entry_email entry = Route.email input /\
    ConnectionsRoute.entry_name entry = JS.split "@" (Route.email input) !! 0%nat /\
    ConnectionsRoute.entry_picture entry = None /\
    ConnectionsRoute.entry_providerId entry = "imap".
Proof.
  cbv zeta. unfold ConnectRoute.connect, ConnectRoute.ask.
  repeat (cbn [ConnectRoute.run];
          match goal with
          | |- context [let (_, _) := answer ?R ?c ?w in _] =>
              destruct (answer R c w) as [? [?|?]]
          end);
    cbn [ConnectRoute.run snd fst]; try discriminate.
  intros [= <-]. cbn [ConnectRoute.inserted app map ConnectRoute.connection_id].
  split.
  - match goal with
    | |- In _ (ConnectionsRoute.disconnectedIds _ (ConnectionsRoute.select ?row :: _)) =>
        apply (imap_rows_are_disconnected standard _ (ConnectionsRoute.select row));
          [now left | reflexivity]
    end.
  - match goal with
    | |- context [ConnectionsRoute.select ?row :: _] =>
        exists (ConnectionsRoute.toEntry (ConnectionsRoute.ofImap (ConnectionsRoute.select row)))
    end.
    split.
    + unfold ConnectionsRoute.connections, ConnectionsRoute.combined.
      apply in_map, in_or_app. right. now left.
    + cbn. auto.
Qed.

Lemma connected_account_is_listed_as_disconnected_witness :
  let input := {| Route.email := "user@example.com"; Route.password := "secret";
                  Route.imapServer := None; Route.smtpServer := None;
                  Route.imapPort := None; Route.smtpPort := None |} in
  snd (ConnectRoute.run ConnectRoute.agreeable (ConnectRoute.connect "u1" input) 7)
  = inr {| ConnectRoute.success := true; ConnectRoute.connection_id := "c7";
           ConnectRoute.connection_email := "user@example.com" |} /\
  In "c7" (ConnectionsRoute.disconnectedIds []
             (map ConnectionsRoute.select
                (ConnectRoute.inserted
                   (snd (fst (ConnectRoute.run ConnectRoute.agreeable
                                (ConnectRoute.connect "u1" input) 7))) ++ []))).
Proof.
  cbv zeta. split; [vm_compute; reflexivity|].
  refine (proj1 (connected_account_is_listed_as_disconnected ConnectRoute.agreeable "u1" _ 7
                   {| ConnectRoute.success := true; ConnectRoute.connection_id := "c7";
                      ConnectRoute.connection_email := "user@example.com" |} [] [] _)).
  vm_compute. reflexivity.
Defined.

(** ** The operations on the mail server of the scenarios *)

Lemma missing_message_is_an_unknown_error_witness :
  let got := run MailServer.handle
               (ImapMailManager.get mockConfig testFatalErrors testSanitizeContext testNow
                  "INBOX:9")
               (MailServer.account [1; 2], testStore) in
  existsb ev_fetched_nothing (trace got) = true /\
  verdict (result got) = Some ("UNKNOWN_IMAP_ERROR", 500, false).
Proof.
  cbv zeta. split; [vm_compute; reflexivity|].
  refine (proj1 (proj1 (missing_message_is_an_unknown_error MailServer.handle mockConfig
                          testFatalErrors testSanitizeContext testNow "INBOX:9" ""
                          (MailServer.account [1; 2], testStore)) _)).
  vm_compute. reflexivity.
Defined.

Lemma sendDraft_reclassifies_a_rejected_login_witness :
  let o := run MailServer.handle
             (ImapMailManager.sendDraft mockConfig testFatalErrors testSanitizeContext
                "Drafts:1" helloMessage)
             (MailServer.locked_out [1], testStore) in
  existsb ev_send_ok (trace o) = true /\
  existsb (ev_connect_failed_with "AUTHENTICATIONFAILED") (trace o) = true /\
  verdict (result o) = Some ("UNKNOWN_IMAP_ERROR", 500, false) /\
  length (MailServer.outbox (fst (final o))) = 1%nat /\
  snd (final o) = ∅.
Proof.
  cbv zeta. split; [vm_compute; reflexivity|]. split; [vm_compute; reflexivity|].
  split; [|split; vm_compute; reflexivity].
  refine (proj1 (sendDraft_reclassifies_a_rejected_login MailServer.handle mockConfig
                   testFatalErrors testSanitizeContext "Drafts:1" helloMessage
                   (MailServer.locked_out [1], testStore) _ _));
    vm_compute; reflexivity.
Defined.

Lemma list_requests_the_newest_uids_witness :
  let o := run MailServer.handle (testList (listOf "INBOX" 2 None))
             (MailServer.account [3; 1; 4; 2], ∅) in
  exists page uids rest,
    result o = inr page /\
    searches (trace o) = [inr uids] /\
    requests (trace o)
    = [(map Some (JS.slice0 (JS.sort_desc uids) 2),
        {| bodies := "HEADER"; struct := true; markSeen := false |})] /\
    JS.slice0 (JS.sort_desc uids) 2 = [4; 3] /\
    Permutation uids ([4; 3] ++ rest).
Proof.
  cbv zeta.
  pose proof (fun page =>
                list_requests_the_newest_uids MailServer.handle mockConfig testFatalErrors
                  testSanitizeContext (listOf "INBOX" 2 None)
                  (MailServer.account [3; 1; 4; 2], ∅) page) as T.
  cbv zeta in T.
  assert (Hp : exists page,
             result (run MailServer.handle (testList (listOf "INBOX" 2 None))
                       (MailServer.account [3; 1; 4; 2], ∅)) = inr page)
    by (vm_compute; eexists; reflexivity).
  destruct Hp as (page & Hp).
  destruct (T page Hp) as (uids & rest & Hs & Hr & Hperm & _).
  exists page, uids, rest.
  assert (Hu : uids = [3; 1; 4; 2]).
  { assert (Hs' : searches (trace (run MailServer.handle (testList (listOf "INBOX" 2 None))
                                     (MailServer.account [3; 1; 4; 2], ∅)))
                  = [inr [3; 1; 4; 2]]) by (vm_compute; reflexivity).
    unfold testList in Hs'. rewrite Hs in Hs'. now injection Hs'. }
  subst uids. repeat split; auto.
Defined.

Lemma listDrafts_requests_the_newest_uids_witness :
  let o := run MailServer.handle
             (ImapMailManager.listDrafts mockConfig testFatalErrors testSanitizeContext
                {| ListDraftsParams.q := None; ListDraftsParams.maxResults := Some 1;
                   ListDraftsParams.pageToken := None |})
             (MailServer.set_boxes (MailServer.account [])
                (<["Drafts" := map MailServer.plain [5; 8]]>
                   (MailServer.boxes (MailServer.account []))), ∅) in
  exists page, result o = inr page /\ omap ev_opened (trace o) = ["Drafts"] /\
               nextPageToken page <> None.
Proof.
  cbv zeta.
  pose proof (fun page =>
                listDrafts_requests_the_newest_uids MailServer.handle mockConfig testFatalErrors
                  testSanitizeContext
                  {| ListDraftsParams.q := None; ListDraftsParams.maxResults := Some 1;
                     ListDraftsParams.pageToken := None |}
                  (MailServer.set_boxes (MailServer.account [])
                     (<["Drafts" := map MailServer.plain [5; 8]]>
                        (MailServer.boxes (MailServer.account []))), ∅) page) as T.
  cbv zeta in T.
  match type of T with
  | forall page, result ?o = _ -> _ =>
      assert (Hp : exists page, result o = inr page) by (vm_compute; eexists; reflexivity)
  end.
  destruct Hp as (page & Hp).
  destruct (T page Hp) as (uids & rest & Hop & _).
  exists page. split; [exact Hp|]. split; [exact Hop|].
  revert Hp. vm_compute. intros [= <-]. discriminate.
Defined.
